(** * AgentOrch: the execution orchestration engine

    A shallow embedding of the orchestration core of the repository:

    - [StateService]      (src/core/execution/execution.service.ts, second part)
    - [EventService]      (core/events/event.service.ts)
    - [QueueService]      (src/core/queue/queue.service.ts)
    - [ExecutionService]  (src/core/execution/execution.service.ts)
    - [createAgentWorker] (src/workers/agent.worker.ts)
    - [BaseAgent] and the six pipeline agents (src/agents)
    - [errorHandler]      (src/api/middleware/error-handler.ts)

    The database reached through Prisma, the BullMQ queues, the clock and the
    identifier generator form one explicit [World]; every service method is a
    function in a state-and-exception monad over it.  A thrown exception keeps
    the writes made before it, as the source runs no transaction. *)

From stdpp Require Import gmap strings list fin_maps pretty sorting.
From Stdlib Require Import ZArith Lia Floats.

#[local] Set Warnings "-register-all".
#[local] Open Scope string_scope.
#[local] Open Scope list_scope.
#[local] Open Scope Z_scope.

(** ** JavaScript values

    [RfqState], [metadata] and [eventData] are plain JavaScript objects that
    are stored in [Json] columns.  An object is a finite map from property
    names to values (enumeration order is not modelled).  [VNum] carries the
    integer-valued numbers; [VStr] is a sequence of code units. *)

Inductive value : Type :=
| VUndefined
| VNull
| VBool (b : bool)
| VNum (n : Z)
| VStr (s : string)
| VArr (l : list value)
| VObj (o : gmap string value).

Abbreviation obj := (gmap string value).

(** Property read [o.k]: an absent property reads as [undefined]. *)
Definition get (o : obj) (k : string) : value := default VUndefined (o !! k).

(** The condition of [c ? a : b] and the left operand of [||]. *)
Definition truthy (v : value) : bool :=
  match v with
  | VUndefined | VNull => false
  | VBool b => b
  | VNum n => negb (Z.eqb n 0)
  | VStr s => negb (String.eqb s "")
  | VArr _ | VObj _ => true
  end.

Fixpoint code_units (s : string) : list value :=
  match s with
  | EmptyString => []
  | String c s' => VStr (String c EmptyString) :: code_units s'
  end.

Definition indexed (l : list value) : obj :=
  list_to_map (imap (fun i v => (pretty i, v)) l).

(** The own enumerable properties that a spread [{...v}] copies. *)
Definition own_props (v : value) : obj :=
  match v with
  | VObj o => o
  | VArr l => indexed l
  | VStr s => indexed (code_units s)
  | VUndefined | VNull | VBool _ | VNum _ => ∅
  end.

(** [{...a, ...b}]: the properties of [b] override those of [a]. *)
Definition spread2 (a b : obj) : obj := b ∪ a.

(** What a [Json] column keeps of a value (JSON.stringify): a property whose
    value is [undefined] is dropped, an [undefined] array element is [null]. *)
Fixpoint to_json (v : value) : value :=
  match v with
  | VArr l =>
      VArr (map (fun x => match x with VUndefined => VNull | _ => to_json x end) l)
  | VObj o =>
      VObj (omap (fun x => match x with VUndefined => None | _ => Some (to_json x) end) o)
  | _ => v
  end.

(** A measure for induction on values. *)
Fixpoint vsize (v : value) : nat :=
  match v with
  | VArr l => S (sum_list (vsize <$> l))
  | VObj o => S (map_fold (fun _ n acc => (n + acc)%nat) 0%nat (vsize <$> o))
  | _ => 1%nat
  end.

Definition json_obj (o : obj) : obj :=
  omap (fun x => match x with VUndefined => None | _ => Some (to_json x) end) o.

(** [Object.keys(o)]: the property names, listed from the key set alone. *)
Definition Object_keys (o : obj) : list string := elements (dom o).

(** ** StateService.mergeState *)

Module StateMerge.

(** One curated property of the object literal in [mergeState]:
    [f: updates.f ? { ...currentState.f, ...updates.f } : currentState.f]. *)
Definition merged_field (f : string) (currentState updates : obj) : value :=
  if truthy (get updates f)
  then VObj (spread2 (own_props (get currentState f)) (own_props (get updates f)))
  else get currentState f.

Definition curated : list string :=
  ["parsedData"; "duplicateCheckResult"; "mtoData"; "quote"].

(** The object literal [{ ...currentState, ...updates, parsedData: ...,
    duplicateCheckResult: ..., mtoData: ..., quote: ... }]. *)
Definition mergeState (currentState updates : obj) : obj :=
  let base := spread2 currentState updates in
  <["quote" := merged_field "quote" currentState updates]>
  (<["mtoData" := merged_field "mtoData" currentState updates]>
  (<["duplicateCheckResult" := merged_field "duplicateCheckResult" currentState updates]>
  (<["parsedData" := merged_field "parsedData" currentState updates]> base))).

End StateMerge.
Export StateMerge.

(** ** Data model

    The rows of the tables the services reach through Prisma.  An identifier
    (a uuid in the source) is opaque: it is drawn from a counter of the world,
    and [id_str] is its text. *)

Definition id_str (i : nat) : string := pretty i.

Inductive ExecutionStatus : Type :=
| PENDING | PROCESSING | AWAITING_HUMAN | COMPLETED | FAILED | CANCELLED.

Inductive AgentTaskStatus : Type :=
| TASK_PENDING | TASK_PROCESSING | TASK_COMPLETED | TASK_FAILED
| TASK_AWAITING_HUMAN | TASK_SKIPPED.

Inductive SnapshotType : Type := INPUT | OUTPUT | HUMAN_UPDATE.

#[global] Instance ExecutionStatus_eq_dec : EqDecision ExecutionStatus.
Proof. solve_decision. Defined.

#[global] Instance SnapshotType_eq_dec : EqDecision SnapshotType.
Proof. solve_decision. Defined.

Definition status_str (s : ExecutionStatus) : string :=
  match s with
  | PENDING => "PENDING"
  | PROCESSING => "PROCESSING"
  | AWAITING_HUMAN => "AWAITING_HUMAN"
  | COMPLETED => "COMPLETED"
  | FAILED => "FAILED"
  | CANCELLED => "CANCELLED"
  end.

(** [AGENT_PIPELINE] of shared/types/agent.types.ts. *)
Definition AGENT_PIPELINE : list string :=
  ["intake"; "missing-info"; "duplicate"; "prioritization"; "mto"; "auto-quote"].

(** [currentAgent] is a nullable column; every path of the source that
    writes an execution row writes an agent name into it. *)
Module Execution.
Record t : Type := mk {
  id : nat;
  emailId : nat;
  externalRef : option string;
  status : ExecutionStatus;
  currentAgent : string;
  metadata : obj;
  createdAt : Z;
  updatedAt : Z;
  completedAt : option Z;
}.
End Execution.

Module AgentTask.
Record t : Type := mk {
  id : nat;
  executionId : nat;
  agentName : string;
  attemptNumber : nat;
  status : AgentTaskStatus;
  startedAt : option Z;
  completedAt : option Z;
  inputSnapshotId : option nat;
  outputSnapshotId : option nat;
  durationMs : option Z;
  tokenUsage : option value;
  costUsd : option value;
  errorMessage : option string;
  createdAt : Z;
}.
End AgentTask.

Module Event.
Record t : Type := mk {
  id : nat;
  executionId : nat;
  agentTaskId : option nat;
  eventType : string;
  eventData : obj;
  createdAt : Z;
}.
End Event.

Module RfqSnapshot.
Record t : Type := mk {
  id : nat;
  executionId : nat;
  agentName : string;
  snapshotType : SnapshotType;
  data : obj;
  createdAt : Z;
}.
End RfqSnapshot.

Module Attachment.
Record t : Type := mk {
  id : nat;
  filename : string;
  originalName : string;
  mimeType : string;
  size : Z;
  bucketName : string;
  objectKey : string;
}.
End Attachment.

Module Email.
Record t : Type := mk {
  id : nat;
  body : string;
  senderEmail : string;
  receivedAt : Z;
  attachments : list Attachment.t;
}.
End Email.

(** A BullMQ job; [data] is the [JobData] of queue.service.ts. *)
Module Job.
Record t : Type := mk {
  id : string;
  name : string;
  data_executionId : nat;
  attemptsMade : nat;
}.
End Job.

(** ** Agent contract (shared/types/agent.types.ts) *)

Record RfqInput : Type := {
  in_emailId : nat;
  in_emailBody : string;
  in_senderEmail : string;
  in_receivedAt : Z;
  in_attachments : list Attachment.t;
}.

Record AgentContext : Type := {
  ctx_executionId : nat;
  ctx_input : RfqInput;
  ctx_currentState : obj;
  ctx_attempt : nat;
  ctx_workingDir : string;
}.

Inductive NextAction : Type :=
| CONTINUE (nextAgent : string)
| AWAIT_HUMAN (reason : string) (requiredFields : option (list string))
| COMPLETE
| FAIL (error : string)
| SKIP (reason : string) (nextAgent : string).

Record DomainEvent : Type := {
  ev_id : nat;
  ev_eventType : string;
  ev_eventData : obj;
  ev_createdAt : Z;
}.

Record ResultMetadata : Type := {
  md_durationMs : option Z;
  md_tokenUsage : option value;
  md_costUsd : option value;
}.

Record AgentResult : Type := {
  success : bool;
  outputState : obj;
  events : list DomainEvent;
  nextAction : NextAction;
  result_metadata : option ResultMetadata;
}.

(** ** The world: database tables, queues, clock, identifier source *)

Record World : Type := mkWorld {
  executions : gmap nat Execution.t;
  agentTasks : gmap nat AgentTask.t;
  eventLog : list Event.t;
  rfqSnapshots : list RfqSnapshot.t;
  emails : gmap nat Email.t;
  queues : gset string;
  jobs : gmap string (list Job.t);
  initialized : bool;
  uuid_next : nat;
  clock : Z;
  cwd : string;
}.

(** Rows of [eventLog] and [rfqSnapshots] are kept in insertion order.
    [queues] holds the names of the queues the service has opened, [jobs] the
    jobs BullMQ keeps under each queue name. *)

Definition with_executions (f : gmap nat Execution.t → gmap nat Execution.t)
    (w : World) : World :=
  mkWorld (f (executions w)) (agentTasks w) (eventLog w) (rfqSnapshots w)
    (emails w) (queues w) (jobs w) (initialized w) (uuid_next w) (clock w) (cwd w).

Definition with_agentTasks (f : gmap nat AgentTask.t → gmap nat AgentTask.t)
    (w : World) : World :=
  mkWorld (executions w) (f (agentTasks w)) (eventLog w) (rfqSnapshots w)
    (emails w) (queues w) (jobs w) (initialized w) (uuid_next w) (clock w) (cwd w).

Definition with_eventLog (f : list Event.t → list Event.t) (w : World) : World :=
  mkWorld (executions w) (agentTasks w) (f (eventLog w)) (rfqSnapshots w)
    (emails w) (queues w) (jobs w) (initialized w) (uuid_next w) (clock w) (cwd w).

Definition with_rfqSnapshots (f : list RfqSnapshot.t → list RfqSnapshot.t)
    (w : World) : World :=
  mkWorld (executions w) (agentTasks w) (eventLog w) (f (rfqSnapshots w))
    (emails w) (queues w) (jobs w) (initialized w) (uuid_next w) (clock w) (cwd w).

Definition with_queues (f : gset string → gset string) (w : World) : World :=
  mkWorld (executions w) (agentTasks w) (eventLog w) (rfqSnapshots w)
    (emails w) (f (queues w)) (jobs w) (initialized w) (uuid_next w) (clock w) (cwd w).

Definition with_jobs (f : gmap string (list Job.t) → gmap string (list Job.t))
    (w : World) : World :=
  mkWorld (executions w) (agentTasks w) (eventLog w) (rfqSnapshots w)
    (emails w) (queues w) (f (jobs w)) (initialized w) (uuid_next w) (clock w) (cwd w).

Definition with_initialized (b : bool) (w : World) : World :=
  mkWorld (executions w) (agentTasks w) (eventLog w) (rfqSnapshots w)
    (emails w) (queues w) (jobs w) b (uuid_next w) (clock w) (cwd w).

Definition with_uuid_next (n : nat) (w : World) : World :=
  mkWorld (executions w) (agentTasks w) (eventLog w) (rfqSnapshots w)
    (emails w) (queues w) (jobs w) (initialized w) n (clock w) (cwd w).

(** The environment moves the clock; no service method does. *)
Definition at_time (t : Z) (w : World) : World :=
  mkWorld (executions w) (agentTasks w) (eventLog w) (rfqSnapshots w)
    (emails w) (queues w) (jobs w) (initialized w) (uuid_next w) t (cwd w).

(** ** Exceptions (shared/utils/errors.ts) and the service monad *)

Inductive Exception : Type :=
| NotFoundError (resource : string) (id : option string)
| ValidationError (message : string)
| ConflictError (message : string)
| UnauthorizedError (message : string)
| ForbiddenError (message : string)
| AgentExecutionError (agentName message : string)
| StorageError (message : string)
| PrismaKnownRequestError (code : string)
| JsError (message : string).

Definition statusCode (e : Exception) : Z :=
  match e with
  | NotFoundError _ _ => 404
  | ValidationError _ => 400
  | ConflictError _ => 409
  | UnauthorizedError _ => 401
  | ForbiddenError _ => 403
  | AgentExecutionError _ _ => 500
  | StorageError _ => 500
  | PrismaKnownRequestError _ => 500
  | JsError _ => 500
  end.

Definition error_code (e : Exception) : string :=
  match e with
  | NotFoundError _ _ => "NOT_FOUND"
  | ValidationError _ => "VALIDATION_ERROR"
  | ConflictError _ => "CONFLICT"
  | UnauthorizedError _ => "UNAUTHORIZED"
  | ForbiddenError _ => "FORBIDDEN"
  | AgentExecutionError _ _ => "AGENT_EXECUTION_ERROR"
  | StorageError _ => "STORAGE_ERROR"
  | PrismaKnownRequestError c => c
  | JsError _ => "INTERNAL_ERROR"
  end.

Definition error_message (e : Exception) : string :=
  match e with
  | NotFoundError resource (Some i) => resource +:+ " with id '" +:+ i +:+ "' not found"
  | NotFoundError resource None => resource +:+ " not found"
  | AgentExecutionError a m => "Agent '" +:+ a +:+ "' execution failed: " +:+ m
  | ValidationError m | ConflictError m | UnauthorizedError m
  | ForbiddenError m | StorageError m | JsError m => m
  | PrismaKnownRequestError c => c
  end.

Inductive outcome (A : Type) : Type :=
| Returned (a : A)
| Thrown (e : Exception).
Arguments Returned {A} a.
Arguments Thrown {A} e.

(** A service call runs from a world to an outcome and a world.  A throw
    aborts the rest of the call and keeps the world as it then is. *)
Definition M (A : Type) : Type := World → outcome A * World.

Definition ret {A} (a : A) : M A := fun w => (Returned a, w).
Definition throw {A} (e : Exception) : M A := fun w => (Thrown e, w).
Definition bind {A B} (m : M A) (k : A → M B) : M B :=
  fun w => match m w with
           | (Returned a, w') => k a w'
           | (Thrown e, w') => (Thrown e, w')
           end.
Definition gets {A} (f : World → A) : M A := fun w => (Returned (f w), w).
Definition modify (f : World → World) : M unit := fun w => (Returned tt, f w).

Notation "'let*' x ':=' m 'in' k" := (bind m (fun x => k))
  (at level 10, x name, m at level 100, k at level 200).

(** [new Date()], [Date.now()] and the database default [now()]. *)
Definition now : M Z := gets clock.

(** [uuidv4()] and the database default [uuid()]. *)
Definition uuid : M nat :=
  fun w => (Returned (uuid_next w), with_uuid_next (S (uuid_next w)) w).

(** ** Prisma operations

    The query engine sorts the rows it is given (in insertion order) by
    [createdAt], newest first.  What it does with rows of equal [createdAt] is
    its own business: the class fixes no tie-break, [sorts_newest_first] is
    all a caller may rely on. *)

Class QueryEngine : Type := {
  orderBy_createdAt_desc : list RfqSnapshot.t → list RfqSnapshot.t;
}.

Definition newer_or_equal (a b : RfqSnapshot.t) : Prop :=
  RfqSnapshot.createdAt b ≤ RfqSnapshot.createdAt a.

#[global] Instance newer_or_equal_dec a b : Decision (newer_or_equal a b).
Proof. unfold newer_or_equal. apply _. Defined.

Definition sorts_newest_first (Q : QueryEngine) : Prop :=
  ∀ rows,
    orderBy_createdAt_desc rows ≡ₚ rows ∧
    StronglySorted newer_or_equal (orderBy_createdAt_desc rows).

(** Two engines: both sort by [createdAt] alone and differ on ties only. *)
Definition engine_scan : QueryEngine :=
  {| orderBy_createdAt_desc rows := merge_sort newer_or_equal rows |}.

Definition engine_scan_backward : QueryEngine :=
  {| orderBy_createdAt_desc rows := merge_sort newer_or_equal (reverse rows) |}.

Record ExecutionUpdateInput : Type := {
  set_status : option ExecutionStatus;
  set_currentAgent : option string;
  set_metadata : option obj;
  set_completedAt : option Z;
}.


(** The row after [prisma.execution.update({ data })] at time [t]
    ([updatedAt] is an [@updatedAt] column). *)
Definition updated_execution (d : ExecutionUpdateInput) (t : Z)
    (e : Execution.t) : Execution.t :=
  {| Execution.id := Execution.id e;
     Execution.emailId := Execution.emailId e;
     Execution.externalRef := Execution.externalRef e;
     Execution.status := default (Execution.status e) (set_status d);
     Execution.currentAgent := default (Execution.currentAgent e) (set_currentAgent d);
     Execution.metadata :=
       match set_metadata d with
       | Some m => json_obj m
       | None => Execution.metadata e
       end;
     Execution.createdAt := Execution.createdAt e;
     Execution.updatedAt := t;
     Execution.completedAt :=
       match set_completedAt d with
       | Some c => Some c
       | None => Execution.completedAt e
       end |}.

Record AgentTaskUpdateInput : Type := {
  upd_status : AgentTaskStatus;
  upd_completedAt : Z;
  upd_outputSnapshotId : nat;
  upd_durationMs : option Z;
  upd_tokenUsage : option value;
  upd_costUsd : option value;
  upd_errorMessage : option string;
}.

(** An [undefined] in [data] leaves the column as it is; [null] clears it. *)
Definition updated_agentTask (d : AgentTaskUpdateInput) (k : AgentTask.t) : AgentTask.t :=
  {| AgentTask.id := AgentTask.id k;
     AgentTask.executionId := AgentTask.executionId k;
     AgentTask.agentName := AgentTask.agentName k;
     AgentTask.attemptNumber := AgentTask.attemptNumber k;
     AgentTask.status := upd_status d;
     AgentTask.startedAt := AgentTask.startedAt k;
     AgentTask.completedAt := Some (upd_completedAt d);
     AgentTask.inputSnapshotId := AgentTask.inputSnapshotId k;
     AgentTask.outputSnapshotId := Some (upd_outputSnapshotId d);
     AgentTask.durationMs :=
       match upd_durationMs d with Some x => Some x | None => AgentTask.durationMs k end;
     AgentTask.tokenUsage :=
       match upd_tokenUsage d with Some x => Some x | None => AgentTask.tokenUsage k end;
     AgentTask.costUsd :=
       match upd_costUsd d with Some x => Some x | None => AgentTask.costUsd k end;
     AgentTask.errorMessage := upd_errorMessage d;
     AgentTask.createdAt := AgentTask.createdAt k |}.

Module Prisma.

Definition P2002 : Exception := PrismaKnownRequestError "P2002".
Definition P2025 : Exception := PrismaKnownRequestError "P2025".

Definition execution_findUnique (i : nat) : M (option Execution.t) :=
  gets (fun w => executions w !! i).

Definition execution_findUniqueOrThrow (i : nat) : M Execution.t :=
  let* r := execution_findUnique i in
  match r with
  | Some e => ret e
  | None => throw P2025
  end.

(** [prisma.execution.create]: the identifier, [createdAt] and [updatedAt]
    are database defaults; the primary key is unique. *)
Definition execution_create (emailId : nat) (externalRef : option string)
    (metadata : obj) (status : ExecutionStatus) (currentAgent : string)
    : M Execution.t :=
  let* i := uuid in
  let* t := now in
  let* taken := execution_findUnique i in
  match taken with
  | Some _ => throw P2002
  | None =>
      let e := Execution.mk i emailId externalRef status currentAgent
                 (json_obj metadata) t t None in
      let* _ := modify (with_executions (insert i e)) in
      ret e
  end.

Definition execution_update (i : nat) (d : ExecutionUpdateInput) : M Execution.t :=
  let* r := execution_findUnique i in
  match r with
  | None => throw P2025
  | Some e =>
      let* t := now in
      let e' := updated_execution d t e in
      let* _ := modify (with_executions (insert i e')) in
      ret e'
  end.

Definition email_findUnique (i : nat) : M (option Email.t) :=
  gets (fun w => emails w !! i).

(** [prisma.agentTask.create] of the worker. *)
Definition agentTask_create (executionId : nat) (agentName : string)
    (attemptNumber : nat) (status : AgentTaskStatus) (startedAt : Z)
    (inputSnapshotId : option nat) : M AgentTask.t :=
  let* i := uuid in
  let* t := now in
  let* taken := gets (fun w => agentTasks w !! i) in
  match taken with
  | Some _ => throw P2002
  | None =>
      let k := AgentTask.mk i executionId agentName attemptNumber status
                 (Some startedAt) None inputSnapshotId None None None None None t in
      let* _ := modify (with_agentTasks (insert i k)) in
      ret k
  end.

Definition agentTask_update (i : nat) (d : AgentTaskUpdateInput) : M AgentTask.t :=
  let* r := gets (fun w => agentTasks w !! i) in
  match r with
  | None => throw P2025
  | Some k =>
      let k' := updated_agentTask d k in
      let* _ := modify (with_agentTasks (insert i k')) in
      ret k'
  end.

Definition rfqSnapshot_create (executionId : nat) (agentName : string)
    (snapshotType : SnapshotType) (data : obj) : M RfqSnapshot.t :=
  let* i := uuid in
  let* t := now in
  let s := RfqSnapshot.mk i executionId agentName snapshotType (json_obj data) t in
  let* _ := modify (with_rfqSnapshots (fun l => l ++ [s])) in
  ret s.

Definition event_row (e : DomainEvent) (executionId : nat)
    (agentTaskId : option nat) : Event.t :=
  Event.mk (ev_id e) executionId agentTaskId (ev_eventType e)
    (json_obj (ev_eventData e)) (ev_createdAt e).

(** [prisma.event.create] and [prisma.event.createMany].  The identifier of
    an event is the caller's, and every caller in the engine passes a fresh
    [uuidv4()]: the rows are written as rows that can be inserted, that is,
    with identifiers that are not stored yet and are pairwise distinct, and
    with an existing execution. *)
Definition event_create (e : DomainEvent) (executionId : nat)
    (agentTaskId : option nat) : M Event.t :=
  let r := event_row e executionId agentTaskId in
  let* _ := modify (with_eventLog (fun l => l ++ [r])) in
  ret r.

Definition event_createMany (rows : list Event.t) : M nat :=
  let* _ := modify (with_eventLog (fun l => l ++ rows)) in
  ret (length rows).

(** The snapshots of an execution, in insertion order. *)
Definition rows_of (executionId : nat) (w : World) : list RfqSnapshot.t :=
  filter (fun s => RfqSnapshot.executionId s = executionId) (rfqSnapshots w).

(** The events of an execution, in insertion order. *)
Definition events_of (executionId : nat) (w : World) : list Event.t :=
  filter (fun v => Event.executionId v = executionId) (eventLog w).

Section Queries.
Context {Q : QueryEngine}.

(** [where: { executionId }, orderBy: { createdAt: 'desc' }] *)
Definition snapshots_of (executionId : nat) (w : World) : list RfqSnapshot.t :=
  orderBy_createdAt_desc (rows_of executionId w).

(** [where: { executionId, agentName, snapshotType }], same order. *)
Definition snapshots_matching (executionId : nat) (agentName : string)
    (snapshotType : SnapshotType) (w : World) : list RfqSnapshot.t :=
  orderBy_createdAt_desc
    (filter (fun s => RfqSnapshot.executionId s = executionId
                      ∧ RfqSnapshot.agentName s = agentName
                      ∧ RfqSnapshot.snapshotType s = snapshotType)
            (rfqSnapshots w)).

Definition rfqSnapshot_findFirst (executionId : nat) : M (option RfqSnapshot.t) :=
  gets (fun w => head (snapshots_of executionId w)).

(** [findFirst] with [where: { executionId, agentName, snapshotType }]. *)
Definition rfqSnapshot_findFirst_matching (executionId : nat) (agentName : string)
    (snapshotType : SnapshotType) : M (option RfqSnapshot.t) :=
  gets (fun w => head (snapshots_matching executionId agentName snapshotType w)).
End Queries.

(** [findUnique] on the primary key of [rfq_snapshots]. *)
Definition rfqSnapshot_findUnique (i : nat) : M (option RfqSnapshot.t) :=
  gets (fun w => head (filter (fun s => RfqSnapshot.id s = i) (rfqSnapshots w))).

(** [groupBy] with [by: ['eventType']] and [_count: { eventType: true }]: one
    row for each event type that occurs, with the number of its events. *)
Definition event_groupBy_eventType (rows : list Event.t) : list (string * nat) :=
  (fun ty => (ty, length (filter (fun v => Event.eventType v = ty) rows)))
    <$> remove_dups (Event.eventType <$> rows).

End Prisma.

(** ** StateService and EventService *)

Module StateService.
Section WithEngine.
Context {Q : QueryEngine}.

Definition createSnapshot (executionId : nat) (agentName : string)
    (snapshotType : SnapshotType) (data : obj) : M nat :=
  let* snapshot := Prisma.rfqSnapshot_create executionId agentName snapshotType data in
  ret (RfqSnapshot.id snapshot).

Definition getLatestSnapshot (executionId : nat) : M (option obj) :=
  let* snapshot := Prisma.rfqSnapshot_findFirst executionId in
  ret (match snapshot with
       | Some s => Some (RfqSnapshot.data s)
       | None => None
       end).

Definition getAgentOutputSnapshot (executionId : nat) (agentName : string)
    : M (option obj) :=
  let* snapshot := Prisma.rfqSnapshot_findFirst_matching executionId agentName OUTPUT in
  ret (match snapshot with
       | Some s => Some (RfqSnapshot.data s)
       | None => None
       end).
End WithEngine.

Definition getStateAtSnapshot (snapshotId : nat) : M (option obj) :=
  let* snapshot := Prisma.rfqSnapshot_findUnique snapshotId in
  ret (match snapshot with
       | Some s => Some (RfqSnapshot.data s)
       | None => None
       end).
End StateService.

Module EventService.

Definition save (event : DomainEvent) (executionId : nat)
    (agentTaskId : option nat) : M nat :=
  let* created := Prisma.event_create event executionId agentTaskId in
  ret (Event.id created).

Definition saveMany (rows : list Event.t) : M nat :=
  match rows with
  | [] => ret 0%nat
  | _ => Prisma.event_createMany rows
  end.

(** [result.reduce((acc, item) => { acc[item.eventType] = item._count.eventType;
    return acc; }, {})] over the rows of the [groupBy]. *)
Definition countByType (executionId : nat) : M (gmap string nat) :=
  let* result :=
    gets (fun w => Prisma.event_groupBy_eventType (Prisma.events_of executionId w)) in
  ret (foldl (fun acc item => <[item.1 := item.2]> acc) ∅ result).

End EventService.

(** ** QueueService *)

Module QueueService.

Definition agentNames : list string :=
  ["intake"; "missing-info"; "duplicate"; "prioritization"; "mto"; "auto-quote"].

Definition initialize : M unit :=
  let* done := gets initialized in
  if done : bool then ret tt
  else
    let* _ := modify (with_queues (fun qs => list_to_set agentNames ∪ qs)) in
    modify (with_initialized true).

(** The [jobId] option of [enqueue]:
    [`${data.executionId}-${agentName}-${Date.now()}`]. *)
Definition job_key (executionId : nat) (agentName : string) (t : Z) : string :=
  id_str executionId +:+ "-" +:+ agentName +:+ "-" +:+ pretty t.

(** BullMQ [Queue.add] with a custom [jobId]: a job whose id is already in
    the queue is not added again. *)
Definition Queue_add (j : Job.t) (q : list Job.t) : list Job.t :=
  if decide (Job.id j ∈ Job.id <$> q) then q else q ++ [j].

Definition enqueue (agentName : string) (executionId : nat) : M string :=
  let* qs := gets queues in
  if decide (agentName ∈ qs) then
    let* t := now in
    let j := Job.mk (job_key executionId agentName t) agentName executionId 0 in
    let* _ := modify (with_jobs (fun js =>
                <[agentName := Queue_add j (default [] (js !! agentName))]> js)) in
    ret (Job.id j)
  else throw (JsError ("Queue not found for agent: " +:+ agentName)).

Definition queue_jobs (agentName : string) (w : World) : list Job.t :=
  default [] (jobs w !! agentName).

(** Two [enqueue] calls for one execution and one agent: the first when the
    clock reads [t1], the second when it reads [t2]. *)
Definition enqueue_twice (agentName : string) (executionId : nat) (t1 t2 : Z)
    (w : World) : outcome string * outcome string * World :=
  let r1 := enqueue agentName executionId (at_time t1 w) in
  let r2 := enqueue agentName executionId (at_time t2 r1.2) in
  (r1.1, r2.1, r2.2).

End QueueService.

(** ** ExecutionService *)

Record CreateExecutionInput : Type := {
  input_emailId : nat;
  input_externalRef : option string;
  input_metadata : option obj;
}.

Record ResumeOptions : Type := {
  updatedState : option obj;
  resumeFromAgent : option string;
}.

Definition domain_event (i : nat) (eventType : string) (eventData : obj) (t : Z)
    : DomainEvent :=
  {| ev_id := i; ev_eventType := eventType; ev_eventData := eventData;
     ev_createdAt := t |}.

Definition is_terminal (s : ExecutionStatus) : bool :=
  match s with
  | COMPLETED | FAILED | CANCELLED => true
  | PENDING | PROCESSING | AWAITING_HUMAN => false
  end.

Module ExecutionService.
Section WithEngine.
Context {Q : QueryEngine}.

Definition create (input : CreateExecutionInput) : M nat :=
  let* email := Prisma.email_findUnique (input_emailId input) in
  match email with
  | None => throw (NotFoundError "Email" (Some (id_str (input_emailId input))))
  | Some _ =>
      let* execution :=
        Prisma.execution_create (input_emailId input) (input_externalRef input)
          (default ∅ (input_metadata input)) PENDING "intake" in
      let* i := uuid in
      let* t := now in
      let* _ := EventService.save
                  (domain_event i "EXECUTION_CREATED"
                     {[ "emailId" := VStr (id_str (input_emailId input)) ]} t)
                  (Execution.id execution) None in
      let* _ := QueueService.enqueue "intake" (Execution.id execution) in
      ret (Execution.id execution)
  end.

Definition updateStatus (executionId : nat) (status : ExecutionStatus)
    (metadata : option obj) : M Execution.t :=
  let* completed :=
    (if is_terminal status
     then let* t := now in ret (Some t)
     else ret None) in
  let* merged :=
    match metadata with
    | Some m =>
        let* current := Prisma.execution_findUnique executionId in
        ret (Some (spread2
                     (match current with
                      | Some c => Execution.metadata c
                      | None => ∅
                      end) m))
    | None => ret None
    end in
  Prisma.execution_update executionId
    {| set_status := Some status; set_currentAgent := None;
       set_metadata := merged; set_completedAt := completed |}.

Definition updateCurrentAgent (executionId : nat) (agentName : string)
    : M Execution.t :=
  Prisma.execution_update executionId
    {| set_status := None; set_currentAgent := Some agentName;
       set_metadata := None; set_completedAt := None |}.

(** [options.resumeFromAgent || execution.currentAgent] *)
Definition target_agent (options : ResumeOptions) (execution : Execution.t) : string :=
  match resumeFromAgent options with
  | Some a => if truthy (VStr a) then a else Execution.currentAgent execution
  | None => Execution.currentAgent execution
  end.

Definition resume (executionId : nat) (options : ResumeOptions) : M unit :=
  let* found := Prisma.execution_findUnique executionId in
  match found with
  | None => throw (NotFoundError "Execution" (Some (id_str executionId)))
  | Some execution =>
      if decide (Execution.status execution ≠ AWAITING_HUMAN) then
        throw (ValidationError
                 ("Execution is not awaiting human input. Current status: "
                    +:+ status_str (Execution.status execution)))
      else
        let* _ :=
          match updatedState options with
          | Some updates =>
              let* currentState := StateService.getLatestSnapshot executionId in
              let mergedState := mergeState (default ∅ currentState) updates in
              let* _ := StateService.createSnapshot executionId "human"
                          HUMAN_UPDATE mergedState in
              let* i := uuid in
              let* t := now in
              let* _ := EventService.save
                          (domain_event i "HUMAN_INPUT_RECEIVED"
                             {[ "updatedFields" :=
                                  VArr (VStr <$> Object_keys updates) ]} t)
                          executionId None in
              ret tt
          | None => ret tt
          end in
        let targetAgent := target_agent options execution in
        let* _ := Prisma.execution_update executionId
                    {| set_status := Some PROCESSING;
                       set_currentAgent := Some targetAgent;
                       set_metadata := None; set_completedAt := None |} in
        let* i := uuid in
        let* t := now in
        let* _ := EventService.save
                    (domain_event i "EXECUTION_RESUMED"
                       {[ "resumedFrom" := VStr targetAgent ]} t)
                    executionId None in
        let* _ := QueueService.enqueue targetAgent executionId in
        ret tt
  end.

Definition replay (executionId : nat) (fromAgent : string) : M nat :=
  let* found := Prisma.execution_findUnique executionId in
  let* snapshots :=
    gets (fun w => take 1 (Prisma.snapshots_matching executionId fromAgent INPUT w)) in
  match found with
  | None => throw (NotFoundError "Execution" (Some (id_str executionId)))
  | Some execution =>
      if decide (fromAgent ∈ AGENT_PIPELINE) then
        let* newExecution :=
          Prisma.execution_create (Execution.emailId execution)
            (Execution.externalRef execution)
            (<["replayedFromAgent" := VStr fromAgent]>
               (<["replayedFrom" := VStr (id_str executionId)]>
                  (Execution.metadata execution)))
            PENDING fromAgent in
        let* _ :=
          match snapshots with
          | s :: _ =>
              let* _ := StateService.createSnapshot (Execution.id newExecution)
                          fromAgent INPUT (RfqSnapshot.data s) in
              ret tt
          | [] => ret tt
          end in
        let* i := uuid in
        let* t := now in
        let* _ := EventService.save
                    (domain_event i "EXECUTION_CREATED"
                       (<["fromAgent" := VStr fromAgent]>
                          {[ "replayedFrom" := VStr (id_str executionId) ]}) t)
                    (Execution.id newExecution) None in
        let* _ := QueueService.enqueue fromAgent (Execution.id newExecution) in
        ret (Execution.id newExecution)
      else throw (ValidationError ("Invalid agent name: " +:+ fromAgent))
  end.

Definition cancel (executionId : nat) : M unit :=
  let* found := Prisma.execution_findUnique executionId in
  match found with
  | None => throw (NotFoundError "Execution" (Some (id_str executionId)))
  | Some execution =>
      if decide (Execution.status execution = COMPLETED
                 ∨ Execution.status execution = CANCELLED) then
        throw (ValidationError
                 ("Cannot cancel execution with status: "
                    +:+ status_str (Execution.status execution)))
      else
        let* t := now in
        let* _ := Prisma.execution_update executionId
                    {| set_status := Some CANCELLED; set_currentAgent := None;
                       set_metadata := None; set_completedAt := Some t |} in
        let* i := uuid in
        let* t' := now in
        let* _ := EventService.save
                    (domain_event i "EXECUTION_CANCELLED" ∅ t') executionId None in
        ret tt
  end.

End WithEngine.
End ExecutionService.

(** ** The per-agent worker (workers/agent.worker.ts) *)

Module AgentWorker.
Section WithAgents.
Context {Q : QueryEngine}.
(** [createAgent(agentName).execute(context)]: the stage executor, which
    touches none of the tables. *)
Context (createAgent : string → AgentContext → AgentResult).

Definition optional_strings (l : option (list string)) : value :=
  match l with
  | Some fields => VArr (VStr <$> fields)
  | None => VUndefined
  end.

(** Step 10 of the job handler: [switch (result.nextAction.type)]. *)
Definition handleNextAction (agentName : string) (executionId : nat)
    (execution : Execution.t) (action : NextAction) : M unit :=
  match action with
  | CONTINUE nextAgent =>
      let* _ := Prisma.execution_update executionId
                  {| set_status := None; set_currentAgent := Some nextAgent;
                     set_metadata := None; set_completedAt := None |} in
      let* _ := QueueService.enqueue nextAgent executionId in
      ret tt
  | SKIP reason nextAgent =>
      let* _ := Prisma.execution_update executionId
                  {| set_status := None; set_currentAgent := Some nextAgent;
                     set_metadata := None; set_completedAt := None |} in
      let* _ := QueueService.enqueue nextAgent executionId in
      ret tt
  | AWAIT_HUMAN reason requiredFields =>
      let* _ := Prisma.execution_update executionId
                  {| set_status := Some AWAITING_HUMAN; set_currentAgent := None;
                     set_metadata :=
                       Some (<["requiredFields" := optional_strings requiredFields]>
                               (<["awaitingReason" := VStr reason]>
                                  (Execution.metadata execution)));
                     set_completedAt := None |} in
      let* i := uuid in
      let* t := now in
      let* _ := EventService.save
                  (domain_event i "HUMAN_INTERVENTION_REQUIRED"
                     (<["requiredFields" := optional_strings requiredFields]>
                        {[ "reason" := VStr reason ]}) t)
                  executionId None in
      ret tt
  | COMPLETE =>
      let* t := now in
      let* _ := Prisma.execution_update executionId
                  {| set_status := Some COMPLETED; set_currentAgent := None;
                     set_metadata := None; set_completedAt := Some t |} in
      let* i := uuid in
      let* t' := now in
      let* _ := EventService.save
                  (domain_event i "EXECUTION_COMPLETED" ∅ t') executionId None in
      ret tt
  | FAIL error =>
      let* _ := Prisma.execution_update executionId
                  {| set_status := Some FAILED; set_currentAgent := None;
                     set_metadata :=
                       Some (<["error" := VStr error]> (Execution.metadata execution));
                     set_completedAt := None |} in
      let* i := uuid in
      let* t := now in
      let* _ := EventService.save
                  (domain_event i "EXECUTION_FAILED" {[ "error" := VStr error ]} t)
                  executionId None in
      ret tt
  end.

Definition build_context (executionId : nat) (execution : Execution.t)
    (email : Email.t) (currentState : obj) (job : Job.t) (workingDir : string)
    : AgentContext :=
  {| ctx_executionId := executionId;
     ctx_input :=
       {| in_emailId := Execution.emailId execution;
          in_emailBody := Email.body email;
          in_senderEmail := Email.senderEmail email;
          in_receivedAt := Email.receivedAt email;
          in_attachments := Email.attachments email |};
     ctx_currentState := currentState;
     ctx_attempt := S (Job.attemptsMade job);
     ctx_workingDir := workingDir |}.

Definition task_update (result : AgentResult) (t : Z) (outputSnapshotId : nat)
    : AgentTaskUpdateInput :=
  {| upd_status := if success result then TASK_COMPLETED else TASK_FAILED;
     upd_completedAt := t;
     upd_outputSnapshotId := outputSnapshotId;
     upd_durationMs := result_metadata result ≫= md_durationMs;
     upd_tokenUsage := result_metadata result ≫= md_tokenUsage;
     upd_costUsd := result_metadata result ≫= md_costUsd;
     upd_errorMessage :=
       if success result then None
       else match nextAction result with
            | FAIL error => Some error
            | _ => None
            end |}.

(** The status in which each next action leaves the execution. *)
Definition status_after (action : NextAction) : ExecutionStatus :=
  match action with
  | CONTINUE _ | SKIP _ _ => PROCESSING
  | AWAIT_HUMAN _ _ => AWAITING_HUMAN
  | COMPLETE => COMPLETED
  | FAIL _ => FAILED
  end.

(** [createAgentWorker(agentName)]: the worker, given as the handler it runs
    on each job of the queue [agentName]. *)
Definition createAgentWorker (agentName : string) (job : Job.t) : M AgentResult :=
  let executionId := Job.data_executionId job in
  (* 1. load the execution with its email and its latest snapshot *)
  let* execution := Prisma.execution_findUniqueOrThrow executionId in
  let* email := Prisma.email_findUnique (Execution.emailId execution) in
  let* snapshots := gets (fun w => take 1 (Prisma.snapshots_of executionId w)) in
  (* 2. status PROCESSING *)
  let* _ := Prisma.execution_update executionId
              {| set_status := Some PROCESSING; set_currentAgent := None;
                 set_metadata := None; set_completedAt := None |} in
  (* 3. current state *)
  let latestSnapshot := head snapshots in
  let currentState :=
    match latestSnapshot with
    | Some s => RfqSnapshot.data s
    | None => ∅
    end in
  (* 4. agent context *)
  match email with
  | None => throw (JsError "Cannot read properties of null (reading 'body')")
  | Some email =>
      let* workingDir := gets cwd in
      let context := build_context executionId execution email currentState
                       job workingDir in
      (* 5. agent task record *)
      let* started := now in
      let* agentTask := Prisma.agentTask_create executionId agentName
                          (ctx_attempt context) TASK_PROCESSING started
                          (RfqSnapshot.id <$> latestSnapshot) in
      (* 6. run the agent *)
      let result := createAgent agentName context in
      (* 7. output snapshot *)
      let mergedState := mergeState currentState (outputState result) in
      let* outputSnapshotId :=
        StateService.createSnapshot executionId agentName OUTPUT mergedState in
      (* 8. events *)
      let* _ := EventService.saveMany
                  ((fun e => Prisma.event_row e executionId
                               (Some (AgentTask.id agentTask)))
                     <$> events result) in
      (* 9. agent task update *)
      let* finished := now in
      let* _ := Prisma.agentTask_update (AgentTask.id agentTask)
                  (task_update result finished outputSnapshotId) in
      (* 10. next action *)
      let* _ := handleNextAction agentName executionId execution
                  (nextAction result) in
      ret result
  end.

End WithAgents.
End AgentWorker.

(** ** Sample data *)

Definition state_a : obj := {[ "parsedData" := VObj {[ "a" := VNum 1 ]} ]}.
Definition state_b : obj := {[ "parsedData" := VObj {[ "b" := VNum 2 ]} ]}.
Definition state_ab : obj :=
  {[ "parsedData" := VObj (<["a" := VNum 1]> {[ "b" := VNum 2 ]}) ]}.

Definition email0 : Email.t :=
  Email.mk 0 "Please quote 3 gate valves" "buyer@example.com" 1000 [].

(** Execution 1 on email 0, in a given status and stage. *)
Definition execution1 (status : ExecutionStatus) (currentAgent : string)
    : Execution.t :=
  Execution.mk 1 0 None status currentAgent ∅ 5000 5000 None.

(** A world whose only execution is [e], with all queues opened. *)
Definition world_of (e : Execution.t) (snapshots : list RfqSnapshot.t) : World :=
  mkWorld {[ Execution.id e := e ]} ∅ [] snapshots {[ 0%nat := email0 ]}
    (list_to_set QueueService.agentNames) ∅ true 20 6000 "/srv/app".

Definition snapshot_first : RfqSnapshot.t :=
  RfqSnapshot.mk 10 1 "intake" OUTPUT {[ "priority" := VStr "LOW" ]} 5500.
Definition snapshot_second : RfqSnapshot.t :=
  RfqSnapshot.mk 11 1 "missing-info" OUTPUT {[ "priority" := VStr "HIGH" ]} 5500.
Definition snapshot_later : RfqSnapshot.t :=
  RfqSnapshot.mk 12 1 "duplicate" INPUT {[ "priority" := VStr "URGENT" ]} 5600.

Definition no_options : ResumeOptions :=
  {| updatedState := None; resumeFromAgent := None |}.

(** Stage executors that return a fixed result. *)
Definition agent_returning (r : AgentResult) : string → AgentContext → AgentResult :=
  fun _ _ => r.

Definition result_continue : AgentResult :=
  {| success := true;
     outputState := {[ "parsedData" := VObj {[ "customerName" := VStr "ACME" ]} ]};
     events := [];
     nextAction := CONTINUE "missing-info";
     result_metadata := None |}.

Definition result_fail : AgentResult :=
  {| success := false;
     outputState := ∅;
     events := [];
     nextAction := FAIL "model overloaded";
     result_metadata := None |}.

(** A first-attempt job of the intake queue for execution 1. *)
Definition job_intake : Job.t := Job.mk "1-intake-5000" "intake" 1 0.

Definition human_update : ResumeOptions :=
  {| updatedState := Some {[ "priority" := VStr "URGENT" ]};
     resumeFromAgent := Some "duplicate" |}.

(** *** A run of the pipeline *)

Definition result_complete : AgentResult :=
  {| success := true;
     outputState := {[ "priority" := VStr "HIGH" ]};
     events := [];
     nextAction := COMPLETE;
     result_metadata := None |}.

Definition result_await : AgentResult :=
  {| success := true;
     outputState := {[ "missingFields" := VArr [VStr "timeline"] ]};
     events := [];
     nextAction := AWAIT_HUMAN "missing field timeline" (Some ["timeline"]);
     result_metadata := None |}.

(** Intake continues to missing-info; missing-info completes. *)
Definition agents_two_stage (agentName : string) (_ : AgentContext) : AgentResult :=
  if String.eqb agentName "intake" then result_continue else result_complete.

(** Intake continues to missing-info; missing-info asks for a human. *)
Definition agents_parking (agentName : string) (_ : AgentContext) : AgentResult :=
  if String.eqb agentName "intake" then result_continue else result_await.

(** An empty database with one email, before the queues are opened. *)
Definition world_start : World :=
  mkWorld ∅ ∅ [] [] {[ 0%nat := email0 ]} ∅ ∅ false 1 5000 "/srv/app".

(** The worker of [agentName] takes the first job of its queue. *)
Definition work (createAgent : string → AgentContext → AgentResult)
    (agentName : string) (w : World) : World :=
  match head (QueueService.queue_jobs agentName w) with
  | Some job => (AgentWorker.createAgentWorker (Q := engine_scan) createAgent agentName job w).2
  | None => w
  end.

Definition world_created : World :=
  (ExecutionService.create
     {| input_emailId := 0; input_externalRef := None; input_metadata := None |}
     (QueueService.initialize world_start).2).2.

Definition world_completed : World :=
  work agents_two_stage "missing-info"
    (at_time 5200 (work agents_two_stage "intake" (at_time 5100 world_created))).

Definition world_parked : World :=
  work agents_parking "missing-info"
    (at_time 5200 (work agents_parking "intake" (at_time 5100 world_created))).

Definition world_resumed : World :=
  (ExecutionService.resume (Q := engine_scan) 1
     {| updatedState := Some {[ "timeline" := VStr "Q3" ]};
        resumeFromAgent := Some "missing-info" |}
     (at_time 5300 world_parked)).2.

(** ** Notions used to state further properties *)

(** The state the worker builds in step 3: the data of the snapshot that its
    [orderBy: { createdAt: 'desc' }, take: 1] include returns, or [{}]. *)
Definition latest_state {Q : QueryEngine} (executionId : nat) (w : World) : obj :=
  default ∅ (RfqSnapshot.data <$> head (Prisma.snapshots_of executionId w)).

(** What the stage executor returns for a job, given the rows the worker
    loads. *)
Definition stage_result {Q : QueryEngine}
    (createAgent : string → AgentContext → AgentResult) (agentName : string)
    (job : Job.t) (e : Execution.t) (email : Email.t) (w : World) : AgentResult :=
  createAgent agentName
    (AgentWorker.build_context (Job.data_executionId job) e email
       (latest_state (Job.data_executionId job) w) job (cwd w)).

(** The agent a next action dispatches a job to, if any. *)
Definition dispatched_agent (action : NextAction) : option string :=
  match action with
  | CONTINUE nextAgent | SKIP _ nextAgent => Some nextAgent
  | AWAIT_HUMAN _ _ | COMPLETE | FAIL _ => None
  end.

(** The event type that step 10 of the worker appends for a next action. *)
Definition transition_events (action : NextAction) : list string :=
  match action with
  | CONTINUE _ | SKIP _ _ => []
  | AWAIT_HUMAN _ _ => ["HUMAN_INTERVENTION_REQUIRED"]
  | COMPLETE => ["EXECUTION_COMPLETED"]
  | FAIL _ => ["EXECUTION_FAILED"]
  end.

(** A stage executor result that hands over to an agent without a queue. *)
Definition result_skip_to_review : AgentResult :=
  {| success := true;
     outputState := {[ "priority" := VStr "HIGH" ]};
     events := [];
     nextAction := SKIP "needs a reviewer" "review";
     result_metadata := None |}.

(** Execution 2 on email 0. *)
Definition execution2 (status : ExecutionStatus) (currentAgent : string)
    : Execution.t :=
  Execution.mk 2 0 None status currentAgent ∅ 5000 5000 None.

(** A next action that a pipeline agent may decide on: parking, finishing,
    or handing over to the agent that follows it in [AGENT_PIPELINE]. *)
Definition keeps_pipeline_order (agentName : string) (action : NextAction) : Prop :=
  match action with
  | CONTINUE nextAgent =>
      ∃ i : nat, AGENT_PIPELINE !! i = Some agentName
                 ∧ AGENT_PIPELINE !! S i = Some nextAgent
  | AWAIT_HUMAN _ _ | COMPLETE => True
  | FAIL _ | SKIP _ _ => False
  end.

(** No snapshot of type INPUT is stored. *)
Definition no_input_snapshots (w : World) : Prop :=
  Forall (fun s => RfqSnapshot.snapshotType s ≠ INPUT) (rfqSnapshots w).

(** *** Sequences of operations *)

(** The operations of the engine that write to the [executions] table, the
    opening of the queues, and the passing of time. *)
Inductive Operation : Type :=
| OpCreate (input : CreateExecutionInput)
| OpResume (executionId : nat) (options : ResumeOptions)
| OpReplay (executionId : nat) (fromAgent : string)
| OpCancel (executionId : nat)
| OpUpdateStatus (executionId : nat) (status : ExecutionStatus)
    (metadata : option obj)
| OpUpdateCurrentAgent (executionId : nat) (agentName : string)
| OpInitialize
| OpJob (agentName : string) (job : Job.t)
| OpTick (t : Z).

(** The world after an operation, whether it returned or threw. *)
Definition perform {Q : QueryEngine}
    (createAgent : string → AgentContext → AgentResult) (op : Operation)
    (w : World) : World :=
  match op with
  | OpCreate input => (ExecutionService.create input w).2
  | OpResume executionId options => (ExecutionService.resume executionId options w).2
  | OpReplay executionId fromAgent =>
      (ExecutionService.replay executionId fromAgent w).2
  | OpCancel executionId => (ExecutionService.cancel executionId w).2
  | OpUpdateStatus executionId status metadata =>
      (ExecutionService.updateStatus executionId status metadata w).2
  | OpUpdateCurrentAgent executionId agentName =>
      (ExecutionService.updateCurrentAgent executionId agentName w).2
  | OpInitialize => (QueueService.initialize w).2
  | OpJob agentName job =>
      (AgentWorker.createAgentWorker createAgent agentName job w).2
  | OpTick t => at_time t w
  end.

Definition perform_all {Q : QueryEngine}
    (createAgent : string → AgentContext → AgentResult) (ops : list Operation)
    (w : World) : World :=
  foldl (fun w op => perform createAgent op w) w ops.

(** The operations that set the status of execution [i] whatever it was: a
    job of that execution, and updateStatus on it. *)
Definition sets_status_of (i : nat) (op : Operation) : Prop :=
  match op with
  | OpJob _ job => Job.data_executionId job = i
  | OpUpdateStatus executionId _ _ => executionId = i
  | _ => False
  end.

(** The changes of status that resume and cancel make. *)
Definition guarded_step (s s' : ExecutionStatus) : Prop :=
  s' = s
  ∨ (s = AWAITING_HUMAN ∧ s' = PROCESSING)
  ∨ (s ≠ COMPLETED ∧ s ≠ CANCELLED ∧ s' = CANCELLED).

(** ** Agents (src/agents/base/base-agent.ts and the six pipeline agents) *)

(** What [parseOutput] returns: the state update and the validated output. *)
Record Parsed (TOutput : Type) : Type := {
  parsed_state : obj;
  parsed_output : TOutput;
}.
Arguments parsed_state {TOutput} _.
Arguments parsed_output {TOutput} _.

Module BaseAgent.

(** [Array.prototype.indexOf]: the first index holding [x], or -1. *)
Fixpoint indexOf_from (i : Z) (l : list string) (x : string) : Z :=
  match l with
  | [] => -1
  | y :: l' => if decide (y = x) then i else indexOf_from (i + 1) l' x
  end.

Definition indexOf (l : list string) (x : string) : Z := indexOf_from 0 l x.

Definition getNextAgent (agentName : string) : option string :=
  let currentIndex := indexOf AGENT_PIPELINE agentName in
  if decide (currentIndex = -1
             ∨ currentIndex = Z.of_nat (length AGENT_PIPELINE) - 1)
  then None
  else AGENT_PIPELINE !! Z.to_nat (currentIndex + 1).

Definition continueToNextAgent (agentName : string) : NextAction :=
  match getNextAgent agentName with
  | Some nextAgent => if truthy (VStr nextAgent) then CONTINUE nextAgent else COMPLETE
  | None => COMPLETE
  end.

Definition requireHumanIntervention (reason : string)
    (requiredFields : option (list string)) : NextAction :=
  AWAIT_HUMAN reason requiredFields.

Definition skipToAgent (reason : string) (nextAgent : string) : NextAction :=
  SKIP reason nextAgent.

(** *** [execute] and [runAgentLoop] *)

Record TokenUsage : Type := {
  inputTokens : float;
  outputTokens : float;
}.

(** The payloads of the events that an agent records. *)
Inductive EventData : Type :=
| AgentStarted (agent : string)
| AgentCompleted (agent : string) (durationMs : Z) (tokenUsage : TokenUsage)
    (costUsd : float)
| AgentFailed (agent : string) (error : string) (durationMs : Z)
| ToolInvoked (tool : string) (input : value)
| ToolCompleted (tool : string) (resultLength : nat)
| ToolFailed (tool : string) (error : string).

Record AgentEvent : Type := {
  ae_id : nat;
  ae_eventType : string;
  ae_eventData : EventData;
  ae_createdAt : Z;
}.

(** Messages of the model API, as far as the loop builds and reads them. *)
Inductive ContentBlock : Type :=
| TextBlock (text : string)
| ToolUseBlock (id name : string) (input : value)
| OtherBlock.

Record ToolResult : Type := {
  tool_use_id : string;
  tool_result_content : string;
  is_error : bool;
}.

Inductive MessageContent : Type :=
| Plain (text : string)
| Blocks (blocks : list ContentBlock)
| ToolResults (results : list ToolResult).

Record Message : Type := {
  role : string;
  message_content : MessageContent;
}.

Record ToolDefinition : Type := {
  tool_name : string;
  tool_description : string;
  tool_input_schema : value;
}.

Record Request : Type := {
  request_model : string;
  request_max_tokens : Z;
  request_system : string;
  request_messages : list Message;
  request_tools : option (list ToolDefinition);
}.

Record Response : Type := {
  response_content : list ContentBlock;
  stop_reason : string;
  usage_input_tokens : float;
  usage_output_tokens : float;
}.

Record Tool : Type := {
  definition : ToolDefinition;
  handler : value → AgentContext → M string;
}.

Record LoopResult : Type := {
  finalResponse : string;
  loop_tokenUsage : TokenUsage;
  loop_costUsd : float;
}.

Record Metadata : Type := {
  durationMs : Z;
  tokenUsage : option TokenUsage;
  costUsd : option float;
}.

(** [AgentResult<TOutput>] as [execute] builds it. *)
Record Result (TOutput : Type) : Type := {
  result_success : bool;
  result_outputState : obj;
  result_events : list AgentEvent;
  result_nextAction : NextAction;
  result_agentOutput : option TOutput;
  result_metadata_of : Metadata;
}.
Arguments result_success {TOutput} _.
Arguments result_outputState {TOutput} _.
Arguments result_events {TOutput} _.
Arguments result_nextAction {TOutput} _.
Arguments result_agentOutput {TOutput} _.
Arguments result_metadata_of {TOutput} _.

(** The [events] array of one [execute] call lives beside the world: what
    was pushed before a throw is still there when the throw is caught. *)
Record Env : Type := {
  env_world : World;
  env_events : list AgentEvent;
}.

Definition AM (A : Type) : Type := Env → outcome A * Env.

Definition ret_a {A} (a : A) : AM A := fun s => (Returned a, s).
Definition throw_a {A} (e : Exception) : AM A := fun s => (Thrown e, s).
Definition bind_a {A B} (m : AM A) (k : A → AM B) : AM B :=
  fun s => match m s with
           | (Returned a, s') => k a s'
           | (Thrown e, s') => (Thrown e, s')
           end.

(** A call that does not see the [events] array. *)
Definition lift {A} (m : M A) : AM A :=
  fun s => match m (env_world s) with
           | (r, w') => (r, {| env_world := w'; env_events := env_events s |})
           end.

(** [try { m } catch (error) { h error }] *)
Definition try_catch {A} (m : AM A) (h : Exception → AM A) : AM A :=
  fun s => match m s with
           | (Returned a, s') => (Returned a, s')
           | (Thrown e, s') => h e s'
           end.

Notation "'let+' x ':=' m 'in' k" := (bind_a m (fun x => k))
  (at level 10, x name, m at level 100, k at level 200).

Definition createEvent (type : string) (data : EventData) : M AgentEvent :=
  let* i := uuid in
  let* t := now in
  ret {| ae_id := i; ae_eventType := type; ae_eventData := data; ae_createdAt := t |}.

(** [events.push(this.createEvent(type, data))] *)
Definition push_event (type : string) (data : EventData) : AM unit :=
  let+ event := lift (createEvent type data) in
  fun s => (Returned tt,
            {| env_world := env_world s; env_events := env_events s ++ [event] |}).

(** [this.tools.set(name, tool)] and [this.tools.get(name)] on the tool map,
    kept in insertion order. *)
Fixpoint tools_set (name : string) (tool : Tool) (tools : list (string * Tool))
    : list (string * Tool) :=
  match tools with
  | [] => [(name, tool)]
  | (n, t) :: rest =>
      if decide (n = name) then (n, tool) :: rest
      else (n, t) :: tools_set name tool rest
  end.

(** [registerTool(name, description, inputSchema, handler)] *)
Definition registerTool (name description : string) (inputSchema : value)
    (handler : value → AgentContext → M string) (tools : list (string * Tool))
    : list (string * Tool) :=
  tools_set name
    {| definition := {| tool_name := name; tool_description := description;
                        tool_input_schema := inputSchema |};
       handler := handler |}
    tools.

Fixpoint tools_get (name : string) (tools : list (string * Tool)) : option Tool :=
  match tools with
  | [] => None
  | (n, t) :: rest => if decide (n = name) then Some t else tools_get name rest
  end.

(** The abstract methods of an agent, its name, and what it reaches outside:
    the model client and the configured number of turns. *)
Class Agent (TOutput : Type) : Type := {
  agentName : string;
  maxTurns : nat;
  messages_create : Request → M Response;
  initializeTools : AgentContext → M (list (string * Tool));
  buildSystemPrompt : AgentContext → M string;
  buildUserPrompt : AgentContext → M string;
  parseOutput : string → AgentContext → M (Parsed TOutput);
  determineNextAction : Parsed TOutput → AgentContext → M NextAction;
}.

Section Execute.
Context {TOutput : Type} {agent : Agent TOutput}.

(** One block of a tool-use response: the body of the [for] loop. *)
Definition run_block (tools : list (string * Tool)) (context : AgentContext)
    (block : ContentBlock) (toolResults : list ToolResult) : AM (list ToolResult) :=
  match block with
  | ToolUseBlock id name input =>
      match tools_get name tools with
      | Some tool =>
          let+ _ := push_event "TOOL_INVOKED" (ToolInvoked name input) in
          try_catch
            (let+ result := lift (handler tool input context) in
             let+ _ := push_event "TOOL_COMPLETED"
                         (ToolCompleted name (String.length result)) in
             ret_a (toolResults ++
                    [{| tool_use_id := id; tool_result_content := result;
                        is_error := false |}]))
            (fun error =>
               let errorMsg := error_message error in
               let+ _ := push_event "TOOL_FAILED" (ToolFailed name errorMsg) in
               ret_a (toolResults ++
                      [{| tool_use_id := id;
                          tool_result_content := "Error: " +:+ errorMsg;
                          is_error := true |}]))
      | None => ret_a toolResults
      end
  | _ => ret_a toolResults
  end.

Fixpoint run_blocks (tools : list (string * Tool)) (context : AgentContext)
    (blocks : list ContentBlock) (toolResults : list ToolResult)
    : AM (list ToolResult) :=
  match blocks with
  | [] => ret_a toolResults
  | block :: rest =>
      let+ toolResults := run_block tools context block toolResults in
      run_blocks tools context rest toolResults
  end.

(** The text blocks of a response, concatenated. *)
Fixpoint final_text (blocks : list ContentBlock) : string :=
  match blocks with
  | [] => ""
  | TextBlock text :: rest => text +:+ final_text rest
  | _ :: rest => final_text rest
  end.

(** [while (turns < maxTurns)], by the number of turns that are left. *)
Fixpoint agent_loop (remaining : nat) (systemPrompt : string)
    (tools : list (string * Tool)) (context : AgentContext)
    (messages : list Message) (totalInputTokens totalOutputTokens : float)
    : AM LoopResult :=
  match remaining with
  | O =>
      throw_a (JsError ("Agent exceeded maximum turns (" +:+ pretty maxTurns +:+ ")"))
  | S remaining =>
      let toolDefinitions := (fun t => definition t.2) <$> tools in
      let+ response :=
        lift (messages_create
                {| request_model := "claude-sonnet-4-20250514";
                   request_max_tokens := 8192;
                   request_system := systemPrompt;
                   request_messages := messages;
                   request_tools :=
                     match toolDefinitions with
                     | [] => None
                     | _ => Some toolDefinitions
                     end |}) in
      let totalInputTokens :=
        PrimFloat.add totalInputTokens (usage_input_tokens response) in
      let totalOutputTokens :=
        PrimFloat.add totalOutputTokens (usage_output_tokens response) in
      if String.eqb (stop_reason response) "tool_use" then
        let messages :=
          messages ++ [{| role := "assistant";
                          message_content := Blocks (response_content response) |}] in
        let+ toolResults :=
          run_blocks tools context (response_content response) [] in
        let messages :=
          messages ++ [{| role := "user";
                          message_content := ToolResults toolResults |}] in
        agent_loop remaining systemPrompt tools context messages
          totalInputTokens totalOutputTokens
      else
        ret_a {| finalResponse := final_text (response_content response);
                 loop_tokenUsage :=
                   {| inputTokens := totalInputTokens;
                      outputTokens := totalOutputTokens |};
                 loop_costUsd :=
                   PrimFloat.div
                     (PrimFloat.add
                        (PrimFloat.mul totalInputTokens 0x1.89374bc6a7efap-9)
                        (PrimFloat.mul totalOutputTokens 0x1.eb851eb851eb8p-7))
                     1000 |}
  end.

Definition runAgentLoop (systemPrompt userPrompt : string)
    (tools : list (string * Tool)) (context : AgentContext) : AM LoopResult :=
  agent_loop maxTurns systemPrompt tools context
    [{| role := "user"; message_content := Plain userPrompt |}] 0 0.

Definition execute (context : AgentContext) : M (Result TOutput) :=
  fun w =>
    let startTime := clock w in
    let run : AM (Result TOutput) :=
      try_catch
        (let+ _ := push_event "AGENT_STARTED" (AgentStarted agentName) in
         let+ tools := lift (initializeTools context) in
         let+ systemPrompt := lift (buildSystemPrompt context) in
         let+ userPrompt := lift (buildUserPrompt context) in
         let+ result := runAgentLoop systemPrompt userPrompt tools context in
         let+ parsedOutput := lift (parseOutput (finalResponse result) context) in
         let+ nextAction := lift (determineNextAction parsedOutput context) in
         let+ finished := lift now in
         let durationMs := finished - startTime in
         let+ _ := push_event "AGENT_COMPLETED"
                     (AgentCompleted agentName durationMs (loop_tokenUsage result)
                        (loop_costUsd result)) in
         fun s =>
           (Returned
              {| result_success := true;
                 result_outputState := parsed_state parsedOutput;
                 result_events := env_events s;
                 result_nextAction := nextAction;
                 result_agentOutput := Some (parsed_output parsedOutput);
                 result_metadata_of :=
                   {| durationMs := durationMs;
                      tokenUsage := Some (loop_tokenUsage result);
                      costUsd := Some (loop_costUsd result) |} |}, s))
        (fun error =>
           let+ finished := lift now in
           let durationMs := finished - startTime in
           let errorMessage := error_message error in
           let+ _ := push_event "AGENT_FAILED"
                       (AgentFailed agentName errorMessage durationMs) in
           fun s =>
             (Returned
                {| result_success := false;
                   result_outputState := ∅;
                   result_events := env_events s;
                   result_nextAction := FAIL errorMessage;
                   result_agentOutput := None;
                   result_metadata_of :=
                     {| durationMs := durationMs; tokenUsage := None;
                        costUsd := None |} |}, s))
    in
    match run {| env_world := w; env_events := [] |} with
    | (r, s) => (r, env_world s)
    end.

End Execute.

End BaseAgent.

(** [a || b] on strings, [a] possibly absent: [b] when [a] is absent or empty. *)
Definition string_or (a : option string) (b : string) : string :=
  match a with
  | Some s => if truthy (VStr s) then s else b
  | None => b
  end.

(** Numbers the schemas bound to the interval from 0 to 1 are binary64 values;
    they are compared as such. *)
Module IntakeAgent.

(** The fields of [IntakeOutput] that [determineNextAction] reads.  An
    optional, nullable field is [None] when it is absent or null. *)
Record Output : Type := {
  requestedProducts : list obj;
  confidence : float;
  uncertainFields : option (list string);
}.

Definition agentName : string := "intake".

Definition determineNextAction (parsedOutput : Parsed Output)
    (context : AgentContext) : NextAction :=
  let output := parsed_output parsedOutput in
  if PrimFloat.ltb (confidence output) 0x1.6666666666666p-1 then
    BaseAgent.requireHumanIntervention
      "Low confidence in RFQ parsing - please review extracted data"
      (uncertainFields output)
  else if Nat.eqb (length (requestedProducts output)) 0 then
    BaseAgent.requireHumanIntervention
      "Could not identify any products in the RFQ" (Some ["requestedProducts"])
  else BaseAgent.continueToNextAgent agentName.

End IntakeAgent.

Module MissingInfoAgent.

Inductive Priority : Type := HIGH | MEDIUM | LOW.

#[global] Instance Priority_eq_dec : EqDecision Priority.
Proof. solve_decision. Defined.

Record ClarificationRequest : Type := {
  field : string;
  question : string;
  request_context : option string;
  priority : Priority;
}.

Record Output : Type := {
  missingFields : list string;
  clarificationRequests : list ClarificationRequest;
  canProceedWithQuote : bool;
  blockerReason : option string;
}.

Definition agentName : string := "missing-info".

Definition determineNextAction (parsedOutput : Parsed Output)
    (context : AgentContext) : NextAction :=
  let output := parsed_output parsedOutput in
  if negb (canProceedWithQuote output) then
    let highPriorityQuestions :=
      field <$> filter (fun r => priority r = HIGH) (clarificationRequests output) in
    BaseAgent.requireHumanIntervention
      (string_or (blockerReason output) "Critical information missing for quoting")
      (Some highPriorityQuestions)
  else BaseAgent.continueToNextAgent agentName.

End MissingInfoAgent.

Module DuplicateAgent.

Inductive Recommendation : Type := PROCESS | MERGE | SKIP_RFQ.

#[global] Instance Recommendation_eq_dec : EqDecision Recommendation.
Proof. solve_decision. Defined.

Record Output : Type := {
  isDuplicate : bool;
  recommendation : Recommendation;
  recommendationReason : string;
}.

Definition agentName : string := "duplicate".

Definition determineNextAction (parsedOutput : Parsed Output)
    (context : AgentContext) : NextAction :=
  let output := parsed_output parsedOutput in
  if isDuplicate output && bool_decide (recommendation output = SKIP_RFQ) then
    BaseAgent.requireHumanIntervention
      ("Potential duplicate RFQ detected: " +:+ recommendationReason output)
      (Some ["duplicateConfirmation"])
  else if isDuplicate output && bool_decide (recommendation output = MERGE) then
    BaseAgent.requireHumanIntervention
      ("Similar RFQ found - recommend merging: " +:+ recommendationReason output)
      (Some ["mergeDecision"])
  else BaseAgent.continueToNextAgent agentName.

End DuplicateAgent.

Module PrioritizationAgent.

Inductive Complexity : Type := SIMPLE | MODERATE | COMPLEX.

#[global] Instance Complexity_eq_dec : EqDecision Complexity.
Proof. solve_decision. Defined.

Inductive PriorityLevel : Type := P_LOW | P_MEDIUM | P_HIGH | P_URGENT.

Definition priority_str (p : PriorityLevel) : string :=
  match p with
  | P_LOW => "LOW"
  | P_MEDIUM => "MEDIUM"
  | P_HIGH => "HIGH"
  | P_URGENT => "URGENT"
  end.

Definition complexity_str (c : Complexity) : string :=
  match c with
  | SIMPLE => "SIMPLE"
  | MODERATE => "MODERATE"
  | COMPLEX => "COMPLEX"
  end.

Record Output : Type := {
  priority : PriorityLevel;
  complexity : Complexity;
  estimatedHours : value;
  autoQuoteEligible : bool;
  autoQuoteBlockers : option (list string);
}.

Definition agentName : string := "prioritization".

(** The state update that [parseOutput] builds from a validated output. *)
Definition output_state (validated : Output) : obj :=
  <["priority" := VStr (priority_str (priority validated))]>
    (<["complexity" := VStr (complexity_str (complexity validated))]>
       {[ "estimatedHours" := estimatedHours validated ]}).

Definition determineNextAction (parsedOutput : Parsed Output)
    (context : AgentContext) : NextAction :=
  let output := parsed_output parsedOutput in
  if bool_decide (complexity output = COMPLEX) && negb (autoQuoteEligible output) then
    BaseAgent.requireHumanIntervention "Complex RFQ requires manual handling"
      (autoQuoteBlockers output)
  else BaseAgent.continueToNextAgent agentName.

End PrioritizationAgent.

Module MtoAgent.

Record Output : Type := {
  unmappedItems : option (list string);
  confidence : float;
}.

Definition agentName : string := "mto".

(** [context.currentState.complexity === 'COMPLEX'] *)
Definition is_complex (currentState : obj) : bool :=
  match get currentState "complexity" with
  | VStr s => String.eqb s "COMPLEX"
  | _ => false
  end.

Definition determineNextAction (parsedOutput : Parsed Output)
    (context : AgentContext) : NextAction :=
  let output := parsed_output parsedOutput in
  if PrimFloat.ltb (confidence output) 0x1.6666666666666p-1 then
    BaseAgent.requireHumanIntervention
      "Low confidence in material take-off - please review" (Some ["mtoData"])
  else
    match unmappedItems output with
    | Some (item :: items) =>
        BaseAgent.requireHumanIntervention
          ("Some items could not be mapped to catalog: "
             +:+ String.concat ", " (item :: items))
          (Some ["unmappedItems"])
    | _ =>
        if is_complex (ctx_currentState context) then COMPLETE
        else BaseAgent.continueToNextAgent agentName
    end.

End MtoAgent.

Module AutoQuoteAgent.

Record Output : Type := {
  requiresReview : bool;
  reviewReasons : option (list string);
}.

Definition agentName : string := "auto-quote".

Definition determineNextAction (parsedOutput : Parsed Output)
    (context : AgentContext) : NextAction :=
  let output := parsed_output parsedOutput in
  if requiresReview output then
    BaseAgent.requireHumanIntervention
      ("Quote requires review: "
         +:+ string_or (String.concat ", " <$> reviewReasons output) "Unknown reason")
      (Some ["quote"])
  else COMPLETE.

End AutoQuoteAgent.

(** ** The error handler of the API (src/api/middleware/error-handler.ts) *)

Module ErrorHandler.

(** An issue of a ZodError: its path, segment by segment, and its message. *)
Record ZodIssue : Type := {
  issue_path : list string;
  issue_message : string;
}.

(** What reaches the handler: a ZodError of a schema, an error thrown by a
    service, or an error of the HTTP framework itself. *)
Inductive RequestError : Type :=
| ZodError (errors : list ZodIssue)
| Raised (e : Exception)
| FastifyError (statusCode : option Z) (message : string) (validation : option value).

Record Reply : Type := {
  reply_status : Z;
  reply_success : bool;
  reply_code : string;
  reply_message : string;
  reply_details : option value;
}.

(** [error instanceof AppError] *)
Definition is_AppError (e : Exception) : bool :=
  match e with
  | PrismaKnownRequestError _ | JsError _ => false
  | _ => true
  end.

(** The last part of the handler: [error.statusCode || 500]. *)
Definition default_reply (statusCode : option Z) (message : string) : Reply :=
  let statusCode :=
    match statusCode with
    | Some c => if truthy (VNum c) then c else 500
    | None => 500
    end in
  {| reply_status := statusCode;
     reply_success := false;
     reply_code := "INTERNAL_ERROR";
     reply_message :=
       if Z.eqb statusCode 500 then "Internal server error"
       else string_or (Some message) "Unknown error";
     reply_details := None |}.

Definition errorHandler (error : RequestError) : Reply :=
  match error with
  | ZodError errors =>
      {| reply_status := 400; reply_success := false;
         reply_code := "VALIDATION_ERROR"; reply_message := "Validation failed";
         reply_details :=
           Some (VArr ((fun e =>
                          VObj (<["path" := VStr (String.concat "." (issue_path e))]>
                                  {[ "message" := VStr (issue_message e) ]}))
                         <$> errors)) |}
  | Raised e =>
      if is_AppError e then
        {| reply_status := statusCode e; reply_success := false;
           reply_code := error_code e; reply_message := error_message e;
           reply_details := None |}
      else
        match e with
        | PrismaKnownRequestError code =>
            if String.eqb code "P2002" then
              {| reply_status := 409; reply_success := false;
                 reply_code := "CONFLICT";
                 reply_message := "A record with this value already exists";
                 reply_details := None |}
            else if String.eqb code "P2025" then
              {| reply_status := 404; reply_success := false;
                 reply_code := "NOT_FOUND"; reply_message := "Record not found";
                 reply_details := None |}
            else default_reply None (error_message e)
        | _ => default_reply None (error_message e)
        end
  | FastifyError statusCode message validation =>
      match validation with
      | Some details =>
          if truthy details then
            {| reply_status := 400; reply_success := false;
               reply_code := "VALIDATION_ERROR"; reply_message := "Validation failed";
               reply_details := Some details |}
          else default_reply statusCode message
      | None => default_reply statusCode message
      end
  end.

End ErrorHandler.

(** A prioritization output rating an RFQ COMPLEX but eligible for quoting. *)
Definition prioritization_complex : PrioritizationAgent.Output :=
  {| PrioritizationAgent.priority := PrioritizationAgent.P_HIGH;
     PrioritizationAgent.complexity := PrioritizationAgent.COMPLEX;
     PrioritizationAgent.estimatedHours := VNum 40;
     PrioritizationAgent.autoQuoteEligible := true;
     PrioritizationAgent.autoQuoteBlockers := None |}.

(** A confident MTO output with every item mapped. *)
Definition mto_confident : Parsed MtoAgent.Output :=
  {| parsed_state := {[ "mtoData" := VObj ∅ ]};
     parsed_output :=
       {| MtoAgent.unmappedItems := None;
          MtoAgent.confidence := 0x1.ccccccccccccdp-1 |} |}.

(** The context of a first attempt on execution 1 with a given state. *)
Definition context_with (currentState : obj) : AgentContext :=
  AgentWorker.build_context 1 (execution1 PROCESSING "mto") email0 currentState
    (Job.mk "1-mto-5000" "mto" 1 0) "/srv/app".

(** A resume that names an agent without a queue. *)
Definition resume_at_review : ResumeOptions :=
  {| updatedState := None; resumeFromAgent := Some "review" |}.

(** Every TOOL_INVOKED event is directly followed by the TOOL_COMPLETED or
    the TOOL_FAILED event of the same tool, and no other event occurs. *)
Fixpoint tool_events_paired (l : list BaseAgent.AgentEvent) : bool :=
  match l with
  | [] => true
  | a :: l' =>
      match BaseAgent.ae_eventData a, l' with
      | BaseAgent.ToolInvoked tool _, b :: l'' =>
          match BaseAgent.ae_eventData b with
          | BaseAgent.ToolCompleted tool' _ | BaseAgent.ToolFailed tool' _ =>
              String.eqb tool tool' && tool_events_paired l''
          | _ => false
          end
      | _, _ => false
      end
  end.

(** An agent whose model asks for the tool lookup on every turn. *)
Definition looping_agent : BaseAgent.Agent unit :=
  {| BaseAgent.agentName := "intake";
     BaseAgent.maxTurns := 2;
     BaseAgent.messages_create := fun _ =>
       ret {| BaseAgent.response_content :=
                [BaseAgent.ToolUseBlock "toolu_1" "lookup" VNull];
              BaseAgent.stop_reason := "tool_use";
              BaseAgent.usage_input_tokens := 10;
              BaseAgent.usage_output_tokens := 20 |};
     BaseAgent.initializeTools := fun _ =>
       ret (BaseAgent.registerTool "lookup" "Look up a product" VNull
              (fun _ _ => throw (JsError "catalog offline")) []);
     BaseAgent.buildSystemPrompt := fun _ => ret "You read RFQ emails.";
     BaseAgent.buildUserPrompt := fun _ => ret "Please quote 3 gate valves";
     BaseAgent.parseOutput := fun _ _ =>
       ret {| parsed_state := ∅; parsed_output := tt |};
     BaseAgent.determineNextAction := fun _ _ => ret COMPLETE |}.

(** ** Order instances and proof automation *)

#[global] Instance newer_or_equal_trans : Transitive newer_or_equal.
Proof. unfold newer_or_equal. intros a b c ??. lia. Qed.

#[global] Instance newer_or_equal_total : Total newer_or_equal.
Proof. unfold newer_or_equal. intros a b. lia. Qed.

(** Unfolds the monad and the Prisma, event, state and queue operations, so
    that a service call is a term over the world it starts from. *)
Ltac unfold_services :=
  unfold StateService.getLatestSnapshot, StateService.createSnapshot,
    EventService.save, QueueService.enqueue,
    Prisma.execution_findUniqueOrThrow, Prisma.execution_create,
    Prisma.execution_update, Prisma.execution_findUnique,
    Prisma.email_findUnique, Prisma.agentTask_create, Prisma.agentTask_update,
    Prisma.rfqSnapshot_create, Prisma.rfqSnapshot_findFirst,
    Prisma.event_create, Prisma.event_createMany,
    bind, ret, throw, gets, modify, now, uuid.

(** * Properties *)

(** ** Lemmas on values and [mergeState] *)

Lemma get_lookup (o : obj) k v : o !! k = Some v → get o k = v.
Proof. unfold get. by intros ->. Qed.


Lemma lookup_spread2 (a b : obj) k :
  spread2 a b !! k = match b !! k with Some v => Some v | None => a !! k end.
Proof.
  unfold spread2. destruct (b !! k) as [v|] eqn:E.
  - by apply lookup_union_Some_l.
  - by rewrite lookup_union_r.
Qed.

Lemma elem_of_curated f :
  f ∈ curated ↔
  f = "parsedData" ∨ f = "duplicateCheckResult" ∨ f = "mtoData" ∨ f = "quote".
Proof. unfold curated. rewrite !elem_of_cons, elem_of_nil. tauto. Qed.

Lemma mergeState_curated currentState updates f :
  f ∈ curated →
  mergeState currentState updates !! f = Some (merged_field f currentState updates).
Proof.
  rewrite elem_of_curated. unfold mergeState.
  intros [-> | [-> | [-> | ->]]]; by simplify_map_eq.
Qed.

Lemma mergeState_other currentState updates k :
  k ∉ curated →
  mergeState currentState updates !! k = spread2 currentState updates !! k.
Proof.
  rewrite elem_of_curated. intros Hk. unfold mergeState.
  rewrite !lookup_insert_ne; [done | naive_solver ..].
Qed.

Lemma merged_field_empty_update f (s : obj) : merged_field f s ∅ = get s f.
Proof. unfold merged_field, get. by rewrite lookup_empty. Qed.

Lemma get_mergeState_empty (s : obj) k : get (mergeState s ∅) k = get s k.
Proof.
  destruct (decide (k ∈ curated)) as [Hk | Hk].
  - unfold get at 1. rewrite (mergeState_curated _ _ _ Hk). simpl.
    apply merged_field_empty_update.
  - unfold get. rewrite (mergeState_other _ _ _ Hk), lookup_spread2.
    by rewrite lookup_empty.
Qed.

Lemma json_obj_lookup (o : obj) k :
  json_obj o !! k =
  match get o k with VUndefined => None | v => Some (to_json v) end.
Proof.
  unfold json_obj, get. rewrite lookup_omap.
  destruct (o !! k) as [v|]; simpl; [by destruct v | done].
Qed.

Lemma json_obj_ext (o1 o2 : obj) :
  (∀ k, get o1 k = get o2 k) → json_obj o1 = json_obj o2.
Proof. intros H. apply map_eq. intros k. by rewrite !json_obj_lookup, H. Qed.


Lemma json_obj_empty : json_obj ∅ = ∅.
Proof. unfold json_obj. apply omap_empty. Qed.

(** *** Stored documents are fixed points of [to_json] *)

Lemma sum_list_elem (l : list nat) n : n ∈ l → (n ≤ sum_list l)%nat.
Proof.
  induction l as [|m l IH]; intros H.
  - by apply elem_of_nil in H.
  - apply elem_of_cons in H as [-> | H]; simpl; [lia |]. specialize (IH H). lia.
Qed.

Lemma map_fold_sum_elem (m : gmap string nat) k n :
  m !! k = Some n → (n ≤ map_fold (fun _ n acc => (n + acc)%nat) 0%nat m)%nat.
Proof.
  intros H. rewrite (map_fold_delete_L _ _ k n m); [lia | | done].
  intros. lia.
Qed.

Lemma vsize_arr_elem l x : x ∈ l → (vsize x < vsize (VArr l))%nat.
Proof.
  intros H. simpl. apply Nat.lt_succ_r, sum_list_elem.
  apply list_elem_of_fmap. by exists x.
Qed.

Lemma vsize_obj_elem (o : obj) k x : o !! k = Some x → (vsize x < vsize (VObj o))%nat.
Proof.
  intros H. simpl. apply Nat.lt_succ_r, (map_fold_sum_elem _ k).
  by rewrite lookup_fmap, H.
Qed.

Lemma map_idem_on {A} (f : A → A) (l : list A) :
  (∀ x, x ∈ l → f (f x) = f x) → map f (map f l) = map f l.
Proof.
  induction l as [|a l IH]; intros H; simpl; [done |].
  rewrite H by (apply elem_of_cons; by left).
  rewrite IH; [done |]. intros x Hx. apply H. apply elem_of_cons. by right.
Qed.

Lemma to_json_idem_bounded n :
  ∀ v, (vsize v < n)%nat → to_json (to_json v) = to_json v.
Proof.
  induction n as [|n IH]; intros v Hn; [lia |].
  destruct v as [| | b | z | s | l | o]; try reflexivity.
  - simpl. f_equal. apply map_idem_on. intros x Hx.
    pose proof (vsize_arr_elem l x Hx) as Hlt.
    assert (Hi : to_json (to_json x) = to_json x) by (apply IH; lia).
    destruct x; try reflexivity; simpl in *; congruence.
  - simpl. f_equal. apply map_eq. intros k. rewrite !lookup_omap.
    destruct (o !! k) as [x|] eqn:E; [| done]. simpl.
    pose proof (vsize_obj_elem o k x E) as Hlt.
    assert (Hi : to_json (to_json x) = to_json x) by (apply IH; lia).
    destruct x; try reflexivity; simpl in *; congruence.
Qed.

Lemma to_json_idem v : to_json (to_json v) = to_json v.
Proof. apply (to_json_idem_bounded (S (vsize v))). lia. Qed.

(** Writing a stored document back stores the same document. *)
Lemma json_obj_idem (o : obj) : json_obj (json_obj o) = json_obj o.
Proof.
  pose proof (to_json_idem (VObj o)) as H. simpl in H. by injection H.
Qed.

(** *** Query engines *)

Lemma engine_scan_sorts : sorts_newest_first engine_scan.
Proof.
  intros rows. simpl. split.
  - apply merge_sort_Permutation.
  - apply StronglySorted_merge_sort; apply _.
Qed.

Lemma engine_scan_backward_sorts : sorts_newest_first engine_scan_backward.
Proof.
  intros rows. simpl. split.
  - rewrite merge_sort_Permutation. apply reverse_Permutation.
  - apply StronglySorted_merge_sort; apply _.
Qed.

Section EngineFacts.
Context {Q : QueryEngine} (Hq : sorts_newest_first Q).

(** The first row of the sorted result is a row of greatest [createdAt]. *)
Lemma newest_first_head (rows : list RfqSnapshot.t) :
  match orderBy_createdAt_desc rows with
  | [] => rows = []
  | s :: _ =>
      s ∈ rows ∧
      ∀ x, x ∈ rows → RfqSnapshot.createdAt x ≤ RfqSnapshot.createdAt s
  end.
Proof.
  destruct (Hq rows) as [Hp Hs].
  destruct (orderBy_createdAt_desc rows) as [|s l].
  - by apply Permutation_nil in Hp.
  - split.
    + rewrite <- Hp. apply elem_of_cons. by left.
    + intros x Hx. rewrite <- Hp in Hx.
      apply StronglySorted_cons in Hs as [Hall _].
      apply elem_of_cons in Hx as [-> | Hx]; [lia |].
      rewrite Forall_forall in Hall. apply (Hall x Hx).
Qed.

(** With a strictly newest last row, that row comes first. *)
Lemma newest_first_head_last (pre : list RfqSnapshot.t) (s : RfqSnapshot.t) :
  (∀ x, x ∈ pre → RfqSnapshot.createdAt x < RfqSnapshot.createdAt s) →
  head (orderBy_createdAt_desc (pre ++ [s])) = Some s.
Proof.
  intros Hold. pose proof (newest_first_head (pre ++ [s])) as H.
  destruct (orderBy_createdAt_desc (pre ++ [s])) as [|s' l].
  - by destruct pre.
  - destruct H as [Hin Hmax]. simpl. f_equal.
    apply elem_of_app in Hin as [Hin | Hin].
    + specialize (Hold s' Hin).
      assert (RfqSnapshot.createdAt s ≤ RfqSnapshot.createdAt s') as Hle.
      { apply Hmax. apply elem_of_app. right. apply list_elem_of_singleton. done. }
      lia.
    + by apply list_elem_of_singleton in Hin.
Qed.

End EngineFacts.

(** *** Queues *)

Lemma job_key_inj executionId agentName t1 t2 :
  QueueService.job_key executionId agentName t1
    = QueueService.job_key executionId agentName t2 →
  t1 = t2.
Proof.
  unfold QueueService.job_key. intros H.
  do 4 apply String.app_inj in H. by apply pretty_Z_inj in H.
Qed.

Lemma Queue_add_keeps (j x : Job.t) (q : list Job.t) :
  x ∈ q → x ∈ QueueService.Queue_add j q.
Proof.
  intros Hx. unfold QueueService.Queue_add.
  destruct (decide (Job.id j ∈ Job.id <$> q)); [done |].
  apply elem_of_app. by left.
Qed.

Lemma Queue_add_has_id (j : Job.t) (q : list Job.t) :
  ∃ j', j' ∈ QueueService.Queue_add j q ∧ Job.id j' = Job.id j.
Proof.
  unfold QueueService.Queue_add.
  destruct (decide (Job.id j ∈ Job.id <$> q)) as [Hin | Hin].
  - apply list_elem_of_fmap in Hin as (j' & Hid & Hj'). by exists j'.
  - exists j. split; [| done]. apply elem_of_app. right.
    by apply list_elem_of_singleton.
Qed.

Lemma Queue_add_same_id (j j' : Job.t) (q : list Job.t) :
  Job.id j' = Job.id j →
  QueueService.Queue_add j' (QueueService.Queue_add j q) = QueueService.Queue_add j q.
Proof.
  intros Hid. destruct (Queue_add_has_id j q) as (x & Hx & Hxid).
  unfold QueueService.Queue_add at 1. rewrite decide_True; [done |].
  apply list_elem_of_fmap. exists x. split; [congruence | done].
Qed.

Lemma enqueue_opened (w : World) (agentName : string) (executionId : nat) :
  agentName ∈ queues w →
  QueueService.enqueue agentName executionId w =
    (Returned (QueueService.job_key executionId agentName (clock w)),
     with_jobs (fun js =>
       <[agentName :=
           QueueService.Queue_add
             (Job.mk (QueueService.job_key executionId agentName (clock w))
                agentName executionId 0)
             (default [] (js !! agentName))]> js) w).
Proof.
  intros Hq. unfold QueueService.enqueue, bind, gets.
  by rewrite decide_True.
Qed.

(** *** Exceptions *)

(** The HTTP face of a [ValidationError] and of a [ConflictError]. *)
Lemma ValidationError_is_400 message :
  statusCode (ValidationError message) = 400 ∧
  error_code (ValidationError message) = "VALIDATION_ERROR" ∧
  error_code (ValidationError message) ≠ error_code (ConflictError message).
Proof. repeat split. discriminate. Qed.

(** *** Steps of the service monad *)

Lemma bind_returned {A B} (m : M A) (k : A → M B) (w w' : World) (a : A) :
  m w = (Returned a, w') → bind m k w = k a w'.
Proof. unfold bind. by intros ->. Qed.



Lemma execution_create_fresh (w : World) (emailId : nat) (externalRef : option string)
    (metadata : obj) (status : ExecutionStatus) (currentAgent : string) :
  executions w !! uuid_next w = None →
  Prisma.execution_create emailId externalRef metadata status currentAgent w =
    (Returned (Execution.mk (uuid_next w) emailId externalRef status currentAgent
                 (json_obj metadata) (clock w) (clock w) None),
     with_executions
       (insert (uuid_next w)
          (Execution.mk (uuid_next w) emailId externalRef status currentAgent
             (json_obj metadata) (clock w) (clock w) None))
       (with_uuid_next (S (uuid_next w)) w)).
Proof.
  intros Hfresh.
  unfold Prisma.execution_create, bind, uuid, now, Prisma.execution_findUnique, gets.
  simpl. by rewrite Hfresh.
Qed.


Lemma json_obj_get_string (o : obj) k s :
  get o k = VStr s → get (json_obj o) k = VStr s.
Proof.
  intros H. unfold get at 1. by rewrite json_obj_lookup, H.
Qed.

Lemma to_json_strings (l : list string) : to_json (VArr (VStr <$> l)) = VArr (VStr <$> l).
Proof.
  induction l as [|s l IH]; [done |].
  simpl in *. injection IH as IH. f_equal. f_equal. exact IH.
Qed.

Lemma json_obj_singleton_strings k (l : list string) :
  json_obj {[ k := VArr (VStr <$> l) ]} = {[ k := VArr (VStr <$> l) ]}.
Proof.
  unfold json_obj. rewrite (omap_singleton_Some _ _ _ (to_json (VArr (VStr <$> l)))).
  - by rewrite to_json_strings.
  - reflexivity.
Qed.

Lemma json_obj_singleton_string k s :
  json_obj {[ k := VStr s ]} = {[ k := VStr s ]}.
Proof. unfold json_obj. by rewrite (omap_singleton_Some _ _ _ (VStr s)). Qed.

Lemma Object_keys_spec (o : obj) k : k ∈ Object_keys o ↔ is_Some (o !! k).
Proof. unfold Object_keys. by rewrite elem_of_elements, elem_of_dom. Qed.

Lemma target_agent_given (options : ResumeOptions) (e : Execution.t) a :
  resumeFromAgent options = Some a → a ≠ "" →
  ExecutionService.target_agent options e = a.
Proof.
  intros Ha Hne. unfold ExecutionService.target_agent. rewrite Ha. simpl.
  destruct (String.eqb a "") eqn:E; [| done].
  by apply String.eqb_eq in E.
Qed.

Lemma target_agent_default (options : ResumeOptions) (e : Execution.t) :
  resumeFromAgent options = None →
  ExecutionService.target_agent options e = Execution.currentAgent e.
Proof. intros Ha. unfold ExecutionService.target_agent. by rewrite Ha. Qed.


Lemma saveMany_appends (rows : list Event.t) (w : World) :
  EventService.saveMany rows w =
    (Returned (length rows), with_eventLog (fun l => l ++ rows) w).
Proof.
  destruct rows as [|r rows]; [| reflexivity].
  destruct w. unfold EventService.saveMany, ret, with_eventLog. simpl.
  by rewrite app_nil_r.
Qed.

(** After [initialize] the queue of every pipeline agent is opened. *)
Lemma initialize_opens_pipeline (w : World) (agentName : string) :
  initialized w = false →
  agentName ∈ AGENT_PIPELINE →
  agentName ∈ queues (QueueService.initialize w).2.
Proof.
  intros Hinit Hin. unfold QueueService.initialize, bind, gets, modify.
  rewrite Hinit.
  change (agentName ∈ list_to_set QueueService.agentNames ∪ queues w).
  apply elem_of_union. left. by apply elem_of_list_to_set.
Qed.

(** A snapshot row is written as a stored document, and writing a stored
    document again changes nothing: every row that [createSnapshot] writes
    satisfies the side condition under which replay copies it unchanged. *)
Lemma createSnapshot_stores_json (w : World) (executionId : nat) (agentName : string)
    (snapshotType : SnapshotType) (data : obj) :
  ∃ row,
    rfqSnapshots (StateService.createSnapshot executionId agentName snapshotType data w).2
      = rfqSnapshots w ++ [row] ∧
    RfqSnapshot.data row = json_obj data ∧
    json_obj (RfqSnapshot.data row) = RfqSnapshot.data row.
Proof.
  eexists. split; [reflexivity |]. simpl. split; [done |]. apply json_obj_idem.
Qed.

(** ** Claims on [mergeState] *)

(** C4. [mergeState] merges each curated nested field (parsedData,
    duplicateCheckResult, mtoData, quote) key by key: where the update carries
    an object for the field, every key of that object takes the update's value
    and every other key keeps the value the current state had for it; where
    the update has no such field the current value stays.  Merging
    {parsedData:{a:1}} and then {parsedData:{b:2}} gives parsedData = {a:1,b:2},
    which is also the state a snapshot stores, and not {parsedData:{b:2}}.  A
    field that is not curated and is present in the update takes the update's
    value as a whole. *)
Theorem mergeState_curated_keywise_rest_wholesale :
  (∀ (currentState updates uo : obj) f,
      f ∈ curated → updates !! f = Some (VObj uo) →
      ∃ ro : obj,
        mergeState currentState updates !! f = Some (VObj ro) ∧
        ∀ k, ro !! k = match uo !! k with
                       | Some v => Some v
                       | None => own_props (get currentState f) !! k
                       end) ∧
  (∀ (currentState updates : obj) f,
      f ∈ curated → updates !! f = None →
      get (mergeState currentState updates) f = get currentState f) ∧
  (get (mergeState (mergeState ∅ state_a) state_b) "parsedData"
     = VObj (<["a" := VNum 1]> {[ "b" := VNum 2 ]}) ∧
   json_obj (mergeState (mergeState ∅ state_a) state_b) = state_ab ∧
   json_obj (mergeState (mergeState ∅ state_a) state_b) ≠ state_b) ∧
  (∀ (currentState updates : obj) k v,
      k ∉ curated → updates !! k = Some v →
      mergeState currentState updates !! k = Some v).
Proof.
  split; [| split; [| split]].
  - intros currentState updates uo f Hf Hu.
    exists (spread2 (own_props (get currentState f)) uo). split.
    + rewrite (mergeState_curated _ _ _ Hf). unfold merged_field.
      by rewrite (get_lookup _ _ _ Hu).
    + intros k. apply lookup_spread2.
  - intros currentState updates f Hf Hu.
    unfold get at 1. rewrite (mergeState_curated _ _ _ Hf). simpl.
    unfold merged_field, get at 1. by rewrite Hu.
  - split; [vm_compute; reflexivity | split; [vm_compute; reflexivity |]].
    intros H. apply (f_equal (fun m : obj => m !! "parsedData")) in H.
    vm_compute in H. discriminate H.
  - intros currentState updates k v Hk Hu.
    by rewrite (mergeState_other _ _ _ Hk), lookup_spread2, Hu.
Qed.

(** C4 at {parsedData:{a:1}} and {parsedData:{b:2}}. *)
Lemma mergeState_curated_keywise_rest_wholesale_witness :
  ∃ ro : obj,
    mergeState state_a state_b !! "parsedData" = Some (VObj ro) ∧
    ro !! "a" = Some (VNum 1) ∧ ro !! "b" = Some (VNum 2).
Proof.
  destruct mergeState_curated_keywise_rest_wholesale as [H _].
  destruct (H state_a state_b {[ "b" := VNum 2 ]} "parsedData")
    as (ro & Hro & Hk).
  - apply elem_of_curated. by left.
  - reflexivity.
  - exists ro. split; [exact Hro |]. split.
    + rewrite Hk. reflexivity.
    + rewrite Hk. reflexivity.
Defined.

(** C10. Merging the empty update is the identity on states: every property
    of [mergeState s {}], curated or not, reads as it does in [s]; the state
    stored for the result is the state stored for [s]; and for a state read
    from a snapshot the stored result is [s] itself.  (The result object
    spells out the four curated properties, with value [undefined] where [s]
    has none: a property read and a Json column do not tell that from an
    absent property.) *)
Theorem mergeState_empty_update_identity (s : obj) :
  (∀ k, get (mergeState s ∅) k = get s k) ∧
  json_obj (mergeState s ∅) = json_obj s ∧
  (json_obj s = s → json_obj (mergeState s ∅) = s).
Proof.
  assert (json_obj (mergeState s ∅) = json_obj s) as H
    by apply json_obj_ext, get_mergeState_empty.
  split; [apply get_mergeState_empty |]. split; [exact H |].
  intros Hs. by rewrite H.
Qed.

(** ** Claims on [ExecutionService] *)

Section ServiceClaims.
Context {Q : QueryEngine}.

(** C5 (as amended). For every existing Execution whose status is not
    AWAITING_HUMAN, resume throws a ValidationError (code VALIDATION_ERROR,
    HTTP 400) naming the current status, and the world it leaves is the world
    it found: no Execution row change, no Event, no Snapshot, no job. *)
Theorem resume_not_awaiting_rejected (w : World) (executionId : nat)
    (options : ResumeOptions) (e : Execution.t) :
  executions w !! executionId = Some e →
  Execution.status e ≠ AWAITING_HUMAN →
  ExecutionService.resume executionId options w =
    (Thrown (ValidationError
               ("Execution is not awaiting human input. Current status: "
                  +:+ status_str (Execution.status e))), w).
Proof.
  intros He Hs. unfold ExecutionService.resume, bind, Prisma.execution_findUnique, gets.
  rewrite He. by destruct (decide (Execution.status e ≠ AWAITING_HUMAN)).
Qed.

End ServiceClaims.

(** C5 at a PENDING execution. *)
Lemma resume_not_awaiting_rejected_witness :
  ExecutionService.resume (Q := engine_scan) 1 no_options
    (world_of (execution1 PENDING "intake") []) =
  (Thrown (ValidationError
             "Execution is not awaiting human input. Current status: PENDING"),
   world_of (execution1 PENDING "intake") []).
Proof.
  apply (resume_not_awaiting_rejected (Q := engine_scan)
           (world_of (execution1 PENDING "intake") []) 1 no_options
           (execution1 PENDING "intake")).
  - reflexivity.
  - discriminate.
Defined.

(** C5, the claim as stated fails: on a PENDING execution resume throws a
    ValidationError, which is not a ConflictError. *)
Lemma resume_throws_no_conflict :
  ∃ e w,
    w = world_of (execution1 PENDING "intake") [] ∧
    executions w !! 1%nat = Some e ∧
    Execution.status e ≠ AWAITING_HUMAN ∧
    ¬ ∃ message,
        (ExecutionService.resume (Q := engine_scan) 1 no_options w).1
        = Thrown (ConflictError message).
Proof.
  exists (execution1 PENDING "intake"), (world_of (execution1 PENDING "intake") []).
  split; [reflexivity |]. split; [reflexivity |]. split; [discriminate |].
  intros [message H]. vm_compute in H. discriminate H.
Qed.

(** C6 (as amended). For every existing Execution, cancel throws a
    ValidationError (code VALIDATION_ERROR, HTTP 400) and writes nothing when
    the status is COMPLETED or CANCELLED; for every other status, PROCESSING
    and FAILED included, it returns, the row has status CANCELLED and
    completedAt set to the time of the call, exactly one event, of type
    EXECUTION_CANCELLED, is appended, and nothing else is written. *)
Theorem cancel_guarded (w : World) (executionId : nat) (e : Execution.t) :
  executions w !! executionId = Some e →
  (Execution.status e = COMPLETED ∨ Execution.status e = CANCELLED →
   ExecutionService.cancel executionId w =
     (Thrown (ValidationError
                ("Cannot cancel execution with status: "
                   +:+ status_str (Execution.status e))), w)) ∧
  (Execution.status e ≠ COMPLETED → Execution.status e ≠ CANCELLED →
   ∃ w' e',
     ExecutionService.cancel executionId w = (Returned tt, w') ∧
     executions w' = <[executionId := e']> (executions w) ∧
     Execution.status e' = CANCELLED ∧
     Execution.completedAt e' = Some (clock w) ∧
     Execution.currentAgent e' = Execution.currentAgent e ∧
     eventLog w' =
       eventLog w ++
       [Event.mk (uuid_next w) executionId None "EXECUTION_CANCELLED" ∅ (clock w)] ∧
     rfqSnapshots w' = rfqSnapshots w ∧
     agentTasks w' = agentTasks w ∧
     jobs w' = jobs w).
Proof.
  intros He. split.
  - intros Hs. unfold ExecutionService.cancel, bind, Prisma.execution_findUnique, gets.
    rewrite He.
    by destruct (decide (Execution.status e = COMPLETED ∨ Execution.status e = CANCELLED)).
  - intros Hc Hx.
    unfold ExecutionService.cancel, bind, Prisma.execution_findUnique, gets.
    rewrite He.
    destruct (decide (Execution.status e = COMPLETED ∨ Execution.status e = CANCELLED))
      as [[Hd | Hd] | Hd]; [done | done |].
    unfold now, gets, Prisma.execution_update, bind, Prisma.execution_findUnique, gets.
    rewrite He. simpl.
    eexists _, (updated_execution
                  {| set_status := Some CANCELLED; set_currentAgent := None;
                     set_metadata := None; set_completedAt := Some (clock w) |}
                  (clock w) e).
    split; [reflexivity |]. simpl.
    unfold Prisma.event_row, domain_event. simpl. by rewrite json_obj_empty.
Qed.

(** C6 at a COMPLETED execution. *)
Lemma cancel_guarded_witness :
  ExecutionService.cancel 1 (world_of (execution1 COMPLETED "auto-quote") []) =
    (Thrown (ValidationError "Cannot cancel execution with status: COMPLETED"),
     world_of (execution1 COMPLETED "auto-quote") []).
Proof.
  apply (cancel_guarded (world_of (execution1 COMPLETED "auto-quote") []) 1
           (execution1 COMPLETED "auto-quote")).
  - reflexivity.
  - left. reflexivity.
Defined.

(** C6, the claim as stated fails: cancel on a COMPLETED execution throws a
    ValidationError, which is not a ConflictError. *)
Lemma cancel_throws_no_conflict :
  ∃ e w,
    w = world_of (execution1 COMPLETED "auto-quote") [] ∧
    executions w !! 1%nat = Some e ∧
    Execution.status e = COMPLETED ∧
    ¬ ∃ message,
        (ExecutionService.cancel 1 w).1 = Thrown (ConflictError message).
Proof.
  exists (execution1 COMPLETED "auto-quote"),
         (world_of (execution1 COMPLETED "auto-quote") []).
  split; [reflexivity |]. split; [reflexivity |]. split; [reflexivity |].
  intros [message H]. vm_compute in H. discriminate H.
Qed.

(** ** Claims on [StateService] snapshots *)

(** The stored snapshot that the claim calls the Nth: the last row inserted
    for the execution. *)
Lemma createSnapshot_appends (w : World) (executionId : nat) (agentName : string)
    (snapshotType : SnapshotType) (data : obj) :
  ∃ w',
    StateService.createSnapshot executionId agentName snapshotType data w
      = (Returned (uuid_next w), w') ∧
    Prisma.rows_of executionId w' =
      Prisma.rows_of executionId w ++
      [RfqSnapshot.mk (uuid_next w) executionId agentName snapshotType
         (json_obj data) (clock w)] ∧
    executions w' = executions w ∧ eventLog w' = eventLog w.
Proof.
  eexists. split; [reflexivity |]. simpl. split; [| done].
  unfold Prisma.rows_of. simpl. rewrite filter_app.
  f_equal. by rewrite filter_cons_True.
Qed.

Section SnapshotClaims.
Context {Q : QueryEngine}.

(** A snapshot created at a time later than every snapshot the execution
    has is the one [getLatestSnapshot] returns next. *)
Lemma getLatestSnapshot_after_createSnapshot (Hq : sorts_newest_first Q)
    (w : World) (executionId : nat) (agentName : string)
    (snapshotType : SnapshotType) (data : obj) :
  (∀ x, x ∈ Prisma.rows_of executionId w → RfqSnapshot.createdAt x < clock w) →
  ∃ w',
    StateService.createSnapshot executionId agentName snapshotType data w
      = (Returned (uuid_next w), w') ∧
    StateService.getLatestSnapshot executionId w'
      = (Returned (Some (json_obj data)), w').
Proof.
  intros Hold.
  destruct (createSnapshot_appends w executionId agentName snapshotType data)
    as (w' & Hrun & Hrows & _).
  exists w'. split; [exact Hrun |].
  unfold StateService.getLatestSnapshot, Prisma.rfqSnapshot_findFirst, bind, gets, ret,
    Prisma.snapshots_of.
  rewrite Hrows, (newest_first_head_last Hq); [done |].
  intros x Hx. simpl. by apply Hold.
Qed.

(** C3 (as amended). When the last snapshot inserted for an Execution has a
    creation time strictly greater than that of every earlier one,
    getLatestSnapshot returns exactly its data.  In general the query orders
    by createdAt alone: the result is the data of a snapshot of greatest
    createdAt, and none is returned only when the Execution has none. *)
Theorem getLatestSnapshot_newest_createdAt (Hq : sorts_newest_first Q)
    (w : World) (executionId : nat) :
  (∀ pre s,
      Prisma.rows_of executionId w = pre ++ [s] →
      (∀ x, x ∈ pre → RfqSnapshot.createdAt x < RfqSnapshot.createdAt s) →
      StateService.getLatestSnapshot executionId w
        = (Returned (Some (RfqSnapshot.data s)), w)) ∧
  (Prisma.rows_of executionId w = [] →
      StateService.getLatestSnapshot executionId w = (Returned None, w)) ∧
  (Prisma.rows_of executionId w ≠ [] →
      ∃ s, s ∈ Prisma.rows_of executionId w ∧
           (∀ x, x ∈ Prisma.rows_of executionId w →
                 RfqSnapshot.createdAt x ≤ RfqSnapshot.createdAt s) ∧
           StateService.getLatestSnapshot executionId w
             = (Returned (Some (RfqSnapshot.data s)), w)).
Proof.
  unfold StateService.getLatestSnapshot, Prisma.rfqSnapshot_findFirst, bind, gets, ret,
    Prisma.snapshots_of.
  split; [| split].
  - intros pre s Hrows Hold. rewrite Hrows.
    by rewrite (newest_first_head_last Hq pre s Hold).
  - intros ->. pose proof (newest_first_head Hq []) as H.
    destruct (orderBy_createdAt_desc []) as [|s l]; [done |].
    destruct H as [H _]. by apply elem_of_nil in H.
  - intros Hne. pose proof (newest_first_head Hq (Prisma.rows_of executionId w)) as H.
    destruct (orderBy_createdAt_desc (Prisma.rows_of executionId w)) as [|s l]; [done |].
    destruct H as [Hin Hmax]. by exists s.
Qed.

End SnapshotClaims.

(** C3 at three snapshots, the last one strictly the newest. *)
Lemma getLatestSnapshot_newest_createdAt_witness :
  StateService.getLatestSnapshot (Q := engine_scan) 1
    (world_of (execution1 PROCESSING "duplicate")
       [snapshot_first; snapshot_second; snapshot_later])
  = (Returned (Some (RfqSnapshot.data snapshot_later)),
     world_of (execution1 PROCESSING "duplicate")
       [snapshot_first; snapshot_second; snapshot_later]).
Proof.
  apply (proj1 (getLatestSnapshot_newest_createdAt (Q := engine_scan)
                  engine_scan_sorts
                  (world_of (execution1 PROCESSING "duplicate")
                     [snapshot_first; snapshot_second; snapshot_later]) 1)
           [snapshot_first; snapshot_second] snapshot_later).
  - reflexivity.
  - intros x Hx. apply elem_of_cons in Hx as [-> | Hx]; [reflexivity |].
    apply list_elem_of_singleton in Hx as ->. reflexivity.
Defined.

(** C3, the claim as stated fails: two snapshots of one execution created in
    the same millisecond; an engine that sorts by createdAt, as the query
    asks, returns the first inserted and not the second. *)
Lemma getLatestSnapshot_tie_not_last :
  sorts_newest_first engine_scan ∧
  ∃ w,
    w = world_of (execution1 PROCESSING "duplicate") [snapshot_first; snapshot_second] ∧
    Prisma.rows_of 1 w = [snapshot_first; snapshot_second] ∧
    RfqSnapshot.createdAt snapshot_first = RfqSnapshot.createdAt snapshot_second ∧
    StateService.getLatestSnapshot (Q := engine_scan) 1 w
      = (Returned (Some (RfqSnapshot.data snapshot_first)), w) ∧
    RfqSnapshot.data snapshot_first ≠ RfqSnapshot.data snapshot_second.
Proof.
  split; [apply engine_scan_sorts |].
  eexists. split; [reflexivity |].
  split; [reflexivity |]. split; [reflexivity |]. split; [reflexivity |].
  intros H. apply (f_equal (fun m : obj => m !! "priority")) in H.
  vm_compute in H. discriminate H.
Qed.

(** ** Claims on [QueueService] *)

(** C9 (as amended). Two enqueue calls for the same execution and the same
    agent whose clock readings differ get different job keys, and after the
    second call the queue holds two distinct jobs, one under each key.  When
    both calls read the same millisecond the keys are the same and the second
    call adds no job. *)
Theorem enqueue_twice_keys (w : World) (agentName : string) (executionId : nat)
    (t1 t2 : Z) :
  agentName ∈ queues w →
  ∃ w2,
    QueueService.enqueue_twice agentName executionId t1 t2 w =
      (Returned (QueueService.job_key executionId agentName t1),
       Returned (QueueService.job_key executionId agentName t2), w2) ∧
    QueueService.queue_jobs agentName w2 =
      QueueService.Queue_add
        (Job.mk (QueueService.job_key executionId agentName t2) agentName executionId 0)
        (QueueService.Queue_add
           (Job.mk (QueueService.job_key executionId agentName t1) agentName executionId 0)
           (QueueService.queue_jobs agentName w)) ∧
    (t1 ≠ t2 →
       QueueService.job_key executionId agentName t1
         ≠ QueueService.job_key executionId agentName t2 ∧
       ∃ j1 j2,
         j1 ∈ QueueService.queue_jobs agentName w2 ∧
         j2 ∈ QueueService.queue_jobs agentName w2 ∧
         Job.id j1 = QueueService.job_key executionId agentName t1 ∧
         Job.id j2 = QueueService.job_key executionId agentName t2 ∧
         j1 ≠ j2) ∧
    (t1 = t2 →
       QueueService.queue_jobs agentName w2 =
         QueueService.queue_jobs agentName
           (QueueService.enqueue agentName executionId (at_time t1 w)).2).
Proof.
  intros Hq. unfold QueueService.enqueue_twice.
  rewrite (enqueue_opened (at_time t1 w)) by done. simpl.
  rewrite enqueue_opened by done. simpl.
  eexists. split; [reflexivity |].
  unfold QueueService.queue_jobs. simpl. rewrite !lookup_insert_eq. simpl.
  split; [reflexivity |]. split.
  - intros Hne. split; [intros H; by apply job_key_inj in H |].
    set (j1 := Job.mk (QueueService.job_key executionId agentName t1) agentName executionId 0).
    set (j2 := Job.mk (QueueService.job_key executionId agentName t2) agentName executionId 0).
    set (q := default [] (jobs w !! agentName)).
    destruct (Queue_add_has_id j1 q) as (x1 & Hx1 & Hid1).
    destruct (Queue_add_has_id j2 (QueueService.Queue_add j1 q)) as (x2 & Hx2 & Hid2).
    exists x1, x2. split; [by apply Queue_add_keeps |]. split; [done |].
    split; [done |]. split; [done |].
    intros ->. rewrite Hid1 in Hid2. simpl in Hid2. by apply job_key_inj in Hid2.
  - intros <-. by apply Queue_add_same_id.
Qed.

(** C9 at clock readings 6000 and 6001. *)
Lemma enqueue_twice_keys_witness :
  ∃ w2,
    QueueService.enqueue_twice "intake" 1 6000 6001
      (world_of (execution1 PENDING "intake") []) =
      (Returned "1-intake-6000", Returned "1-intake-6001", w2) ∧
    QueueService.queue_jobs "intake" w2 =
      [Job.mk "1-intake-6000" "intake" 1 0; Job.mk "1-intake-6001" "intake" 1 0].
Proof.
  destruct (enqueue_twice_keys (world_of (execution1 PENDING "intake") [])
              "intake" 1 6000 6001) as (w2 & Hrun & Hjobs & _).
  - vm_compute. reflexivity.
  - exists w2. split; [exact Hrun |]. rewrite Hjobs. vm_compute. reflexivity.
Defined.

(** C9, the claim as stated fails: two enqueue calls for execution 1 and
    agent intake that both read the clock at 6000 get the same key, and the
    queue holds one job. *)
Lemma enqueue_twice_same_millisecond :
  "intake" ∈ queues (world_of (execution1 PENDING "intake") []) ∧
  (QueueService.enqueue_twice "intake" 1 6000 6000
     (world_of (execution1 PENDING "intake") [])).1
    = (Returned "1-intake-6000", Returned "1-intake-6000") ∧
  QueueService.queue_jobs "intake"
    (QueueService.enqueue_twice "intake" 1 6000 6000
       (world_of (execution1 PENDING "intake") [])).2
    = [Job.mk "1-intake-6000" "intake" 1 0].
Proof.
  split; [vm_compute; reflexivity |].
  split; vm_compute; reflexivity.
Qed.

(** ** Claims on replay and resume *)

Section ReplayClaims.
Context {Q : QueryEngine}.

(** C7. For every existing Execution and every pipeline stage fromAgent,
    replay returns the identifier of a new Execution and leaves the original
    as it was: its row (status and currentAgent included), its snapshots and
    its events.  The new Execution is PENDING at fromAgent and its
    metadata.replayedFrom is the original's id.  If the original has an INPUT
    snapshot of fromAgent, the newest such snapshot is copied: the only write
    to the snapshot table is one INPUT row of fromAgent for the new Execution
    holding that snapshot's document; otherwise no snapshot is written. *)
Theorem replay_forks_and_keeps_original (Hq : sorts_newest_first Q)
    (w : World) (executionId : nat) (fromAgent : string) (e : Execution.t) :
  executions w !! executionId = Some e →
  fromAgent ∈ AGENT_PIPELINE →
  fromAgent ∈ queues w →
  executions w !! uuid_next w = None →
  ∃ w' fork,
    ExecutionService.replay executionId fromAgent w = (Returned (uuid_next w), w') ∧
    executions w' !! executionId = Some e ∧
    Prisma.rows_of executionId w' = Prisma.rows_of executionId w ∧
    Prisma.events_of executionId w' = Prisma.events_of executionId w ∧
    executions w' !! uuid_next w = Some fork ∧
    Execution.status fork = PENDING ∧
    Execution.currentAgent fork = fromAgent ∧
    get (Execution.metadata fork) "replayedFrom" = VStr (id_str executionId) ∧
    ((∀ x, x ∈ rfqSnapshots w →
           ¬ (RfqSnapshot.executionId x = executionId
              ∧ RfqSnapshot.agentName x = fromAgent
              ∧ RfqSnapshot.snapshotType x = INPUT)) →
     rfqSnapshots w' = rfqSnapshots w) ∧
    ((∃ x, x ∈ rfqSnapshots w
           ∧ RfqSnapshot.executionId x = executionId
           ∧ RfqSnapshot.agentName x = fromAgent
           ∧ RfqSnapshot.snapshotType x = INPUT) →
     ∃ s, s ∈ rfqSnapshots w
          ∧ RfqSnapshot.executionId s = executionId
          ∧ RfqSnapshot.agentName s = fromAgent
          ∧ RfqSnapshot.snapshotType s = INPUT
          ∧ rfqSnapshots w' =
              rfqSnapshots w ++
              [RfqSnapshot.mk (S (uuid_next w)) (uuid_next w) fromAgent INPUT
                 (json_obj (RfqSnapshot.data s)) (clock w)]
          ∧ (json_obj (RfqSnapshot.data s) = RfqSnapshot.data s →
             rfqSnapshots w' =
               rfqSnapshots w ++
               [RfqSnapshot.mk (S (uuid_next w)) (uuid_next w) fromAgent INPUT
                  (RfqSnapshot.data s) (clock w)])).
Proof.
  intros He Hpipe Hqueue Hfresh.
  assert (Hne : uuid_next w ≠ executionId) by (intros Heq; rewrite Heq in Hfresh; congruence).
  unfold ExecutionService.replay.
  rewrite (bind_returned _ _ w w (Some e)) by (unfold Prisma.execution_findUnique, gets; by rewrite He).
  unfold bind at 1. unfold gets at 1.
  rewrite decide_True by done.
  rewrite (bind_returned _ _ _ _ _ (execution_create_fresh w _ _ _ _ _ Hfresh)).
  cbn [Execution.id].
  unfold Prisma.snapshots_matching.
  set (matching := fun s : RfqSnapshot.t =>
         RfqSnapshot.executionId s = executionId
         ∧ RfqSnapshot.agentName s = fromAgent
         ∧ RfqSnapshot.snapshotType s = INPUT).
  pose proof (newest_first_head Hq (filter matching (rfqSnapshots w))) as Hhead.
  destruct (orderBy_createdAt_desc (filter matching (rfqSnapshots w))) as [|s l].
  - (* the original has no INPUT snapshot of fromAgent *)
    unfold bind, ret, uuid, now, gets, EventService.save, Prisma.event_create, modify.
    simpl. rewrite enqueue_opened by done. simpl.
    eexists _, _. split; [reflexivity |]. simpl.
    split; [by rewrite lookup_insert_ne |].
    split; [done |].
    split.
    { unfold Prisma.events_of. simpl. rewrite filter_app.
      rewrite filter_cons_False by (simpl; congruence).
      by rewrite filter_nil, app_nil_r. }
    split; [by rewrite lookup_insert_eq |]. simpl.
    split; [done |]. split; [done |].
    split.
    { apply json_obj_get_string. unfold get.
      rewrite lookup_insert_ne by done. by rewrite lookup_insert_eq. }
    split; [done |].
    intros (x & Hx & Hm). exfalso.
    assert (x ∈ filter matching (rfqSnapshots w)) as Hin
      by (apply list_elem_of_filter; split; done).
    rewrite Hhead in Hin. by apply elem_of_nil in Hin.
  - (* the newest INPUT snapshot of fromAgent is copied *)
    destruct Hhead as [Hs _]. apply list_elem_of_filter in Hs as [Hm Hs].
    unfold bind, ret, uuid, now, gets, EventService.save, Prisma.event_create, modify,
      StateService.createSnapshot, Prisma.rfqSnapshot_create.
    simpl. unfold bind, ret, uuid, now, gets, modify. simpl.
    rewrite enqueue_opened by done. simpl.
    eexists _, _. split; [reflexivity |]. simpl.
    split; [by rewrite lookup_insert_ne |].
    split.
    { unfold Prisma.rows_of. simpl. rewrite filter_app.
      rewrite filter_cons_False by (simpl; congruence).
      by rewrite filter_nil, app_nil_r. }
    split.
    { unfold Prisma.events_of. simpl. rewrite filter_app.
      rewrite filter_cons_False by (simpl; congruence).
      by rewrite filter_nil, app_nil_r. }
    split; [by rewrite lookup_insert_eq |]. simpl.
    split; [done |]. split; [done |].
    split.
    { apply json_obj_get_string. unfold get.
      rewrite lookup_insert_ne by done. by rewrite lookup_insert_eq. }
    split.
    { intros Hnone. exfalso. by apply (Hnone s Hs). }
    intros _. exists s. destruct Hm as (Hm1 & Hm2 & Hm3).
    repeat (split; [done |]). by intros ->.
Qed.

End ReplayClaims.

(** C7 at a COMPLETED execution with an INPUT snapshot of duplicate. *)
Lemma replay_forks_and_keeps_original_witness :
  ∃ w' fork,
    ExecutionService.replay (Q := engine_scan) 1 "duplicate"
      (world_of (execution1 COMPLETED "auto-quote") [snapshot_first; snapshot_later])
      = (Returned 20%nat, w') ∧
    executions w' !! 1%nat = Some (execution1 COMPLETED "auto-quote") ∧
    executions w' !! 20%nat = Some fork ∧
    Execution.status fork = PENDING ∧
    Execution.currentAgent fork = "duplicate" ∧
    get (Execution.metadata fork) "replayedFrom" = VStr "1".
Proof.
  destruct (replay_forks_and_keeps_original (Q := engine_scan) engine_scan_sorts
              (world_of (execution1 COMPLETED "auto-quote")
                 [snapshot_first; snapshot_later])
              1 "duplicate" (execution1 COMPLETED "auto-quote"))
    as (w' & fork & Hrun & Horig & _ & _ & Hfork & Hst & Hag & Hmeta & _).
  - reflexivity.
  - unfold AGENT_PIPELINE. repeat constructor.
  - vm_compute. reflexivity.
  - reflexivity.
  - exists w', fork. split; [exact Hrun |]. split; [exact Horig |].
    split; [exact Hfork |]. split; [exact Hst |]. split; [exact Hag |].
    exact Hmeta.
Defined.

Section ResumeClaims.
Context {Q : QueryEngine}.

(** C8. For an Execution in status AWAITING_HUMAN, resume returns and:
    with an updatedState it merges it into the latest snapshot (the empty
    state if there is none) with mergeState, appends one HUMAN_UPDATE
    snapshot holding the result, and appends a HUMAN_INPUT_RECEIVED event
    whose payload is the list of the updated field names and nothing else;
    in every case the target agent is resumeFromAgent if given and the
    Execution's currentAgent otherwise, the row gets status PROCESSING and
    currentAgent target, an EXECUTION_RESUMED event is appended last, and a
    job for the target agent is put on its queue. *)
Theorem resume_awaiting_human (w : World) (executionId : nat)
    (options : ResumeOptions) (e : Execution.t) (target : string) :
  executions w !! executionId = Some e →
  Execution.status e = AWAITING_HUMAN →
  resumeFromAgent options ≠ Some "" →
  target = match resumeFromAgent options with
           | Some a => a
           | None => Execution.currentAgent e
           end →
  target ∈ queues w →
  ∃ w' latest row,
    ExecutionService.resume executionId options w = (Returned tt, w') ∧
    StateService.getLatestSnapshot executionId w = (Returned latest, w) ∧
    executions w' = <[executionId := row]> (executions w) ∧
    Execution.status row = PROCESSING ∧
    Execution.currentAgent row = target ∧
    Execution.completedAt row = Execution.completedAt e ∧
    Execution.metadata row = Execution.metadata e ∧
    QueueService.queue_jobs target w' =
      QueueService.Queue_add
        (Job.mk (QueueService.job_key executionId target (clock w)) target executionId 0)
        (QueueService.queue_jobs target w) ∧
    match updatedState options with
    | Some updates =>
        rfqSnapshots w' =
          rfqSnapshots w ++
          [RfqSnapshot.mk (uuid_next w) executionId "human" HUMAN_UPDATE
             (json_obj (mergeState (default ∅ latest) updates)) (clock w)] ∧
        eventLog w' =
          eventLog w ++
          [Event.mk (S (uuid_next w)) executionId None "HUMAN_INPUT_RECEIVED"
             {[ "updatedFields" := VArr (VStr <$> Object_keys updates) ]} (clock w);
           Event.mk (S (S (uuid_next w))) executionId None "EXECUTION_RESUMED"
             {[ "resumedFrom" := VStr target ]} (clock w)] ∧
        (∀ k, k ∈ Object_keys updates ↔ is_Some (updates !! k))
    | None =>
        rfqSnapshots w' = rfqSnapshots w ∧
        eventLog w' =
          eventLog w ++
          [Event.mk (uuid_next w) executionId None "EXECUTION_RESUMED"
             {[ "resumedFrom" := VStr target ]} (clock w)]
    end.
Proof.
  intros He Hs Hne Htarget Hqueue.
  assert (Ht : ExecutionService.target_agent options e = target).
  { destruct (resumeFromAgent options) as [a|] eqn:Ha.
    - subst target. apply target_agent_given; [done |]. by intros ->.
    - subst target. by apply target_agent_default. }
  unfold ExecutionService.resume. unfold_services. rewrite He.
  rewrite decide_False by (intros H; by apply H).
  rewrite Ht.
  destruct (updatedState options) as [updates|]; simpl; rewrite He; simpl;
    rewrite (decide_True _ _ Hqueue); simpl.
  - eexists _, _, _. split; [reflexivity |]. split; [reflexivity |].
    split; [reflexivity |]. simpl.
    unfold QueueService.queue_jobs. simpl. rewrite lookup_insert_eq. simpl.
    repeat (split; [done |]).
    unfold Prisma.event_row, domain_event. simpl.
    rewrite json_obj_singleton_strings, json_obj_singleton_string.
    split; [by rewrite <- app_assoc |]. apply Object_keys_spec.
  - eexists _, _, _. split; [reflexivity |]. split; [reflexivity |].
    split; [reflexivity |]. simpl.
    unfold QueueService.queue_jobs. simpl. rewrite lookup_insert_eq. simpl.
    repeat (split; [done |]).
    unfold Prisma.event_row, domain_event. simpl.
    by rewrite json_obj_singleton_string.
Qed.

End ResumeClaims.

(** C8 at an execution parked at missing-info, resumed from duplicate. *)
Lemma resume_awaiting_human_witness :
  ∃ w',
    ExecutionService.resume (Q := engine_scan) 1 human_update
      (world_of (execution1 AWAITING_HUMAN "missing-info") [snapshot_first])
      = (Returned tt, w') ∧
    Execution.status <$> executions w' !! 1%nat = Some PROCESSING ∧
    Execution.currentAgent <$> executions w' !! 1%nat = Some "duplicate" ∧
    QueueService.queue_jobs "duplicate" w' = [Job.mk "1-duplicate-6000" "duplicate" 1 0].
Proof.
  destruct (resume_awaiting_human (Q := engine_scan)
              (world_of (execution1 AWAITING_HUMAN "missing-info") [snapshot_first])
              1 human_update (execution1 AWAITING_HUMAN "missing-info") "duplicate")
    as (w' & latest & row & Hrun & _ & Hex & Hst & Hag & _ & _ & Hjobs & _).
  - reflexivity.
  - reflexivity.
  - discriminate.
  - reflexivity.
  - vm_compute. reflexivity.
  - exists w'. split; [exact Hrun |].
    rewrite Hex, lookup_insert_eq. simpl. rewrite Hst, Hag.
    split; [reflexivity |]. split; [reflexivity |].
    rewrite Hjobs. vm_compute. reflexivity.
Defined.

(** ** Claims on the worker *)

(** Step 10 of the job handler: the effect of each next action on a world in
    which the execution exists. *)
Lemma handleNextAction_effects (w : World) (agentName : string) (executionId : nat)
    (e row0 : Execution.t) (action : NextAction) :
  executions w !! executionId = Some row0 →
  ∃ out w' row tail,
    AgentWorker.handleNextAction agentName executionId e action w = (out, w') ∧
    executions w' = <[executionId := row]> (executions w) ∧
    Execution.status row =
      match action with
      | CONTINUE _ | SKIP _ _ => Execution.status row0
      | _ => AgentWorker.status_after action
      end ∧
    Execution.completedAt row =
      match action with
      | COMPLETE => Some (clock w)
      | _ => Execution.completedAt row0
      end ∧
    eventLog w' = eventLog w ++ tail ∧
    rfqSnapshots w' = rfqSnapshots w ∧
    agentTasks w' = agentTasks w ∧
    clock w' = clock w.
Proof.
  intros He.
  destruct action as [next | reason fields | | error | reason next];
    unfold AgentWorker.handleNextAction; unfold_services; simpl; rewrite He; simpl.
  - destruct (decide (next ∈ queues w)); simpl;
      eexists _, _, _, []; (split; [reflexivity |]); simpl;
      by rewrite app_nil_r.
  - eexists _, _, _, [_]. split; [reflexivity |]. done.
  - eexists _, _, _, [_]. split; [reflexivity |]. done.
  - eexists _, _, _, [_]. split; [reflexivity |]. done.
  - destruct (decide (next ∈ queues w)); simpl;
      eexists _, _, _, []; (split; [reflexivity |]); simpl;
      by rewrite app_nil_r.
Qed.

(** Step 10 in full: rows, events, jobs and outcome of each next action. *)
Lemma handleNextAction_run (w : World) (agentName : string) (executionId : nat)
    (e row0 : Execution.t) (action : NextAction) :
  executions w !! executionId = Some row0 →
  ∃ out w' row tail,
    AgentWorker.handleNextAction agentName executionId e action w = (out, w') ∧
    executions w' = <[executionId := row]> (executions w) ∧
    Execution.currentAgent row =
      default (Execution.currentAgent row0) (dispatched_agent action) ∧
    Execution.metadata row =
      match action with
      | AWAIT_HUMAN reason fields =>
          json_obj (<["requiredFields" := AgentWorker.optional_strings fields]>
                      (<["awaitingReason" := VStr reason]> (Execution.metadata e)))
      | FAIL error => json_obj (<["error" := VStr error]> (Execution.metadata e))
      | _ => Execution.metadata row0
      end ∧
    eventLog w' = eventLog w ++ tail ∧
    Forall (fun v => Event.executionId v = executionId) tail ∧
    Event.eventType <$> tail = transition_events action ∧
    jobs w' =
      match dispatched_agent action with
      | Some next =>
          if decide (next ∈ queues w)
          then <[next := QueueService.Queue_add
                           (Job.mk (QueueService.job_key executionId next (clock w))
                              next executionId 0)
                           (default [] (jobs w !! next))]> (jobs w)
          else jobs w
      | None => jobs w
      end ∧
    out =
      match dispatched_agent action with
      | Some next =>
          if decide (next ∈ queues w) then Returned tt
          else Thrown (JsError ("Queue not found for agent: " +:+ next))
      | None => Returned tt
      end ∧
    queues w' = queues w.
Proof.
  intros He.
  destruct action as [next | reason fields | | error | reason next];
    unfold AgentWorker.handleNextAction; unfold_services; simpl; rewrite He; simpl.
  - destruct (decide (next ∈ queues w)); simpl;
      eexists _, _, _, []; (split; [reflexivity |]); simpl;
      rewrite app_nil_r; repeat split; done.
  - eexists _, _, _, [_]. split; [reflexivity |]. simpl.
    repeat split; try done. by repeat constructor.
  - eexists _, _, _, [_]. split; [reflexivity |]. simpl.
    repeat split; try done. by repeat constructor.
  - eexists _, _, _, [_]. split; [reflexivity |]. simpl.
    repeat split; try done. by repeat constructor.
  - destruct (decide (next ∈ queues w)); simpl;
      eexists _, _, _, []; (split; [reflexivity |]); simpl;
      rewrite app_nil_r; repeat split; done.
Qed.

Section WorkerClaims.
Context {Q : QueryEngine}.
Context (createAgent : string → AgentContext → AgentResult).

(** What one job does to the world, for any execution that exists. *)
Lemma worker_effects (w : World) (agentName : string) (job : Job.t)
    (e : Execution.t) (email : Email.t) :
  executions w !! Job.data_executionId job = Some e →
  emails w !! Execution.emailId e = Some email →
  agentTasks w !! uuid_next w = None →
  ∃ w' latest result task row tail,
    (AgentWorker.createAgentWorker createAgent agentName job w).2 = w' ∧
    latest = head (Prisma.snapshots_of (Job.data_executionId job) w) ∧
    result = createAgent agentName
               (AgentWorker.build_context (Job.data_executionId job) e email
                  (default ∅ (RfqSnapshot.data <$> latest)) job (cwd w)) ∧
    agentTasks w' = <[uuid_next w := task]> (agentTasks w) ∧
    AgentTask.executionId task = Job.data_executionId job ∧
    AgentTask.agentName task = agentName ∧
    AgentTask.attemptNumber task = S (Job.attemptsMade job) ∧
    AgentTask.status task = (if success result then TASK_COMPLETED else TASK_FAILED) ∧
    rfqSnapshots w' =
      rfqSnapshots w ++
      [RfqSnapshot.mk (S (uuid_next w)) (Job.data_executionId job) agentName OUTPUT
         (json_obj (mergeState (default ∅ (RfqSnapshot.data <$> latest))
                      (outputState result)))
         (clock w)] ∧
    eventLog w' =
      eventLog w ++
      ((fun ev => Prisma.event_row ev (Job.data_executionId job) (Some (uuid_next w)))
         <$> events result) ++ tail ∧
    executions w' = <[Job.data_executionId job := row]> (executions w) ∧
    Execution.status row = AgentWorker.status_after (nextAction result) ∧
    Execution.completedAt row =
      match nextAction result with
      | COMPLETE => Some (clock w)
      | _ => Execution.completedAt e
      end.
Proof.
  intros He Hemail Hfresh.
  unfold AgentWorker.createAgentWorker. unfold_services. rewrite He. simpl.
  rewrite Hemail, He. simpl. rewrite Hfresh. simpl.
  assert (Hlatest : head (take 1 (Prisma.snapshots_of (Job.data_executionId job) w))
                    = head (Prisma.snapshots_of (Job.data_executionId job) w))
    by (by destruct (Prisma.snapshots_of (Job.data_executionId job) w)).
  rewrite Hlatest. clear Hlatest.
  set (latest := head (Prisma.snapshots_of (Job.data_executionId job) w)).
  assert (Hcur : match latest with Some s => RfqSnapshot.data s | None => ∅ end
                 = default ∅ (RfqSnapshot.data <$> latest)) by (by destruct latest).
  rewrite Hcur. clear Hcur.
  set (result := createAgent agentName _).
  rewrite saveMany_appends. simpl. rewrite lookup_insert_eq. simpl.
  set (row0 := updated_execution _ (clock w) e).
  match goal with
  | |- context [AgentWorker.handleNextAction ?a ?i ?x ?n ?W] =>
      destruct (handleNextAction_effects W a i x row0 n)
        as (out & w' & row & tail & Hrun & Hex & Hst & Hco & Hev & Hsn & Hta & _);
      [simpl; by rewrite lookup_insert_eq |]
  end.
  rewrite Hrun.
  exists w', latest, result.
  eexists _, row, tail.
  split; [by destruct out |].
  split; [done |]. split; [done |].
  rewrite Hta, Hsn, Hev, Hex. simpl.
  split; [by rewrite insert_insert_eq |]. simpl.
  repeat (split; [done |]).
  split; [by rewrite <- app_assoc |].
  split; [by rewrite insert_insert_eq |].
  split.
  - rewrite Hst. subst row0. by destruct (nextAction result).
  - rewrite Hco. subst row0. by destruct (nextAction result).
Qed.

(** One job in full, for an execution that exists. *)
Lemma worker_run (w : World) (agentName : string) (job : Job.t)
    (e : Execution.t) (email : Email.t) :
  executions w !! Job.data_executionId job = Some e →
  emails w !! Execution.emailId e = Some email →
  agentTasks w !! uuid_next w = None →
  ∃ out w' task row tail,
    AgentWorker.createAgentWorker createAgent agentName job w = (out, w') ∧
    agentTasks w' = <[uuid_next w := task]> (agentTasks w) ∧
    AgentTask.status task =
      (if success (stage_result createAgent agentName job e email w)
       then TASK_COMPLETED else TASK_FAILED) ∧
    AgentTask.errorMessage task =
      (if success (stage_result createAgent agentName job e email w) then None
       else match nextAction (stage_result createAgent agentName job e email w) with
            | FAIL error => Some error
            | _ => None
            end) ∧
    rfqSnapshots w' =
      rfqSnapshots w ++
      [RfqSnapshot.mk (S (uuid_next w)) (Job.data_executionId job) agentName OUTPUT
         (json_obj
            (mergeState (latest_state (Job.data_executionId job) w)
               (outputState (stage_result createAgent agentName job e email w))))
         (clock w)] ∧
    executions w' = <[Job.data_executionId job := row]> (executions w) ∧
    Execution.status row =
      AgentWorker.status_after
        (nextAction (stage_result createAgent agentName job e email w)) ∧
    Execution.currentAgent row =
      default (Execution.currentAgent e)
        (dispatched_agent (nextAction (stage_result createAgent agentName job e email w))) ∧
    Execution.metadata row =
      match nextAction (stage_result createAgent agentName job e email w) with
      | AWAIT_HUMAN reason fields =>
          json_obj (<["requiredFields" := AgentWorker.optional_strings fields]>
                      (<["awaitingReason" := VStr reason]> (Execution.metadata e)))
      | FAIL error => json_obj (<["error" := VStr error]> (Execution.metadata e))
      | _ => Execution.metadata e
      end ∧
    eventLog w' =
      eventLog w ++
      ((fun ev => Prisma.event_row ev (Job.data_executionId job) (Some (uuid_next w)))
         <$> events (stage_result createAgent agentName job e email w)) ++ tail ∧
    Forall (fun v => Event.executionId v = Job.data_executionId job) tail ∧
    Event.eventType <$> tail =
      transition_events (nextAction (stage_result createAgent agentName job e email w)) ∧
    jobs w' =
      match dispatched_agent
              (nextAction (stage_result createAgent agentName job e email w)) with
      | Some next =>
          if decide (next ∈ queues w)
          then <[next := QueueService.Queue_add
                           (Job.mk (QueueService.job_key (Job.data_executionId job)
                                      next (clock w))
                              next (Job.data_executionId job) 0)
                           (default [] (jobs w !! next))]> (jobs w)
          else jobs w
      | None => jobs w
      end ∧
    out =
      match dispatched_agent
              (nextAction (stage_result createAgent agentName job e email w)) with
      | Some next =>
          if decide (next ∈ queues w)
          then Returned (stage_result createAgent agentName job e email w)
          else Thrown (JsError ("Queue not found for agent: " +:+ next))
      | None => Returned (stage_result createAgent agentName job e email w)
      end ∧
    queues w' = queues w.
Proof.
  intros He Hemail Hfresh.
  unfold AgentWorker.createAgentWorker. unfold_services. rewrite He. simpl.
  rewrite Hemail, He. simpl. rewrite Hfresh. simpl.
  assert (Hlatest : head (take 1 (Prisma.snapshots_of (Job.data_executionId job) w))
                    = head (Prisma.snapshots_of (Job.data_executionId job) w))
    by (by destruct (Prisma.snapshots_of (Job.data_executionId job) w)).
  rewrite Hlatest. clear Hlatest.
  set (latest := head (Prisma.snapshots_of (Job.data_executionId job) w)).
  assert (Hcur : match latest with Some s => RfqSnapshot.data s | None => ∅ end
                 = default ∅ (RfqSnapshot.data <$> latest)) by (by destruct latest).
  rewrite Hcur. clear Hcur.
  set (result := createAgent agentName _).
  rewrite saveMany_appends. simpl. rewrite lookup_insert_eq. simpl.
  set (row0 := updated_execution _ (clock w) e).
  match goal with
  | |- context [AgentWorker.handleNextAction ?a ?i ?x ?n ?W] =>
      destruct (handleNextAction_run W a i x row0 n)
        as (out & w' & row & tail & Hrun & Hex & Hag & Hmd & Hev & Hall & Hty & Hjobs
            & Hout & Hqs);
      [simpl; by rewrite lookup_insert_eq |];
      destruct (handleNextAction_effects W a i x row0 n)
        as (out2 & w2 & row2 & tail2 & Hrun2 & Hex2 & Hst & _ & _ & Hsn & Hta & _);
      [simpl; by rewrite lookup_insert_eq |]
  end.
  rewrite Hrun in Hrun2. injection Hrun2 as <- <-.
  assert (row2 = row) as ->.
  { rewrite Hex in Hex2.
    apply (f_equal (fun m => m !! Job.data_executionId job)) in Hex2.
    rewrite !lookup_insert_eq in Hex2. congruence. }
  rewrite Hrun. simpl in Hjobs, Hout, Hev, Hta, Hsn, Hex.
  subst result. unfold stage_result, latest_state. fold latest.
  set (result := createAgent _ _) in *.
  destruct out as [[] | err]; simpl;
    eexists _, w', _, row, tail; (split; [reflexivity |]);
    rewrite Hta, Hsn, Hex, Hev, Hjobs; simpl;
    (split; [by rewrite insert_insert_eq |]); simpl;
    (split; [done |]); (split; [done |]); (split; [done |]);
    (split; [by rewrite insert_insert_eq |]);
    (split; [rewrite Hst; subst row0; by destruct (nextAction result) |]);
    (split; [rewrite Hag; by subst row0 |]);
    (split; [rewrite Hmd; subst row0; by destruct (nextAction result) |]);
    (split; [by rewrite <- app_assoc |]);
    (split; [exact Hall |]);
    (split; [exact Hty |]);
    (split; [done |]);
    (split; [| exact Hqs]);
    destruct (dispatched_agent (nextAction result)) as [next |]; [| done | | done];
    destruct (decide (next ∈ queues w)); congruence.
Qed.

(** C1 (as amended). The worker has no stale-job exit.  For every job whose
    Execution exists, whatever its status (COMPLETED, FAILED and CANCELLED
    included) and whatever its current stage, the worker changes the world:
    it creates one StageTask for the job's agent and attempt, marked COMPLETED
    or FAILED after the run by the success of the executor's result; it
    appends exactly one snapshot, of type OUTPUT, holding the stored mergeState
    of the latest state and the output state of the executor's result; it
    appends the events of the executor's result, followed by the event of the
    next action where it has one (HUMAN_INTERVENTION_REQUIRED,
    EXECUTION_COMPLETED or EXECUTION_FAILED; none for CONTINUE and SKIP); and
    it leaves the Execution row in the status of the
    executor's next action (PROCESSING for CONTINUE and SKIP).  The executor's
    result is the one returned for the context built from the Execution, its
    email and the latest state. *)
Theorem worker_has_no_stale_exit (w : World) (agentName : string) (job : Job.t)
    (e : Execution.t) (email : Email.t) :
  executions w !! Job.data_executionId job = Some e →
  emails w !! Execution.emailId e = Some email →
  agentTasks w !! uuid_next w = None →
  ∃ w' task row tail,
    (AgentWorker.createAgentWorker createAgent agentName job w).2 = w' ∧
    w' ≠ w ∧
    agentTasks w' = <[uuid_next w := task]> (agentTasks w) ∧
    AgentTask.executionId task = Job.data_executionId job ∧
    AgentTask.agentName task = agentName ∧
    AgentTask.attemptNumber task = S (Job.attemptsMade job) ∧
    AgentTask.status task =
      (if success (stage_result createAgent agentName job e email w)
       then TASK_COMPLETED else TASK_FAILED) ∧
    rfqSnapshots w' =
      rfqSnapshots w ++
      [RfqSnapshot.mk (S (uuid_next w)) (Job.data_executionId job) agentName OUTPUT
         (json_obj
            (mergeState (latest_state (Job.data_executionId job) w)
               (outputState (stage_result createAgent agentName job e email w))))
         (clock w)] ∧
    eventLog w' =
      eventLog w ++
      ((fun ev => Prisma.event_row ev (Job.data_executionId job) (Some (uuid_next w)))
         <$> events (stage_result createAgent agentName job e email w)) ++ tail ∧
    Event.eventType <$> tail =
      transition_events (nextAction (stage_result createAgent agentName job e email w)) ∧
    Forall (fun v => Event.executionId v = Job.data_executionId job) tail ∧
    executions w' = <[Job.data_executionId job := row]> (executions w) ∧
    Execution.status row =
      AgentWorker.status_after
        (nextAction (stage_result createAgent agentName job e email w)).
Proof.
  intros He Hemail Hfresh.
  destruct (worker_effects w agentName job e email He Hemail Hfresh)
    as (w' & latest & result & task & row & tail & Hrun & -> & -> & Htasks & Hte & Hta
        & Hat & Hts & Hsnap & Hev & Hex & Hst & _).
  destruct (worker_run w agentName job e email He Hemail Hfresh)
    as (out & w2 & task2 & row2 & tail2 & Hrun2 & _ & _ & _ & _ & _ & _ & _ & _ & Hev2
        & Hall & Hty & _).
  rewrite Hrun2 in Hrun. simpl in Hrun. subst w2.
  assert (tail2 = tail) as ->.
  { rewrite Hev in Hev2. apply app_inv_head in Hev2.
    unfold stage_result, latest_state in Hev2. apply app_inv_head in Hev2.
    by symmetry. }
  exists w', task, row, tail.
  split; [by rewrite Hrun2 |].
  split.
  { intros ->. rewrite Htasks, lookup_insert_eq in Hfresh. discriminate Hfresh. }
  split; [exact Htasks |]. split; [exact Hte |]. split; [exact Hta |].
  split; [exact Hat |]. split; [exact Hts |]. split; [exact Hsnap |].
  split; [exact Hev |]. split; [exact Hty |]. split; [exact Hall |].
  split; [exact Hex | exact Hst].
Qed.

(** A FAIL next action leaves completedAt as it was. *)
Lemma worker_FAIL_keeps_completedAt (w : World) (agentName : string) (job : Job.t)
    (e : Execution.t) (email : Email.t) (error : string) :
  executions w !! Job.data_executionId job = Some e →
  emails w !! Execution.emailId e = Some email →
  agentTasks w !! uuid_next w = None →
  nextAction
    (createAgent agentName
       (AgentWorker.build_context (Job.data_executionId job) e email
          (default ∅ (RfqSnapshot.data
                        <$> head (Prisma.snapshots_of (Job.data_executionId job) w)))
          job (cwd w))) = FAIL error →
  ∃ row,
    executions (AgentWorker.createAgentWorker createAgent agentName job w).2
      !! Job.data_executionId job = Some row ∧
    Execution.status row = FAILED ∧
    Execution.completedAt row = Execution.completedAt e.
Proof.
  intros He Hemail Hfresh Hfail.
  destruct (worker_effects w agentName job e email He Hemail Hfresh)
    as (w' & latest & result & task & row & tail & Hrun & -> & -> & _ & _ & _
        & _ & _ & _ & _ & Hex & Hst & Hco).
  rewrite Hfail in Hst, Hco. exists row. rewrite Hrun, Hex.
  by rewrite lookup_insert_eq.
Qed.

(** A COMPLETE next action sets completedAt. *)
Lemma worker_COMPLETE_sets_completedAt (w : World) (agentName : string)
    (job : Job.t) (e : Execution.t) (email : Email.t) :
  executions w !! Job.data_executionId job = Some e →
  emails w !! Execution.emailId e = Some email →
  agentTasks w !! uuid_next w = None →
  nextAction
    (createAgent agentName
       (AgentWorker.build_context (Job.data_executionId job) e email
          (default ∅ (RfqSnapshot.data
                        <$> head (Prisma.snapshots_of (Job.data_executionId job) w)))
          job (cwd w))) = COMPLETE →
  ∃ row,
    executions (AgentWorker.createAgentWorker createAgent agentName job w).2
      !! Job.data_executionId job = Some row ∧
    Execution.status row = COMPLETED ∧
    Execution.completedAt row = Some (clock w).
Proof.
  intros He Hemail Hfresh Hdone.
  destruct (worker_effects w agentName job e email He Hemail Hfresh)
    as (w' & latest & result & task & row & tail & Hrun & -> & -> & _ & _ & _
        & _ & _ & _ & _ & Hex & Hst & Hco).
  rewrite Hdone in Hst, Hco. exists row. rewrite Hrun, Hex.
  by rewrite lookup_insert_eq.
Qed.

End WorkerClaims.

(** C1 at a CANCELLED execution whose stage is not the job's. *)
Lemma worker_has_no_stale_exit_witness :
  ∃ w',
    (AgentWorker.createAgentWorker (Q := engine_scan) (agent_returning result_continue)
       "intake" job_intake (world_of (execution1 CANCELLED "mto") [])).2 = w' ∧
    w' ≠ world_of (execution1 CANCELLED "mto") [] ∧
    Execution.status <$> executions w' !! 1%nat = Some PROCESSING.
Proof.
  destruct (worker_has_no_stale_exit (Q := engine_scan)
              (agent_returning result_continue)
              (world_of (execution1 CANCELLED "mto") []) "intake" job_intake
              (execution1 CANCELLED "mto") email0)
    as (w' & task & row & tail & Hrun & Hne & _).
  - reflexivity.
  - reflexivity.
  - reflexivity.
  - exists w'. split; [exact Hrun |]. split; [exact Hne |].
    rewrite <- Hrun. vm_compute. reflexivity.
Defined.

(** C1, the claim as stated fails: execution 1 is COMPLETED and its current
    stage is auto-quote; a job of the intake queue for it is processed like
    any other: the row goes back to PROCESSING at missing-info, a StageTask
    and a snapshot are written and a job is put on the next queue. *)
Lemma stale_job_is_processed :
  ∃ e w w',
    w = world_of (execution1 COMPLETED "auto-quote") [] ∧
    executions w !! 1%nat = Some e ∧
    Execution.status e = COMPLETED ∧
    Execution.currentAgent e ≠ "intake" ∧
    (AgentWorker.createAgentWorker (Q := engine_scan) (agent_returning result_continue)
       "intake" job_intake w).2 = w' ∧
    Execution.status <$> executions w' !! 1%nat = Some PROCESSING ∧
    Execution.currentAgent <$> executions w' !! 1%nat = Some "missing-info" ∧
    size (agentTasks w') = 1%nat ∧
    length (rfqSnapshots w') = 1%nat ∧
    length (QueueService.queue_jobs "missing-info" w') = 1%nat ∧
    w' ≠ w.
Proof.
  eexists _, _, _. split; [reflexivity |]. split; [reflexivity |].
  split; [reflexivity |]. split; [discriminate |]. split; [reflexivity |].
  split; [vm_compute; reflexivity |]. split; [vm_compute; reflexivity |].
  split; [vm_compute; reflexivity |]. split; [vm_compute; reflexivity |].
  split; [vm_compute; reflexivity |].
  intros H. apply (f_equal (fun x => length (rfqSnapshots x))) in H.
  vm_compute in H. discriminate H.
Qed.

(** C2, at the failing input: execution 1 is PROCESSING at intake with no
    completedAt; the intake executor returns FAIL; the worker returns, and the
    row is FAILED with completedAt still unset. *)
Theorem failed_execution_without_completedAt :
  ∃ w w' row,
    w = world_of (execution1 PROCESSING "intake") [] ∧
    AgentWorker.createAgentWorker (Q := engine_scan) (agent_returning result_fail)
      "intake" job_intake w = (Returned result_fail, w') ∧
    executions w' !! 1%nat = Some row ∧
    Execution.status row = FAILED ∧
    Execution.completedAt row = None.
Proof.
  eexists _, _, _. split; [reflexivity |].
  split; [vm_compute; reflexivity |].
  split; [vm_compute; reflexivity |].
  split; reflexivity.
Qed.

(** [updateStatus] sets completedAt for each of the three terminal statuses. *)
Lemma updateStatus_terminal_sets_completedAt (w : World) (executionId : nat)
    (status : ExecutionStatus) (metadata : option obj) (e : Execution.t) :
  executions w !! executionId = Some e →
  is_terminal status = true →
  ∃ row w',
    ExecutionService.updateStatus executionId status metadata w = (Returned row, w') ∧
    executions w' !! executionId = Some row ∧
    Execution.status row = status ∧
    Execution.completedAt row = Some (clock w).
Proof.
  intros He Hterm. unfold ExecutionService.updateStatus. rewrite Hterm.
  unfold_services. destruct metadata as [m|]; simpl; rewrite He; simpl.
  - eexists _, _. split; [reflexivity |]. simpl.
    by rewrite lookup_insert_eq.
  - eexists _, _. split; [reflexivity |]. simpl. by rewrite lookup_insert_eq.
Qed.


(** ** Two runs of the pipeline *)

(** create: the execution is PENDING at intake, one EXECUTION_CREATED event,
    one job on the intake queue. *)
Example scenario_created :
  (Execution.status <$> executions world_created !! 1%nat) = Some PENDING ∧
  (Execution.currentAgent <$> executions world_created !! 1%nat) = Some "intake" ∧
  Event.eventType <$> eventLog world_created = ["EXECUTION_CREATED"] ∧
  Job.id <$> QueueService.queue_jobs "intake" world_created = ["1-intake-5000"].
Proof. repeat split; vm_compute; reflexivity. Qed.

(** intake returns CONTINUE(missing-info), missing-info returns COMPLETE: the
    execution is COMPLETED with completedAt set, and EXECUTION_COMPLETED is the
    last event. *)
Example scenario_completed :
  (Execution.status <$> executions world_completed !! 1%nat) = Some COMPLETED ∧
  (Execution.currentAgent <$> executions world_completed !! 1%nat) = Some "missing-info" ∧
  (Execution.completedAt <$> executions world_completed !! 1%nat) = Some (Some 5200) ∧
  Event.eventType <$> eventLog world_completed
    = ["EXECUTION_CREATED"; "EXECUTION_COMPLETED"] ∧
  RfqSnapshot.snapshotType <$> rfqSnapshots world_completed = [OUTPUT; OUTPUT] ∧
  Job.id <$> QueueService.queue_jobs "missing-info" world_completed
    = ["1-missing-info-5100"].
Proof. repeat split; vm_compute; reflexivity. Qed.

(** missing-info returns AWAIT_HUMAN: the execution is parked with the reason
    in its metadata and no further job. *)
Example scenario_parked :
  (Execution.status <$> executions world_parked !! 1%nat) = Some AWAITING_HUMAN ∧
  ((fun e => get (Execution.metadata e) "awaitingReason")
     <$> executions world_parked !! 1%nat) = Some (VStr "missing field timeline") ∧
  Job.id <$> QueueService.queue_jobs "duplicate" world_parked = [].
Proof. repeat split; vm_compute; reflexivity. Qed.

(** resume with an updated state: a HUMAN_UPDATE snapshot merges the update
    into the prior state, the execution is PROCESSING at missing-info and a
    new job for missing-info is queued. *)
Example scenario_resumed :
  (Execution.status <$> executions world_resumed !! 1%nat) = Some PROCESSING ∧
  (Execution.currentAgent <$> executions world_resumed !! 1%nat) = Some "missing-info" ∧
  RfqSnapshot.snapshotType <$> rfqSnapshots world_resumed
    = [OUTPUT; OUTPUT; HUMAN_UPDATE] ∧
  ((fun s => get (RfqSnapshot.data s) "timeline") <$> last (rfqSnapshots world_resumed))
    = Some (VStr "Q3") ∧
  ((fun s => get (RfqSnapshot.data s) "parsedData") <$> last (rfqSnapshots world_resumed))
    = Some (VObj {[ "customerName" := VStr "ACME" ]}) ∧
  Job.id <$> QueueService.queue_jobs "missing-info" world_resumed
    = ["1-missing-info-5100"; "1-missing-info-5300"].
Proof. repeat split; vm_compute; reflexivity. Qed.

(** * Further properties of the services *)

(** ** ExecutionService.create *)

(** X1. create for an email that does not exist throws NotFoundError for the
    resource Email and writes nothing. *)
Theorem create_unknown_email_rejected (w : World) (input : CreateExecutionInput) :
  emails w !! input_emailId input = None →
  ExecutionService.create input w =
    (Thrown (NotFoundError "Email" (Some (id_str (input_emailId input)))), w).
Proof.
  intros Hnone. unfold ExecutionService.create, bind, Prisma.email_findUnique, gets.
  by rewrite Hnone.
Qed.

(** X1 at email 7, which the sample world does not hold. *)
Lemma create_unknown_email_rejected_witness :
  ExecutionService.create
    {| input_emailId := 7; input_externalRef := None; input_metadata := None |}
    world_start =
  (Thrown (NotFoundError "Email" (Some "7")), world_start).
Proof.
  apply (create_unknown_email_rejected world_start
           {| input_emailId := 7; input_externalRef := None; input_metadata := None |}).
  reflexivity.
Defined.

(** X2. create for an existing email, with the intake queue opened, returns the
    new identifier; the only writes are the new row (PENDING at intake, the
    given metadata or {} as stored, no completedAt), one EXECUTION_CREATED
    event carrying the email id, and one job on the intake queue. *)
Theorem create_starts_at_intake (w : World) (input : CreateExecutionInput)
    (email : Email.t) :
  emails w !! input_emailId input = Some email →
  executions w !! uuid_next w = None →
  "intake" ∈ queues w →
  ∃ w',
    ExecutionService.create input w = (Returned (uuid_next w), w') ∧
    executions w' =
      <[uuid_next w :=
          Execution.mk (uuid_next w) (input_emailId input) (input_externalRef input)
            PENDING "intake" (json_obj (default ∅ (input_metadata input)))
            (clock w) (clock w) None]> (executions w) ∧
    eventLog w' =
      eventLog w ++
      [Event.mk (S (uuid_next w)) (uuid_next w) None "EXECUTION_CREATED"
         {[ "emailId" := VStr (id_str (input_emailId input)) ]} (clock w)] ∧
    QueueService.queue_jobs "intake" w' =
      QueueService.Queue_add
        (Job.mk (QueueService.job_key (uuid_next w) "intake" (clock w)) "intake"
           (uuid_next w) 0)
        (QueueService.queue_jobs "intake" w) ∧
    rfqSnapshots w' = rfqSnapshots w ∧
    agentTasks w' = agentTasks w.
Proof.
  intros Hemail Hfresh Hqueue.
  unfold ExecutionService.create. unfold_services. rewrite Hemail. simpl.
  rewrite Hfresh. simpl. rewrite (decide_True _ _ Hqueue). simpl.
  eexists. split; [reflexivity |]. simpl.
  unfold QueueService.queue_jobs, Prisma.event_row, domain_event. simpl.
  rewrite lookup_insert_eq, json_obj_singleton_string. done.
Qed.

(** X2 at email 0 of the sample world, after initialize. *)
Lemma create_starts_at_intake_witness :
  ∃ w',
    ExecutionService.create
      {| input_emailId := 0; input_externalRef := None; input_metadata := None |}
      (QueueService.initialize world_start).2 = (Returned 1%nat, w') ∧
    Execution.status <$> executions w' !! 1%nat = Some PENDING.
Proof.
  destruct (create_starts_at_intake (QueueService.initialize world_start).2
              {| input_emailId := 0; input_externalRef := None; input_metadata := None |}
              email0) as (w' & Hrun & Hex & _).
  - reflexivity.
  - reflexivity.
  - vm_compute. reflexivity.
  - exists w'. split; [exact Hrun |]. rewrite Hex. reflexivity.
Defined.

(** X3. create while the intake queue is not opened (QueueService not
    initialised) throws the queue error only after the row and the event are
    written: the new execution stays PENDING at intake with no job. *)
Theorem create_without_queue_leaves_orphan (w : World) (input : CreateExecutionInput)
    (email : Email.t) :
  emails w !! input_emailId input = Some email →
  executions w !! uuid_next w = None →
  "intake" ∉ queues w →
  ∃ w' row,
    ExecutionService.create input w =
      (Thrown (JsError "Queue not found for agent: intake"), w') ∧
    executions w' !! uuid_next w = Some row ∧
    Execution.status row = PENDING ∧
    Execution.currentAgent row = "intake" ∧
    length (eventLog w') = S (length (eventLog w)) ∧
    jobs w' = jobs w.
Proof.
  intros Hemail Hfresh Hqueue.
  unfold ExecutionService.create. unfold_services. rewrite Hemail. simpl.
  rewrite Hfresh. simpl. rewrite (decide_False _ _ Hqueue). simpl.
  eexists _, _. split; [reflexivity |]. simpl.
  rewrite lookup_insert_eq, length_app. simpl.
  repeat split; [done.. | lia].
Qed.

(** X3 at the sample world before initialize. *)
Lemma create_without_queue_leaves_orphan_witness :
  ∃ w',
    ExecutionService.create
      {| input_emailId := 0; input_externalRef := None; input_metadata := None |}
      world_start = (Thrown (JsError "Queue not found for agent: intake"), w') ∧
    Execution.status <$> executions w' !! 1%nat = Some PENDING ∧
    jobs w' = jobs world_start.
Proof.
  destruct (create_without_queue_leaves_orphan world_start
              {| input_emailId := 0; input_externalRef := None; input_metadata := None |}
              email0) as (w' & row & Hrun & Hrow & Hst & _ & _ & Hjobs).
  - reflexivity.
  - reflexivity.
  - vm_compute. discriminate.
  - exists w'. split; [exact Hrun |]. split; [| exact Hjobs].
    change (uuid_next world_start) with 1%nat in Hrow. rewrite Hrow. simpl.
    by rewrite Hst.
Defined.

(** ** Unknown executions and invalid agents *)

Section UnknownExecution.
Context {Q : QueryEngine}.

(** X4. resume, replay and cancel on an identifier that names no execution
    each throw NotFoundError for the resource Execution and write nothing;
    for replay this comes before the check of the agent name. *)
Theorem unknown_execution_rejected (w : World) (executionId : nat)
    (options : ResumeOptions) (fromAgent : string) :
  executions w !! executionId = None →
  ExecutionService.resume executionId options w =
    (Thrown (NotFoundError "Execution" (Some (id_str executionId))), w) ∧
  ExecutionService.replay executionId fromAgent w =
    (Thrown (NotFoundError "Execution" (Some (id_str executionId))), w) ∧
  ExecutionService.cancel executionId w =
    (Thrown (NotFoundError "Execution" (Some (id_str executionId))), w).
Proof.
  intros Hnone.
  unfold ExecutionService.resume, ExecutionService.replay, ExecutionService.cancel,
    bind, Prisma.execution_findUnique, gets.
  by rewrite Hnone.
Qed.

(** X5. replay of an existing execution from a name that is not in
    AGENT_PIPELINE throws ValidationError and writes nothing: no fork, no
    snapshot, no event, no job. *)
Theorem replay_invalid_agent_rejected (w : World) (executionId : nat)
    (fromAgent : string) (e : Execution.t) :
  executions w !! executionId = Some e →
  fromAgent ∉ AGENT_PIPELINE →
  ExecutionService.replay executionId fromAgent w =
    (Thrown (ValidationError ("Invalid agent name: " +:+ fromAgent)), w).
Proof.
  intros He Hbad.
  unfold ExecutionService.replay, bind, Prisma.execution_findUnique, gets.
  rewrite He. by rewrite decide_False.
Qed.

End UnknownExecution.

(** X4 at identifier 9 of a world that holds execution 1 only. *)
Lemma unknown_execution_rejected_witness :
  ExecutionService.cancel 9 (world_of (execution1 PROCESSING "intake") []) =
    (Thrown (NotFoundError "Execution" (Some "9")),
     world_of (execution1 PROCESSING "intake") []).
Proof.
  apply (unknown_execution_rejected (Q := engine_scan)
           (world_of (execution1 PROCESSING "intake") []) 9 no_options "intake").
  reflexivity.
Defined.

(** X5 at the name human, which is a snapshot author and no pipeline agent. *)
Lemma replay_invalid_agent_rejected_witness :
  ExecutionService.replay (Q := engine_scan) 1 "human"
    (world_of (execution1 PROCESSING "intake") []) =
  (Thrown (ValidationError "Invalid agent name: human"),
   world_of (execution1 PROCESSING "intake") []).
Proof.
  apply (replay_invalid_agent_rejected (Q := engine_scan)
           (world_of (execution1 PROCESSING "intake") []) 1 "human"
           (execution1 PROCESSING "intake")).
  - reflexivity.
  - unfold AGENT_PIPELINE. rewrite !elem_of_cons, elem_of_nil.
    intros [H | [H | [H | [H | [H | [H | H]]]]]]; try discriminate H. exact H.
Defined.

(** ** Repeated and competing transitions *)

(** The world after a cancel that is accepted. *)
Lemma cancel_accepted (w : World) (executionId : nat) (e : Execution.t) :
  executions w !! executionId = Some e →
  Execution.status e ≠ COMPLETED →
  Execution.status e ≠ CANCELLED →
  ExecutionService.cancel executionId w =
    (Returned tt,
     with_eventLog
       (fun l => l ++ [Event.mk (uuid_next w) executionId None
                         "EXECUTION_CANCELLED" ∅ (clock w)])
       (with_uuid_next (S (uuid_next w))
          (with_executions
             (insert executionId
                (updated_execution
                   {| set_status := Some CANCELLED; set_currentAgent := None;
                      set_metadata := None; set_completedAt := Some (clock w) |}
                   (clock w) e)) w))).
Proof.
  intros He Hc Hx. unfold ExecutionService.cancel. unfold_services. rewrite He.
  destruct (decide (Execution.status e = COMPLETED ∨ Execution.status e = CANCELLED))
    as [[Hd | Hd] | Hd]; [done | done |].
  simpl. rewrite He. simpl.
  unfold Prisma.event_row, domain_event. simpl. by rewrite json_obj_empty.
Qed.

(** A job leaves the rows of the other executions as they were, also when it
    throws. *)
Lemma worker_keeps_other_rows {Q : QueryEngine}
    (createAgent : string → AgentContext → AgentResult) (w : World)
    (agentName : string) (job : Job.t) (other : nat) :
  other ≠ Job.data_executionId job →
  executions (AgentWorker.createAgentWorker createAgent agentName job w).2 !! other
  = executions w !! other.
Proof.
  intros Hother.
  destruct (executions w !! Job.data_executionId job) as [e |] eqn:He.
  - destruct (emails w !! Execution.emailId e) as [email |] eqn:Hemail.
    + destruct (agentTasks w !! uuid_next w) as [task |] eqn:Hfresh.
      * unfold AgentWorker.createAgentWorker. unfold_services. rewrite He. simpl.
        rewrite Hemail, He. simpl. rewrite Hfresh. simpl.
        by rewrite lookup_insert_ne.
      * destruct (worker_effects createAgent w agentName job e email He Hemail Hfresh)
          as (w' & latest & result & task & row & tail & Hrun & _ & _ & _ & _ & _
              & _ & _ & _ & _ & Hex & _).
        rewrite Hrun, Hex. by rewrite lookup_insert_ne.
    + unfold AgentWorker.createAgentWorker. unfold_services. rewrite He. simpl.
      rewrite Hemail, He. simpl. by rewrite lookup_insert_ne.
  - unfold AgentWorker.createAgentWorker. unfold_services. by rewrite He.
Qed.

(** An operation that is neither a job of execution [i] nor updateStatus on
    it leaves the row of [i] in place, its status changed at most as resume
    and cancel change it. *)
Lemma perform_row {Q : QueryEngine}
    (createAgent : string → AgentContext → AgentResult) (op : Operation)
    (w : World) (i : nat) (e : Execution.t) :
  ¬ sets_status_of i op →
  executions w !! i = Some e →
  ∃ e', executions (perform createAgent op w) !! i = Some e'
        ∧ guarded_step (Execution.status e) (Execution.status e').
Proof.
  intros Hop He.
  assert (Hsame : ∃ e', executions w !! i = Some e'
                        ∧ guarded_step (Execution.status e) (Execution.status e'))
    by (exists e; split; [exact He | by left]).
  destruct op as [input | i' options | i' fromAgent | i' | i' status metadata
                 | i' agentName | | agentName job | t]; simpl in *.
  - (* create *)
    unfold ExecutionService.create. unfold_services.
    destruct (emails w !! input_emailId input); [| exact Hsame]. simpl.
    destruct (executions w !! uuid_next w) eqn:Hnew; [exact Hsame |]. simpl.
    assert (uuid_next w ≠ i) by (intros Heq; rewrite Heq in Hnew; congruence).
    destruct (decide ("intake" ∈ queues w)); simpl;
      rewrite lookup_insert_ne by done; exact Hsame.
  - (* resume *)
    unfold ExecutionService.resume. unfold_services.
    destruct (executions w !! i') as [x |] eqn:Hx; [| exact Hsame].
    destruct (decide (Execution.status x ≠ AWAITING_HUMAN)) as [Hs | Hs];
      [exact Hsame |].
    assert (Execution.status x = AWAITING_HUMAN) as Hawait
      by (destruct (Execution.status x); try done; by destruct Hs).
    destruct (decide (i' = i)) as [-> | Hne].
    + assert (x = e) as -> by congruence.
      destruct (updatedState options) as [updates |]; simpl; rewrite He; simpl;
        destruct (decide (ExecutionService.target_agent options e ∈ queues w));
        simpl; rewrite lookup_insert_eq; eexists; (split; [reflexivity |]);
        simpl; right; left; done.
    + destruct (updatedState options) as [updates |]; simpl; rewrite Hx; simpl;
        destruct (decide (ExecutionService.target_agent options x ∈ queues w));
        simpl; rewrite lookup_insert_ne by done; exact Hsame.
  - (* replay *)
    unfold ExecutionService.replay. unfold_services.
    destruct (executions w !! i') as [x |]; [| exact Hsame].
    destruct (decide (fromAgent ∈ AGENT_PIPELINE)); [| exact Hsame]. simpl.
    destruct (executions w !! uuid_next w) eqn:Hnew; [exact Hsame |]. simpl.
    assert (uuid_next w ≠ i) by (intros Heq; rewrite Heq in Hnew; congruence).
    destruct (take 1 (Prisma.snapshots_matching i' fromAgent INPUT w)); simpl;
      destruct (decide (fromAgent ∈ queues w)); simpl;
      rewrite lookup_insert_ne by done; exact Hsame.
  - (* cancel *)
    unfold ExecutionService.cancel. unfold_services.
    destruct (executions w !! i') as [x |] eqn:Hx; [| exact Hsame].
    destruct (decide (Execution.status x = COMPLETED
                      ∨ Execution.status x = CANCELLED)) as [Hd | Hd];
      [exact Hsame |].
    simpl. rewrite Hx. simpl.
    destruct (decide (i' = i)) as [-> | Hne].
    + assert (x = e) as -> by congruence.
      rewrite lookup_insert_eq. eexists. split; [reflexivity |].
      simpl. right. right. split; [tauto |]. split; [tauto | done].
    + rewrite lookup_insert_ne by done. exact Hsame.
  - (* updateStatus on another execution *)
    assert (i' ≠ i) as Hne by (intros ->; by apply Hop).
    unfold ExecutionService.updateStatus. unfold_services.
    destruct (is_terminal status); destruct metadata as [m |]; simpl;
      destruct (executions w !! i'); simpl; try exact Hsame;
      rewrite lookup_insert_ne by done; exact Hsame.
  - (* updateCurrentAgent *)
    unfold ExecutionService.updateCurrentAgent. unfold_services.
    destruct (executions w !! i') as [x |] eqn:Hx; [| exact Hsame]. simpl.
    destruct (decide (i' = i)) as [-> | Hne].
    + assert (x = e) as -> by congruence.
      rewrite lookup_insert_eq. eexists. split; [reflexivity |]. by left.
    + rewrite lookup_insert_ne by done. exact Hsame.
  - (* initialize *)
    unfold QueueService.initialize. unfold_services.
    by destruct (initialized w).
  - (* a job of another execution *)
    assert (i ≠ Job.data_executionId job) as Hne by (intros ->; by apply Hop).
    rewrite (worker_keeps_other_rows createAgent w agentName job i Hne).
    exact Hsame.
  - exact Hsame.
Qed.

(** A set of statuses that resume and cancel cannot leave is kept by every
    sequence of such operations. *)
Lemma perform_all_keeps {Q : QueryEngine}
    (createAgent : string → AgentContext → AgentResult)
    (P : ExecutionStatus → Prop) (ops : list Operation) (w : World) (i : nat)
    (e : Execution.t) :
  (∀ s s', P s → guarded_step s s' → P s') →
  Forall (fun op => ¬ sets_status_of i op) ops →
  executions w !! i = Some e →
  P (Execution.status e) →
  ∃ e', executions (perform_all createAgent ops w) !! i = Some e'
        ∧ P (Execution.status e').
Proof.
  intros Hclosed Hops. revert w e.
  induction Hops as [| op ops Hop _ IH]; intros w e He HP.
  - by exists e.
  - destruct (perform_row createAgent op w i e Hop He) as (e1 & He1 & Hstep).
    apply (IH (perform createAgent op w) e1 He1).
    by apply (Hclosed (Execution.status e)).
Qed.

Section Competing.
Context {Q : QueryEngine}.
Context (createAgent : string → AgentContext → AgentResult).

(** X6. Once a cancel is accepted, the execution stays cancelled for as long
    as no job of that execution runs and updateStatus is not called on it:
    after any sequence of create, resume, replay, cancel and
    updateCurrentAgent calls (on this or any other execution), updateStatus
    calls on other executions, jobs of other executions, queue
    initialisation and passing of time, a cancel and a resume of the
    execution are both rejected with ValidationError naming the status
    CANCELLED and write nothing.  (A job of the execution itself is excluded:
    the worker sets PROCESSING whatever the status was.) *)
Theorem cancelled_execution_stays_cancelled (w : World) (executionId : nat)
    (e : Execution.t) (options : ResumeOptions) (ops : list Operation) :
  executions w !! executionId = Some e →
  Execution.status e ≠ COMPLETED →
  Execution.status e ≠ CANCELLED →
  Forall (fun op => ¬ sets_status_of executionId op) ops →
  ExecutionService.cancel executionId
    (perform_all createAgent ops (ExecutionService.cancel executionId w).2) =
    (Thrown (ValidationError "Cannot cancel execution with status: CANCELLED"),
     perform_all createAgent ops (ExecutionService.cancel executionId w).2) ∧
  ExecutionService.resume executionId options
    (perform_all createAgent ops (ExecutionService.cancel executionId w).2) =
    (Thrown (ValidationError
               "Execution is not awaiting human input. Current status: CANCELLED"),
     perform_all createAgent ops (ExecutionService.cancel executionId w).2).
Proof.
  intros He Hc Hx Hops.
  destruct (perform_all_keeps createAgent (fun s => s = CANCELLED) ops
              (ExecutionService.cancel executionId w).2 executionId
              (updated_execution
                 {| set_status := Some CANCELLED; set_currentAgent := None;
                    set_metadata := None; set_completedAt := Some (clock w) |}
                 (clock w) e))
    as (e' & He' & Hs').
  - intros s s' -> [-> | [[H _] | (_ & H & _)]]; [done | discriminate H | done].
  - exact Hops.
  - rewrite (cancel_accepted w executionId e He Hc Hx). simpl.
    by rewrite lookup_insert_eq.
  - reflexivity.
  - set (later := perform_all createAgent ops _) in *.
    unfold ExecutionService.cancel, ExecutionService.resume, bind,
      Prisma.execution_findUnique, gets, throw.
    rewrite He'. rewrite Hs'. simpl. done.
Qed.

End Competing.

(** X6 at an execution cancelled while PROCESSING; afterwards another
    execution is created, time passes and the cancelled one is resumed. *)
Lemma cancelled_execution_stays_cancelled_witness :
  ExecutionService.cancel 1
    (perform_all (Q := engine_scan) (agent_returning result_continue)
       [OpCreate {| input_emailId := 0; input_externalRef := None;
                    input_metadata := None |};
        OpTick 6500; OpResume 1 no_options]
       (ExecutionService.cancel 1 (world_of (execution1 PROCESSING "mto") [])).2) =
  (Thrown (ValidationError "Cannot cancel execution with status: CANCELLED"),
   perform_all (Q := engine_scan) (agent_returning result_continue)
     [OpCreate {| input_emailId := 0; input_externalRef := None;
                  input_metadata := None |};
      OpTick 6500; OpResume 1 no_options]
     (ExecutionService.cancel 1 (world_of (execution1 PROCESSING "mto") [])).2).
Proof.
  apply (cancelled_execution_stays_cancelled (Q := engine_scan)
           (agent_returning result_continue)
           (world_of (execution1 PROCESSING "mto") []) 1
           (execution1 PROCESSING "mto") no_options
           [OpCreate {| input_emailId := 0; input_externalRef := None;
                        input_metadata := None |};
            OpTick 6500; OpResume 1 no_options]).
  - reflexivity.
  - discriminate.
  - discriminate.
  - repeat constructor; simpl; tauto.
Defined.

(** The execution table after a resume that is accepted. *)
Lemma resume_accepted_row {Q : QueryEngine} (w : World) (executionId : nat)
    (options : ResumeOptions) (e : Execution.t) :
  executions w !! executionId = Some e →
  Execution.status e = AWAITING_HUMAN →
  ExecutionService.target_agent options e ∈ queues w →
  ∃ w',
    ExecutionService.resume executionId options w = (Returned tt, w') ∧
    executions w' =
      <[executionId :=
          updated_execution
            {| set_status := Some PROCESSING;
               set_currentAgent := Some (ExecutionService.target_agent options e);
               set_metadata := None; set_completedAt := None |}
            (clock w) e]> (executions w) ∧
    jobs w' =
      <[ExecutionService.target_agent options e :=
          QueueService.Queue_add
            (Job.mk (QueueService.job_key executionId
                       (ExecutionService.target_agent options e) (clock w))
               (ExecutionService.target_agent options e) executionId 0)
            (default [] (jobs w !! ExecutionService.target_agent options e))]>
        (jobs w).
Proof.
  intros He Hs Hqueue.
  unfold ExecutionService.resume. unfold_services. rewrite He.
  rewrite decide_False by (intros H; by apply H).
  destruct (updatedState options) as [updates|]; simpl; rewrite He; simpl;
    rewrite (decide_True _ _ Hqueue); simpl;
    eexists; (split; [reflexivity |]); done.
Qed.

Section ResumeOnce.
Context {Q : QueryEngine}.
Context (createAgent : string → AgentContext → AgentResult).

(** X7. After a resume that is accepted, the execution cannot be resumed
    again for as long as no job of that execution runs and updateStatus is
    not called on it: after any sequence of create, resume, replay, cancel
    and updateCurrentAgent calls (on this or any other execution),
    updateStatus calls on other executions, jobs of other executions, queue
    initialisation and passing of time, every resume of it, whatever its
    options, throws ValidationError naming the status PROCESSING (or
    CANCELLED, if it was cancelled meanwhile) and writes nothing, so it
    queues no second job.  (Once a job of the execution has parked it again,
    it can be resumed again.) *)
Theorem resumed_execution_not_resumable_again (w : World) (executionId : nat)
    (options again : ResumeOptions) (e : Execution.t) (ops : list Operation) :
  executions w !! executionId = Some e →
  Execution.status e = AWAITING_HUMAN →
  ExecutionService.target_agent options e ∈ queues w →
  Forall (fun op => ¬ sets_status_of executionId op) ops →
  (ExecutionService.resume executionId options w).1 = Returned tt ∧
  ∃ s,
    (s = PROCESSING ∨ s = CANCELLED) ∧
    ExecutionService.resume executionId again
      (perform_all createAgent ops
         (ExecutionService.resume executionId options w).2) =
      (Thrown (ValidationError
                 ("Execution is not awaiting human input. Current status: "
                    +:+ status_str s)),
       perform_all createAgent ops
         (ExecutionService.resume executionId options w).2).
Proof.
  intros He Hs Hqueue Hops.
  destruct (resume_accepted_row w executionId options e He Hs Hqueue)
    as (w' & Hrun & Hex & _).
  rewrite Hrun. simpl. split; [done |].
  destruct (perform_all_keeps createAgent
              (fun s => s = PROCESSING ∨ s = CANCELLED) ops w' executionId
              (updated_execution
                 {| set_status := Some PROCESSING;
                    set_currentAgent := Some (ExecutionService.target_agent options e);
                    set_metadata := None; set_completedAt := None |}
                 (clock w) e))
    as (e' & He' & Hs').
  - intros s s' [-> | ->] [-> | [[H _] | (_ & H & ->)]];
      try discriminate H; try done; by (left + right).
  - exact Hops.
  - by rewrite Hex, lookup_insert_eq.
  - by left.
  - exists (Execution.status e'). split; [exact Hs' |].
    set (later := perform_all createAgent ops w') in *.
    unfold ExecutionService.resume, bind, Prisma.execution_findUnique, gets, throw.
    rewrite He'. rewrite decide_True; [done |].
    destruct Hs' as [-> | ->]; discriminate.
Qed.

End ResumeOnce.

(** X7 at an execution parked at missing-info and resumed; afterwards a job
    of another execution runs, the resumed one is cancelled and time passes. *)
Lemma resumed_execution_not_resumable_again_witness :
  ∃ s,
    (s = PROCESSING ∨ s = CANCELLED) ∧
    ExecutionService.resume (Q := engine_scan) 1 no_options
      (perform_all (Q := engine_scan) (agent_returning result_continue)
         [OpJob "intake" (Job.mk "2-intake-5000" "intake" 2 0); OpCancel 1;
          OpTick 6700]
         (ExecutionService.resume (Q := engine_scan) 1 human_update
            (world_of (execution1 AWAITING_HUMAN "missing-info")
               [snapshot_first])).2) =
    (Thrown (ValidationError
               ("Execution is not awaiting human input. Current status: "
                  +:+ status_str s)),
     perform_all (Q := engine_scan) (agent_returning result_continue)
       [OpJob "intake" (Job.mk "2-intake-5000" "intake" 2 0); OpCancel 1;
        OpTick 6700]
       (ExecutionService.resume (Q := engine_scan) 1 human_update
          (world_of (execution1 AWAITING_HUMAN "missing-info")
             [snapshot_first])).2).
Proof.
  apply (resumed_execution_not_resumable_again (Q := engine_scan)
           (agent_returning result_continue)
           (world_of (execution1 AWAITING_HUMAN "missing-info") [snapshot_first])
           1 human_update no_options
           (execution1 AWAITING_HUMAN "missing-info")
           [OpJob "intake" (Job.mk "2-intake-5000" "intake" 2 0); OpCancel 1;
            OpTick 6700]).
  - reflexivity.
  - reflexivity.
  - vm_compute. reflexivity.
  - repeat constructor; simpl; (tauto || discriminate).
Defined.

(** ** ExecutionService.updateStatus *)

(** X8. updateStatus on an existing execution sets the status; it sets
    completedAt to the time of the call exactly when the status is COMPLETED,
    FAILED or CANCELLED and otherwise leaves completedAt as it was (a terminal
    execution moved back to PROCESSING keeps its old completedAt); given
    metadata is laid over the stored metadata key by key; currentAgent is kept
    and no other table is written.  On an unknown identifier it throws the
    record-not-found error P2025 and writes nothing. *)
Theorem updateStatus_row (w : World) (executionId : nat) (status : ExecutionStatus)
    (metadata : option obj) :
  match executions w !! executionId with
  | None =>
      ExecutionService.updateStatus executionId status metadata w
        = (Thrown Prisma.P2025, w)
  | Some e =>
      ∃ row w',
        ExecutionService.updateStatus executionId status metadata w
          = (Returned row, w') ∧
        w' = with_executions (insert executionId row) w ∧
        Execution.status row = status ∧
        Execution.completedAt row =
          (if is_terminal status then Some (clock w) else Execution.completedAt e) ∧
        Execution.metadata row =
          match metadata with
          | Some m => json_obj (spread2 (Execution.metadata e) m)
          | None => Execution.metadata e
          end ∧
        Execution.currentAgent row = Execution.currentAgent e
  end.
Proof.
  destruct (executions w !! executionId) as [e|] eqn:He.
  - unfold ExecutionService.updateStatus. unfold_services.
    destruct (is_terminal status), metadata as [m|]; simpl; rewrite ?He; simpl;
      eexists _, _; (split; [reflexivity |]); done.
  - unfold ExecutionService.updateStatus. unfold_services.
    destruct (is_terminal status), metadata as [m|]; simpl; by rewrite ?He.
Qed.

(** ** QueueService *)

(** X9. initialize is idempotent and touches nothing but the service itself:
    a second call changes nothing; a first call opens the queues of exactly
    the six pipeline agents beside those already open, and leaves the jobs
    and every table as they were. *)
Theorem initialize_idempotent (w : World) :
  QueueService.initialize (QueueService.initialize w).2
    = (Returned tt, (QueueService.initialize w).2) ∧
  initialized (QueueService.initialize w).2 = true ∧
  (initialized w = false →
     queues (QueueService.initialize w).2 = list_to_set AGENT_PIPELINE ∪ queues w) ∧
  (initialized w = true → (QueueService.initialize w).2 = w) ∧
  jobs (QueueService.initialize w).2 = jobs w ∧
  executions (QueueService.initialize w).2 = executions w ∧
  eventLog (QueueService.initialize w).2 = eventLog w ∧
  rfqSnapshots (QueueService.initialize w).2 = rfqSnapshots w.
Proof.
  unfold QueueService.initialize, bind, gets, modify, ret.
  destruct (initialized w) eqn:Hi; simpl; rewrite ?Hi; simpl; repeat split; done.
Qed.

(** X10. After initialize on a service that has opened no queue, enqueue
    returns the job key for every agent of AGENT_PIPELINE, and for every other
    name it throws the queue-not-found error and writes nothing. *)
Theorem enqueue_after_initialize (w : World) (agentName : string) (executionId : nat) :
  initialized w = false →
  queues w = ∅ →
  (agentName ∈ AGENT_PIPELINE →
     (QueueService.enqueue agentName executionId (QueueService.initialize w).2).1
       = Returned (QueueService.job_key executionId agentName (clock w))) ∧
  (agentName ∉ AGENT_PIPELINE →
     QueueService.enqueue agentName executionId (QueueService.initialize w).2
       = (Thrown (JsError ("Queue not found for agent: " +:+ agentName)),
          (QueueService.initialize w).2)).
Proof.
  intros Hi Hq.
  assert (Hqs : queues (QueueService.initialize w).2 = list_to_set AGENT_PIPELINE).
  { unfold QueueService.initialize, bind, gets, modify. rewrite Hi. simpl.
    rewrite Hq. apply (right_id_L ∅ (∪)). }
  assert (Hclock : clock (QueueService.initialize w).2 = clock w).
  { unfold QueueService.initialize, bind, gets, modify. by rewrite Hi. }
  split.
  - intros Hin. rewrite enqueue_opened.
    + simpl. by rewrite Hclock.
    + rewrite Hqs. by apply elem_of_list_to_set.
  - intros Hout. unfold QueueService.enqueue, bind, gets.
    rewrite decide_False; [done |].
    rewrite Hqs. intros Hin. by apply elem_of_list_to_set in Hin.
Qed.

(** X10 at the sample world and the agent mto. *)
Lemma enqueue_after_initialize_witness :
  (QueueService.enqueue "mto" 1 (QueueService.initialize world_start).2).1
    = Returned "1-mto-5000".
Proof.
  apply (enqueue_after_initialize world_start "mto" 1).
  - reflexivity.
  - reflexivity.
  - unfold AGENT_PIPELINE. repeat constructor.
Defined.

(** ** EventService *)



(** ** StateService.mergeState, further *)

(** X12. No update, of whatever shape, removes a key from a curated nested
    object: a key that the current state has under parsedData,
    duplicateCheckResult, mtoData or quote is still there after mergeState,
    with the update's value if the update's object has that key and its old
    value otherwise. *)
Theorem mergeState_keeps_nested_keys (currentState updates co : obj) f k v :
  f ∈ curated →
  currentState !! f = Some (VObj co) →
  co !! k = Some v →
  ∃ ro : obj,
    mergeState currentState updates !! f = Some (VObj ro) ∧
    ro !! k = match own_props (get updates f) !! k with
              | Some v' => if truthy (get updates f) then Some v' else Some v
              | None => Some v
              end.
Proof.
  intros Hf Hc Hk. rewrite (mergeState_curated _ _ _ Hf). unfold merged_field.
  rewrite (get_lookup _ _ _ Hc). simpl.
  destruct (truthy (get updates f)) eqn:Ht.
  - eexists. split; [reflexivity |]. rewrite lookup_spread2.
    destruct (own_props (get updates f) !! k); [done | exact Hk].
  - exists co. split; [done |]. rewrite Hk.
    by destruct (own_props (get updates f) !! k).
Qed.

(** X12 at {parsedData:{a:1}} and the update {parsedData:{b:2}}. *)
Lemma mergeState_keeps_nested_keys_witness :
  ∃ ro : obj,
    mergeState state_a state_b !! "parsedData" = Some (VObj ro) ∧
    ro !! "a" = Some (VNum 1).
Proof.
  destruct (mergeState_keeps_nested_keys state_a state_b {[ "a" := VNum 1 ]}
              "parsedData" "a" (VNum 1)) as (ro & Hro & Hk).
  - apply elem_of_curated. by left.
  - reflexivity.
  - reflexivity.
  - exists ro. split; [exact Hro |]. rewrite Hk. reflexivity.
Defined.

(** X13. A curated field cannot be cleared through mergeState: when the
    update's value for it is absent, undefined, null, false, 0 or the empty
    string, the result keeps the current value of the field. *)
Theorem mergeState_falsy_curated_ignored (currentState updates : obj) f :
  f ∈ curated →
  truthy (get updates f) = false →
  get (mergeState currentState updates) f = get currentState f.
Proof.
  intros Hf Ht. unfold get at 1. rewrite (mergeState_curated _ _ _ Hf). simpl.
  unfold merged_field. by rewrite Ht.
Qed.

(** X13 at an update that sets quote to null. *)
Lemma mergeState_falsy_curated_ignored_witness :
  get (mergeState {[ "quote" := VObj {[ "total" := VNum 100 ]} ]}
         {[ "quote" := VNull ]}) "quote"
  = VObj {[ "total" := VNum 100 ]}.
Proof.
  rewrite (mergeState_falsy_curated_ignored
             {[ "quote" := VObj {[ "total" := VNum 100 ]} ]}
             {[ "quote" := VNull ]} "quote").
  - reflexivity.
  - apply elem_of_curated. tauto.
  - reflexivity.
Defined.

Lemma get_mergeState_curated (currentState updates : obj) f :
  f ∈ curated →
  get (mergeState currentState updates) f = merged_field f currentState updates.
Proof. intros Hf. unfold get. by rewrite (mergeState_curated _ _ _ Hf). Qed.

(** X14. Merging the same update a second time changes nothing: every
    property of mergeState(mergeState(s, u), u) reads as in mergeState(s, u),
    and the stored states are equal.  A stage that is run again with the same
    output leaves the accumulated state as it was. *)
Theorem mergeState_same_update_twice (s u : obj) :
  (∀ k, get (mergeState (mergeState s u) u) k = get (mergeState s u) k) ∧
  json_obj (mergeState (mergeState s u) u) = json_obj (mergeState s u).
Proof.
  assert (H : ∀ k, get (mergeState (mergeState s u) u) k = get (mergeState s u) k).
  { intros k. destruct (decide (k ∈ curated)) as [Hk | Hk].
    - rewrite !(get_mergeState_curated _ _ _ Hk).
      unfold merged_field. rewrite (get_mergeState_curated _ _ _ Hk).
      unfold merged_field. destruct (truthy (get u k)); [| done].
      simpl. f_equal. unfold spread2. by rewrite (assoc_L (∪)), (idemp_L (∪)).
    - unfold get. rewrite !(mergeState_other _ _ _ Hk), !lookup_spread2.
      rewrite (mergeState_other _ _ _ Hk), lookup_spread2.
      by destruct (u !! k). }
  split; [exact H |]. by apply json_obj_ext.
Qed.

(** ** The worker, further *)

Section WorkerRun.
Context {Q : QueryEngine}.
Context (createAgent : string → AgentContext → AgentResult).

(** X15. A job for an execution that does not exist makes the worker throw
    the record-not-found error P2025 before anything is written: no task, no
    snapshot, no event, and the stage executor is not run. *)
Theorem worker_unknown_execution (w : World) (agentName : string) (job : Job.t) :
  executions w !! Job.data_executionId job = None →
  AgentWorker.createAgentWorker createAgent agentName job w =
    (Thrown Prisma.P2025, w).
Proof.
  intros He. unfold AgentWorker.createAgentWorker. unfold_services.
  by rewrite He.
Qed.

(** X16. When the stage executor hands over (CONTINUE or SKIP) to an agent that
    has no queue, the handler throws "Queue not found for agent" only after
    everything else is written: the task and the output snapshot are stored,
    and the execution is left PROCESSING with currentAgent already moved to
    that agent, while the enqueue has added no job to any queue. *)
Theorem worker_dispatch_without_queue_throws_late (w : World) (agentName : string)
    (job : Job.t) (e : Execution.t) (email : Email.t) (next : string) :
  executions w !! Job.data_executionId job = Some e →
  emails w !! Execution.emailId e = Some email →
  agentTasks w !! uuid_next w = None →
  dispatched_agent (nextAction (stage_result createAgent agentName job e email w))
    = Some next →
  next ∉ queues w →
  ∃ w' row,
    AgentWorker.createAgentWorker createAgent agentName job w =
      (Thrown (JsError ("Queue not found for agent: " +:+ next)), w') ∧
    executions w' !! Job.data_executionId job = Some row ∧
    Execution.status row = PROCESSING ∧
    Execution.currentAgent row = next ∧
    jobs w' = jobs w ∧
    is_Some (agentTasks w' !! uuid_next w) ∧
    length (rfqSnapshots w') = S (length (rfqSnapshots w)).
Proof.
  intros He Hemail Hfresh Hnext Hclosed.
  destruct (worker_run createAgent w agentName job e email He Hemail Hfresh)
    as (out & w' & task & row & tail & Hrun & Htasks & _ & _ & Hsnap & Hex & Hst
        & Hag & _ & _ & _ & _ & Hjobs & Hout & _).
  rewrite Hnext in Hag, Hjobs, Hout.
  rewrite decide_False in Hjobs by done.
  rewrite decide_False in Hout by done.
  exists w', row. subst out.
  split; [exact Hrun |].
  split; [by rewrite Hex, lookup_insert_eq |].
  split.
  { rewrite Hst.
    by destruct (nextAction (stage_result createAgent agentName job e email w)). }
  split; [exact Hag |]. split; [exact Hjobs |].
  split; [by rewrite Htasks, lookup_insert_eq |].
  rewrite Hsnap, length_app. simpl. lia.
Qed.

(** X17. A job writes to its own execution only: the row, the snapshots, the
    events and the tasks of every other execution are after the job what
    they were before it. *)
Theorem worker_touches_one_execution (w : World) (agentName : string)
    (job : Job.t) (e : Execution.t) (email : Email.t) (other : nat) :
  executions w !! Job.data_executionId job = Some e →
  emails w !! Execution.emailId e = Some email →
  agentTasks w !! uuid_next w = None →
  other ≠ Job.data_executionId job →
  executions (AgentWorker.createAgentWorker createAgent agentName job w).2 !! other
    = executions w !! other ∧
  Prisma.rows_of other (AgentWorker.createAgentWorker createAgent agentName job w).2
    = Prisma.rows_of other w ∧
  Prisma.events_of other (AgentWorker.createAgentWorker createAgent agentName job w).2
    = Prisma.events_of other w ∧
  filter (fun it => AgentTask.executionId it.2 = other)
    (agentTasks (AgentWorker.createAgentWorker createAgent agentName job w).2)
    = filter (fun it => AgentTask.executionId it.2 = other) (agentTasks w).
Proof.
  intros He Hemail Hfresh Hother.
  destruct (worker_run createAgent w agentName job e email He Hemail Hfresh)
    as (out & w' & task' & row & tail & Hrun & Htasks' & _ & _ & Hsnap & Hex & _
        & _ & _ & Hev & Hall & _).
  destruct (worker_effects createAgent w agentName job e email He Hemail Hfresh)
    as (w2 & latest & result & task & row2 & tail2 & Hw2 & _ & _ & Htasks & Hte & _).
  rewrite Hrun in Hw2 |- *. simpl in Hw2 |- *. subst w2.
  split; [by rewrite Hex, lookup_insert_ne |].
  split.
  { unfold Prisma.rows_of. rewrite Hsnap, filter_app, filter_cons_False, filter_nil.
    - by rewrite app_nil_r.
    - simpl. congruence. }
  split.
  { assert (Hnone : ∀ l,
              Forall (fun v => Event.executionId v = Job.data_executionId job) l →
              filter (fun v => Event.executionId v = other) l = []).
    { intros l Hl. induction Hl as [| v l Hv _ IH]; [done |].
      rewrite filter_cons_False; [exact IH | congruence]. }
    unfold Prisma.events_of. rewrite Hev, !filter_app.
    rewrite (Hnone tail Hall), (Hnone (_ <$> _)).
    - by rewrite !app_nil_r.
    - by apply Forall_fmap, Forall_true. }
  rewrite Htasks.
  rewrite map_filter_insert_False by (simpl; congruence).
  by rewrite delete_id.
Qed.

(** X18. State flows from one stage to the next.  When the job runs at a time
    later than every snapshot its execution has, and the engine sorts newest
    first, the state the next worker is shown, and what getLatestSnapshot
    returns, is the JSON value of mergeState applied to the state this worker
    was shown and the output state of its executor. *)
Theorem worker_hands_over_merged_state (Hq : sorts_newest_first Q) (w : World)
    (agentName : string) (job : Job.t) (e : Execution.t) (email : Email.t) :
  executions w !! Job.data_executionId job = Some e →
  emails w !! Execution.emailId e = Some email →
  agentTasks w !! uuid_next w = None →
  (∀ x, x ∈ Prisma.rows_of (Job.data_executionId job) w →
        RfqSnapshot.createdAt x < clock w) →
  latest_state (Job.data_executionId job)
    (AgentWorker.createAgentWorker createAgent agentName job w).2 =
    json_obj (mergeState (latest_state (Job.data_executionId job) w)
                (outputState (stage_result createAgent agentName job e email w))) ∧
  StateService.getLatestSnapshot (Job.data_executionId job)
    (AgentWorker.createAgentWorker createAgent agentName job w).2 =
    (Returned
       (Some (json_obj
                (mergeState (latest_state (Job.data_executionId job) w)
                   (outputState (stage_result createAgent agentName job e email w))))),
     (AgentWorker.createAgentWorker createAgent agentName job w).2).
Proof.
  intros He Hemail Hfresh Hold.
  destruct (worker_run createAgent w agentName job e email He Hemail Hfresh)
    as (out & w' & task & row & tail & Hrun & _ & _ & _ & Hsnap & _).
  rewrite Hrun. simpl.
  assert (Hhead : head (Prisma.snapshots_of (Job.data_executionId job) w') =
                  Some (RfqSnapshot.mk (S (uuid_next w)) (Job.data_executionId job)
                          agentName OUTPUT
                          (json_obj
                             (mergeState (latest_state (Job.data_executionId job) w)
                                (outputState
                                   (stage_result createAgent agentName job e email w))))
                          (clock w))).
  { unfold Prisma.snapshots_of, Prisma.rows_of.
    rewrite Hsnap, filter_app, filter_cons_True, filter_nil by done.
    apply (newest_first_head_last Hq). intros x Hx. simpl. by apply Hold. }
  split.
  - unfold latest_state at 1. by rewrite Hhead.
  - unfold StateService.getLatestSnapshot, Prisma.rfqSnapshot_findFirst, bind, gets, ret.
    by rewrite Hhead.
Qed.

(** X19. An execution parked by AWAIT_HUMAN is left AWAITING_HUMAN with the
    reason in its metadata, its currentAgent unchanged and no job queued; a
    resume that names no agent is then accepted and queues the job for that
    unchanged currentAgent, keyed by the time of the resume. *)
Theorem parked_execution_resumes_at_current_agent (w : World) (agentName : string)
    (job : Job.t) (e : Execution.t) (email : Email.t) (reason : string)
    (fields : option (list string)) (options : ResumeOptions) (t : Z) :
  executions w !! Job.data_executionId job = Some e →
  emails w !! Execution.emailId e = Some email →
  agentTasks w !! uuid_next w = None →
  nextAction (stage_result createAgent agentName job e email w)
    = AWAIT_HUMAN reason fields →
  resumeFromAgent options = None →
  Execution.currentAgent e ∈ queues w →
  ∃ row j,
    executions (AgentWorker.createAgentWorker createAgent agentName job w).2
      !! Job.data_executionId job = Some row ∧
    Execution.status row = AWAITING_HUMAN ∧
    Execution.currentAgent row = Execution.currentAgent e ∧
    get (Execution.metadata row) "awaitingReason" = VStr reason ∧
    jobs (AgentWorker.createAgentWorker createAgent agentName job w).2 = jobs w ∧
    (ExecutionService.resume (Job.data_executionId job) options
       (at_time t (AgentWorker.createAgentWorker createAgent agentName job w).2)).1
      = Returned tt ∧
    j ∈ QueueService.queue_jobs (Execution.currentAgent e)
          (ExecutionService.resume (Job.data_executionId job) options
             (at_time t
                (AgentWorker.createAgentWorker createAgent agentName job w).2)).2 ∧
    Job.id j = QueueService.job_key (Job.data_executionId job)
                 (Execution.currentAgent e) t.
Proof.
  intros He Hemail Hfresh Hnext Hopt Hqueue.
  destruct (worker_run createAgent w agentName job e email He Hemail Hfresh)
    as (out & w' & task & row & tail & Hrun & _ & _ & _ & _ & Hex & Hst
        & Hag & Hmd & _ & _ & _ & Hjobs & _ & Hqs).
  rewrite Hnext in Hst, Hag, Hmd, Hjobs. simpl in Hst, Hag, Hmd, Hjobs.
  rewrite Hrun. simpl.
  assert (Hrow : executions (at_time t w') !! Job.data_executionId job = Some row)
    by (simpl; by rewrite Hex, lookup_insert_eq).
  assert (Htarget : ExecutionService.target_agent options row
                    = Execution.currentAgent e).
  { unfold ExecutionService.target_agent. by rewrite Hopt, Hag. }
  destruct (resume_accepted_row (at_time t w') (Job.data_executionId job) options
              row Hrow Hst) as (w2 & Hres & _ & Hj2).
  { rewrite Htarget. simpl. by rewrite Hqs. }
  rewrite Htarget in Hj2. simpl in Hj2.
  rewrite Hres. simpl.
  destruct (Queue_add_has_id
              (Job.mk (QueueService.job_key (Job.data_executionId job)
                         (Execution.currentAgent e) t)
                 (Execution.currentAgent e) (Job.data_executionId job) 0)
              (default [] (jobs w' !! Execution.currentAgent e)))
    as (j & Hin & Hid).
  exists row, j.
  split; [by rewrite Hex, lookup_insert_eq |].
  split; [exact Hst |]. split; [exact Hag |].
  split.
  { rewrite Hmd. apply json_obj_get_string. unfold get.
    rewrite lookup_insert_ne by done. by rewrite lookup_insert_eq. }
  split; [exact Hjobs |]. split; [done |].
  split.
  { unfold QueueService.queue_jobs. by rewrite Hj2, lookup_insert_eq. }
  exact Hid.
Qed.

End WorkerRun.

(** X15 at a job for execution 7 in a world that holds execution 1 only. *)
Lemma worker_unknown_execution_witness :
  AgentWorker.createAgentWorker (Q := engine_scan) (agent_returning result_continue)
    "intake" (Job.mk "7-intake-5000" "intake" 7 0)
    (world_of (execution1 PENDING "intake") []) =
  (Thrown Prisma.P2025, world_of (execution1 PENDING "intake") []).
Proof.
  apply (worker_unknown_execution (Q := engine_scan) (agent_returning result_continue)
           (world_of (execution1 PENDING "intake") []) "intake"
           (Job.mk "7-intake-5000" "intake" 7 0)).
  reflexivity.
Defined.

(** X16 at an executor that skips to review, an agent without a queue. *)
Lemma worker_dispatch_without_queue_throws_late_witness :
  ∃ w' row,
    AgentWorker.createAgentWorker (Q := engine_scan)
      (agent_returning result_skip_to_review) "intake" job_intake
      (world_of (execution1 PENDING "intake") []) =
      (Thrown (JsError "Queue not found for agent: review"), w') ∧
    executions w' !! 1%nat = Some row ∧
    Execution.status row = PROCESSING ∧
    Execution.currentAgent row = "review" ∧
    jobs w' = ∅.
Proof.
  destruct (worker_dispatch_without_queue_throws_late (Q := engine_scan)
              (agent_returning result_skip_to_review)
              (world_of (execution1 PENDING "intake") []) "intake" job_intake
              (execution1 PENDING "intake") email0 "review")
    as (w' & row & Hrun & Hrow & Hst & Hag & Hjobs & _).
  - reflexivity.
  - reflexivity.
  - reflexivity.
  - reflexivity.
  - apply (bool_decide_eq_false_1 _). vm_compute. reflexivity.
  - exists w', row. split; [exact Hrun |]. split; [exact Hrow |].
    split; [exact Hst |]. split; [exact Hag | exact Hjobs].
Defined.

(** X17 at a world with executions 1 and 2 and a job for execution 1. *)
Lemma worker_touches_one_execution_witness :
  executions
    (AgentWorker.createAgentWorker (Q := engine_scan) (agent_returning result_continue)
       "intake" job_intake
       (with_executions (insert 2%nat (execution2 AWAITING_HUMAN "mto"))
          (world_of (execution1 PENDING "intake") []))).2 !! 2%nat
  = Some (execution2 AWAITING_HUMAN "mto").
Proof.
  destruct (worker_touches_one_execution (Q := engine_scan)
              (agent_returning result_continue)
              (with_executions (insert 2%nat (execution2 AWAITING_HUMAN "mto"))
                 (world_of (execution1 PENDING "intake") []))
              "intake" job_intake (execution1 PENDING "intake") email0 2%nat)
    as [Hrow _].
  - vm_compute. reflexivity.
  - reflexivity.
  - reflexivity.
  - discriminate.
  - rewrite Hrow. vm_compute. reflexivity.
Defined.

(** X18 at an execution whose one snapshot is older than the job. *)
Lemma worker_hands_over_merged_state_witness :
  StateService.getLatestSnapshot (Q := engine_scan) 1
    (AgentWorker.createAgentWorker (Q := engine_scan) (agent_returning result_continue)
       "intake" job_intake
       (world_of (execution1 PENDING "intake") [snapshot_first])).2 =
  (Returned
     (Some (json_obj
              (mergeState
                 (latest_state (Q := engine_scan) 1
                    (world_of (execution1 PENDING "intake") [snapshot_first]))
                 (outputState result_continue)))),
   (AgentWorker.createAgentWorker (Q := engine_scan) (agent_returning result_continue)
      "intake" job_intake
      (world_of (execution1 PENDING "intake") [snapshot_first])).2).
Proof.
  apply (worker_hands_over_merged_state (Q := engine_scan)
           (agent_returning result_continue) engine_scan_sorts
           (world_of (execution1 PENDING "intake") [snapshot_first])
           "intake" job_intake (execution1 PENDING "intake") email0).
  - reflexivity.
  - reflexivity.
  - reflexivity.
  - intros x Hx. apply list_elem_of_singleton in Hx as ->. reflexivity.
Defined.

(** X19 at missing-info parking execution 1, resumed at time 7000. *)
Lemma parked_execution_resumes_at_current_agent_witness :
  ∃ row j,
    executions
      (AgentWorker.createAgentWorker (Q := engine_scan) (agent_returning result_await)
         "missing-info" (Job.mk "1-missing-info-5900" "missing-info" 1 0)
         (world_of (execution1 PROCESSING "missing-info") [])).2 !! 1%nat = Some row ∧
    Execution.status row = AWAITING_HUMAN ∧
    j ∈ QueueService.queue_jobs "missing-info"
          (ExecutionService.resume (Q := engine_scan) 1 no_options
             (at_time 7000
                (AgentWorker.createAgentWorker (Q := engine_scan)
                   (agent_returning result_await) "missing-info"
                   (Job.mk "1-missing-info-5900" "missing-info" 1 0)
                   (world_of (execution1 PROCESSING "missing-info") [])).2)).2 ∧
    Job.id j = "1-missing-info-7000".
Proof.
  destruct (parked_execution_resumes_at_current_agent (Q := engine_scan)
              (agent_returning result_await)
              (world_of (execution1 PROCESSING "missing-info") []) "missing-info"
              (Job.mk "1-missing-info-5900" "missing-info" 1 0)
              (execution1 PROCESSING "missing-info") email0
              "missing field timeline" (Some ["timeline"]) no_options 7000)
    as (row & j & Hrow & Hst & _ & _ & _ & _ & Hin & Hid).
  - reflexivity.
  - reflexivity.
  - reflexivity.
  - reflexivity.
  - reflexivity.
  - vm_compute. reflexivity.
  - exists row, j. split; [exact Hrow |]. split; [exact Hst |].
    split; [exact Hin | exact Hid].
Defined.

(** ** The agents' decisions *)

Lemma indexOf_from_absent (i : Z) (l : list string) (x : string) :
  x ∉ l → BaseAgent.indexOf_from i l x = -1.
Proof.
  revert i. induction l as [| y l IH]; intros i Hx; [done |].
  simpl. apply not_elem_of_cons in Hx as [Hne Hx].
  rewrite decide_False by congruence. by apply IH.
Qed.

Lemma indexOf_from_lookup (i : Z) (l : list string) (n : nat) (x : string) :
  NoDup l → l !! n = Some x → BaseAgent.indexOf_from i l x = i + Z.of_nat n.
Proof.
  revert i n. induction l as [| y l IH]; intros i n Hnd Hn; [done |].
  apply NoDup_cons in Hnd as [Hy Hnd]. simpl.
  destruct n as [| n]; simpl in Hn.
  - injection Hn as ->. rewrite decide_True by done. lia.
  - rewrite decide_False.
    + rewrite (IH (i + 1) n Hnd Hn). lia.
    + intros ->. apply Hy. by eapply list_elem_of_lookup_2.
Qed.

Lemma AGENT_PIPELINE_NoDup : NoDup AGENT_PIPELINE.
Proof. apply (bool_decide_unpack _). vm_compute. reflexivity. Qed.

(** X20. getNextAgent walks AGENT_PIPELINE in order: the agent at position i
    is followed by the agent at position i + 1; nothing follows auto-quote,
    the last one, nor a name that is no pipeline agent; and from any name the
    walk ends after at most six steps, so CONTINUE decisions cannot cycle. *)
Theorem getNextAgent_walks_pipeline :
  (∀ (i : nat) a b,
     AGENT_PIPELINE !! i = Some a → AGENT_PIPELINE !! S i = Some b →
     BaseAgent.getNextAgent a = Some b) ∧
  (∀ a, BaseAgent.getNextAgent a = None ↔ a = "auto-quote" ∨ a ∉ AGENT_PIPELINE) ∧
  (∀ a, Nat.iter 6 (fun o => o ≫= BaseAgent.getNextAgent) (Some a) = None).
Proof.
  assert (Hin : ∀ (i : nat) a,
            AGENT_PIPELINE !! i = Some a →
            BaseAgent.getNextAgent a = AGENT_PIPELINE !! S i).
  { intros i a Hi. unfold BaseAgent.getNextAgent, BaseAgent.indexOf.
    rewrite (indexOf_from_lookup 0 _ i a AGENT_PIPELINE_NoDup Hi).
    assert (i < 6)%nat as Hlt by (apply lookup_lt_Some in Hi; exact Hi).
    destruct (decide (0 + Z.of_nat i = -1
                      ∨ 0 + Z.of_nat i = Z.of_nat (length AGENT_PIPELINE) - 1))
      as [[Hd | Hd] | Hd].
    - lia.
    - simpl in Hd. assert (i = 5%nat) as -> by lia. reflexivity.
    - f_equal. lia. }
  assert (Hout : ∀ a, a ∉ AGENT_PIPELINE → BaseAgent.getNextAgent a = None).
  { intros a Ha. unfold BaseAgent.getNextAgent, BaseAgent.indexOf.
    rewrite (indexOf_from_absent 0 _ a Ha). by rewrite decide_True by (by left). }
  assert (Hcases : ∀ a, a ∈ AGENT_PIPELINE →
            ∃ i : nat, (i < 6)%nat ∧ AGENT_PIPELINE !! i = Some a).
  { intros a Ha. apply list_elem_of_lookup_1 in Ha as [i Hi]. exists i.
    split; [| done]. by apply lookup_lt_Some in Hi. }
  split; [| split].
  - intros i a b Ha Hb. by rewrite (Hin i a Ha).
  - intros a. split.
    + intros Hnone. destruct (decide (a ∈ AGENT_PIPELINE)) as [Ha | Ha]; [| by right].
      left. destruct (Hcases a Ha) as (i & Hlt & Hi).
      rewrite (Hin i a Hi) in Hnone.
      do 6 (destruct i as [| i]; [simpl in Hi, Hnone; congruence |]). lia.
    + intros [-> | Ha]; [| by apply Hout].
      by rewrite (Hin 5%nat "auto-quote").
  - intros a. destruct (decide (a ∈ AGENT_PIPELINE)) as [Ha | Ha].
    + destruct (Hcases a Ha) as (i & Hlt & Hi).
      do 6 (destruct i as [| i];
            [simpl in Hi; injection Hi as <-; vm_compute; reflexivity |]).
      lia.
    + simpl. by rewrite (Hout a Ha).
Qed.

Lemma continueToNextAgent_keeps_order (i : nat) (a : string) :
  AGENT_PIPELINE !! i = Some a →
  keeps_pipeline_order a (BaseAgent.continueToNextAgent a).
Proof.
  intros Hi. unfold BaseAgent.continueToNextAgent.
  destruct (BaseAgent.getNextAgent a) as [b |] eqn:Hb; [| done].
  destruct (truthy (VStr b)); [| done].
  simpl. exists i. split; [done |].
  unfold BaseAgent.getNextAgent, BaseAgent.indexOf in Hb.
  rewrite (indexOf_from_lookup 0 _ i a AGENT_PIPELINE_NoDup Hi) in Hb.
  destruct (decide _) in Hb; [done |].
  replace (Z.to_nat (0 + Z.of_nat i + 1)) with (S i) in Hb by lia. exact Hb.
Qed.

(** X21. No pipeline agent decides to FAIL or to SKIP, and none hands over
    out of order: whatever output the model produced and whatever the
    context, each of the six agents either parks the execution for a human,
    completes it, or continues to the agent that follows it in
    AGENT_PIPELINE; auto-quote never continues. *)
Theorem agents_keep_pipeline_order (context : AgentContext) :
  (∀ p, keeps_pipeline_order "intake" (IntakeAgent.determineNextAction p context)) ∧
  (∀ p, keeps_pipeline_order "missing-info"
          (MissingInfoAgent.determineNextAction p context)) ∧
  (∀ p, keeps_pipeline_order "duplicate"
          (DuplicateAgent.determineNextAction p context)) ∧
  (∀ p, keeps_pipeline_order "prioritization"
          (PrioritizationAgent.determineNextAction p context)) ∧
  (∀ p, keeps_pipeline_order "mto" (MtoAgent.determineNextAction p context)) ∧
  (∀ p, keeps_pipeline_order "auto-quote"
          (AutoQuoteAgent.determineNextAction p context)
        ∧ dispatched_agent (AutoQuoteAgent.determineNextAction p context) = None).
Proof.
  split; [| split; [| split; [| split; [| split]]]]; intros p.
  - unfold IntakeAgent.determineNextAction.
    destruct (PrimFloat.ltb _ _); [done |].
    destruct (Nat.eqb _ _); [done |].
    by apply (continueToNextAgent_keeps_order 0).
  - unfold MissingInfoAgent.determineNextAction.
    destruct (negb _); [done |].
    by apply (continueToNextAgent_keeps_order 1).
  - unfold DuplicateAgent.determineNextAction.
    destruct (_ && _); [done |]. destruct (_ && _); [done |].
    by apply (continueToNextAgent_keeps_order 2).
  - unfold PrioritizationAgent.determineNextAction.
    destruct (_ && _); [done |].
    by apply (continueToNextAgent_keeps_order 3).
  - unfold MtoAgent.determineNextAction.
    destruct (PrimFloat.ltb _ _); [done |].
    destruct (MtoAgent.unmappedItems _) as [[| item items] |];
      try done; (destruct (MtoAgent.is_complex _); [done |]);
      by apply (continueToNextAgent_keeps_order 4).
  - unfold AutoQuoteAgent.determineNextAction.
    by destruct (AutoQuoteAgent.requiresReview _).
Qed.

(** The state update of a prioritization output, merged and stored, reads
    as COMPLEX exactly when the output's complexity is COMPLEX. *)
Lemma is_complex_after_prioritization (currentState : obj)
    (validated : PrioritizationAgent.Output) :
  MtoAgent.is_complex
    (json_obj (mergeState currentState (PrioritizationAgent.output_state validated)))
  = bool_decide (PrioritizationAgent.complexity validated = PrioritizationAgent.COMPLEX).
Proof.
  unfold MtoAgent.is_complex.
  assert (get (json_obj (mergeState currentState
                           (PrioritizationAgent.output_state validated)))
              "complexity"
          = VStr (PrioritizationAgent.complexity_str
                    (PrioritizationAgent.complexity validated))) as ->.
  { apply json_obj_get_string. unfold get.
    rewrite mergeState_other, lookup_spread2.
    - unfold PrioritizationAgent.output_state.
      rewrite lookup_insert_ne by done. by rewrite lookup_insert_eq.
    - rewrite elem_of_curated. intros [H | [H | [H | H]]]; discriminate H. }
  by destruct (PrioritizationAgent.complexity validated).
Qed.

(** X22. An RFQ that prioritization rated COMPLEX is never handed to
    auto-quote: when the state MTO is shown is the stored merge of any state
    with the state update of a prioritization output whose complexity is
    COMPLEX, MTO dispatches no job, whatever its own output: it parks or
    completes the execution. *)
Theorem complex_rfq_never_auto_quoted (currentState : obj)
    (validated : PrioritizationAgent.Output) (p : Parsed MtoAgent.Output)
    (context : AgentContext) :
  PrioritizationAgent.complexity validated = PrioritizationAgent.COMPLEX →
  ctx_currentState context =
    json_obj (mergeState currentState (PrioritizationAgent.output_state validated)) →
  dispatched_agent (MtoAgent.determineNextAction p context) = None.
Proof.
  intros Hc Hstate. unfold MtoAgent.determineNextAction.
  rewrite Hstate, is_complex_after_prioritization, Hc. simpl.
  destruct (PrimFloat.ltb _ _); [done |].
  by destruct (MtoAgent.unmappedItems _) as [[| item items] |].
Qed.

(** X22 at a confident MTO output after a COMPLEX prioritization. *)
Lemma complex_rfq_never_auto_quoted_witness :
  dispatched_agent
    (MtoAgent.determineNextAction mto_confident
       (context_with
          (json_obj (mergeState state_a
                       (PrioritizationAgent.output_state prioritization_complex)))))
  = None.
Proof.
  apply (complex_rfq_never_auto_quoted state_a prioritization_complex mto_confident
           (context_with
              (json_obj (mergeState state_a
                           (PrioritizationAgent.output_state prioritization_complex))))).
  - reflexivity.
  - reflexivity.
Defined.

(** ** Snapshots: who writes which *)

Lemma create_keeps_snapshots {Q : QueryEngine} (w : World)
    (input : CreateExecutionInput) :
  rfqSnapshots (ExecutionService.create input w).2 = rfqSnapshots w.
Proof.
  unfold ExecutionService.create. unfold_services.
  destruct (emails w !! input_emailId input); [| done]. simpl.
  destruct (executions w !! uuid_next w); [done |]. simpl.
  by destruct (decide ("intake" ∈ queues w)).
Qed.

Lemma cancel_keeps_snapshots {Q : QueryEngine} (w : World) (executionId : nat) :
  rfqSnapshots (ExecutionService.cancel executionId w).2 = rfqSnapshots w.
Proof.
  unfold ExecutionService.cancel. unfold_services.
  destruct (executions w !! executionId) as [e |] eqn:He; [| done].
  destruct (decide _); [done |]. simpl. by rewrite He.
Qed.

Lemma resume_adds_human_updates {Q : QueryEngine} (w : World) (executionId : nat)
    (options : ResumeOptions) :
  ∃ added,
    rfqSnapshots (ExecutionService.resume executionId options w).2
      = rfqSnapshots w ++ added ∧
    Forall (fun s => RfqSnapshot.snapshotType s = HUMAN_UPDATE) added.
Proof.
  unfold ExecutionService.resume. unfold_services.
  destruct (executions w !! executionId) as [e |] eqn:He;
    [| exists []; by rewrite app_nil_r].
  destruct (decide _); [exists []; by rewrite app_nil_r |].
  destruct (updatedState options) as [updates |]; simpl; rewrite He; simpl.
  - eexists [_].
    destruct (decide (ExecutionService.target_agent options e ∈ queues w)); simpl;
      (split; [reflexivity | by repeat constructor]).
  - exists [].
    destruct (decide (ExecutionService.target_agent options e ∈ queues w)); simpl;
      by rewrite app_nil_r.
Qed.

Lemma worker_adds_output {Q : QueryEngine}
    (createAgent : string → AgentContext → AgentResult) (w : World)
    (agentName : string) (job : Job.t) :
  ∃ added,
    rfqSnapshots (AgentWorker.createAgentWorker createAgent agentName job w).2
      = rfqSnapshots w ++ added ∧
    Forall (fun s => RfqSnapshot.snapshotType s = OUTPUT) added.
Proof.
  destruct (executions w !! Job.data_executionId job) as [e |] eqn:He.
  - destruct (emails w !! Execution.emailId e) as [email |] eqn:Hemail.
    + destruct (agentTasks w !! uuid_next w) as [task |] eqn:Hfresh.
      * exists []. rewrite app_nil_r. split; [| done].
        unfold AgentWorker.createAgentWorker. unfold_services. rewrite He. simpl.
        rewrite Hemail, He. simpl. by rewrite Hfresh.
      * destruct (worker_effects createAgent w agentName job e email He Hemail Hfresh)
          as (w' & latest & result & task & row & tail & Hrun & _ & _ & _ & _ & _
              & _ & _ & Hsnap & _).
        rewrite Hrun, Hsnap. eexists [_]. split; [reflexivity |].
        by repeat constructor.
    + exists []. rewrite app_nil_r. split; [| done].
      unfold AgentWorker.createAgentWorker. unfold_services. rewrite He. simpl.
      rewrite Hemail, He. done.
  - exists []. rewrite app_nil_r. split; [| done].
    unfold AgentWorker.createAgentWorker. unfold_services. by rewrite He.
Qed.

Lemma replay_without_input {Q : QueryEngine} (Hq : sorts_newest_first Q) (w : World)
    (executionId : nat) (fromAgent : string) :
  no_input_snapshots w →
  rfqSnapshots (ExecutionService.replay executionId fromAgent w).2 = rfqSnapshots w.
Proof.
  intros Hno.
  assert (Hnone : Prisma.snapshots_matching executionId fromAgent INPUT w = []).
  { unfold Prisma.snapshots_matching.
    assert (filter (fun s => RfqSnapshot.executionId s = executionId
                             ∧ RfqSnapshot.agentName s = fromAgent
                             ∧ RfqSnapshot.snapshotType s = INPUT)
              (rfqSnapshots w) = []) as ->.
    { unfold no_input_snapshots in Hno.
      induction Hno as [| s l Hs _ IH]; [done |].
      rewrite filter_cons_False; [exact IH | tauto]. }
    destruct (Hq []) as [Hp _]. symmetry in Hp. by apply Permutation_nil in Hp. }
  unfold ExecutionService.replay. unfold_services. rewrite Hnone.
  destruct (executions w !! executionId) as [e |]; [| done].
  destruct (decide (fromAgent ∈ AGENT_PIPELINE)); [| done]. simpl.
  destruct (executions w !! uuid_next w); [done |]. simpl.
  by destruct (decide (fromAgent ∈ queues w)).
Qed.

Section SnapshotWriters.
Context {Q : QueryEngine}.
Context (createAgent : string → AgentContext → AgentResult).

(** X23. INPUT snapshots never arise.  In a database that holds no INPUT
    snapshot, create, resume, cancel and the worker leave none behind (resume
    writes HUMAN_UPDATE rows, the worker OUTPUT rows), and replay, the only
    writer of INPUT rows, finds none to copy and writes no snapshot at all:
    a replayed execution starts without state. *)
Theorem input_snapshots_never_arise (Hq : sorts_newest_first Q) (w : World) :
  no_input_snapshots w →
  (∀ input, no_input_snapshots (ExecutionService.create input w).2) ∧
  (∀ executionId options,
     no_input_snapshots (ExecutionService.resume executionId options w).2) ∧
  (∀ executionId, no_input_snapshots (ExecutionService.cancel executionId w).2) ∧
  (∀ agentName job,
     no_input_snapshots
       (AgentWorker.createAgentWorker createAgent agentName job w).2) ∧
  (∀ executionId fromAgent,
     rfqSnapshots (ExecutionService.replay executionId fromAgent w).2
       = rfqSnapshots w).
Proof.
  intros Hno. unfold no_input_snapshots in *.
  split; [| split; [| split; [| split]]].
  - intros input. by rewrite create_keeps_snapshots.
  - intros executionId options.
    destruct (resume_adds_human_updates w executionId options) as (added & -> & Hall).
    apply Forall_app. split; [exact Hno |].
    eapply Forall_impl; [exact Hall |]. simpl. congruence.
  - intros executionId. by rewrite cancel_keeps_snapshots.
  - intros agentName job.
    destruct (worker_adds_output createAgent w agentName job) as (added & -> & Hall).
    apply Forall_app. split; [exact Hno |].
    eapply Forall_impl; [exact Hall |]. simpl. congruence.
  - intros executionId fromAgent. by apply replay_without_input.
Qed.

End SnapshotWriters.

(** X23 at the parked run of the pipeline: a replay from missing-info. *)
Lemma input_snapshots_never_arise_witness :
  rfqSnapshots (ExecutionService.replay (Q := engine_scan) 1 "missing-info"
                  world_parked).2
  = rfqSnapshots world_parked.
Proof.
  apply (input_snapshots_never_arise (Q := engine_scan) agents_parking
           engine_scan_sorts world_parked).
  apply (bool_decide_unpack _). vm_compute. reflexivity.
Defined.

(** ** StateService.getStateAtSnapshot and getAgentOutputSnapshot *)

(** X24. A snapshot is read back by its identifier.  When no stored snapshot
    has the identifier about to be issued, getStateAtSnapshot on the
    identifier that createSnapshot returns gives the JSON value of the state
    that was stored, whatever the creation times of the other snapshots, and
    every other identifier resolves as before. *)
Theorem getStateAtSnapshot_after_createSnapshot (w : World) (executionId : nat)
    (agentName : string) (snapshotType : SnapshotType) (data : obj) :
  (∀ s, s ∈ rfqSnapshots w → RfqSnapshot.id s ≠ uuid_next w) →
  ∃ w',
    StateService.createSnapshot executionId agentName snapshotType data w
      = (Returned (uuid_next w), w') ∧
    StateService.getStateAtSnapshot (uuid_next w) w'
      = (Returned (Some (json_obj data)), w') ∧
    ∀ i, i ≠ uuid_next w →
         (StateService.getStateAtSnapshot i w').1
         = (StateService.getStateAtSnapshot i w).1.
Proof.
  intros Hfresh. eexists. split; [reflexivity |].
  assert (Hnone : filter (fun s => RfqSnapshot.id s = uuid_next w) (rfqSnapshots w)
                  = []).
  { induction (rfqSnapshots w) as [| s l IH]; [done |].
    rewrite filter_cons_False.
    - apply IH. intros x Hx. apply Hfresh. by right.
    - apply Hfresh. by left. }
  split.
  - unfold StateService.getStateAtSnapshot, Prisma.rfqSnapshot_findUnique, bind, gets,
      ret. simpl.
    by rewrite filter_app, Hnone, filter_cons_True.
  - intros i Hi.
    unfold StateService.getStateAtSnapshot, Prisma.rfqSnapshot_findUnique, bind, gets,
      ret. simpl.
    rewrite filter_app, filter_cons_False, filter_nil by (simpl; congruence).
    by rewrite app_nil_r.
Qed.

(** X24 at a second snapshot created in the same millisecond as the first. *)
Lemma getStateAtSnapshot_after_createSnapshot_witness :
  ∃ w',
    StateService.createSnapshot 1 "missing-info" OUTPUT state_b
      (at_time 5500 (world_of (execution1 PROCESSING "missing-info") [snapshot_first]))
      = (Returned 20%nat, w') ∧
    StateService.getStateAtSnapshot 20 w' = (Returned (Some (json_obj state_b)), w').
Proof.
  destruct (getStateAtSnapshot_after_createSnapshot
              (at_time 5500
                 (world_of (execution1 PROCESSING "missing-info") [snapshot_first]))
              1 "missing-info" OUTPUT state_b)
    as (w' & Hrun & Hget & _).
  - intros s Hs. apply list_elem_of_singleton in Hs as ->. discriminate.
  - exists w'. split; [exact Hrun | exact Hget].
Defined.

Section AgentOutputs.
Context {Q : QueryEngine}.

(** X25. A human update is no agent output: whatever resume does (reject,
    store a HUMAN_UPDATE snapshot, fail at the queue), getAgentOutputSnapshot
    returns afterwards, for every execution and every agent name, what it
    returned before. *)
Theorem resume_keeps_agent_outputs (w : World) (executionId : nat)
    (options : ResumeOptions) (i : nat) (agentName : string) :
  (StateService.getAgentOutputSnapshot i agentName
     (ExecutionService.resume executionId options w).2).1
  = (StateService.getAgentOutputSnapshot i agentName w).1.
Proof.
  destruct (resume_adds_human_updates w executionId options) as (added & Hsnap & Hall).
  unfold StateService.getAgentOutputSnapshot, Prisma.rfqSnapshot_findFirst_matching,
    bind, gets, ret, Prisma.snapshots_matching. simpl.
  rewrite Hsnap, filter_app.
  assert (filter (fun s => RfqSnapshot.executionId s = i
                           ∧ RfqSnapshot.agentName s = agentName
                           ∧ RfqSnapshot.snapshotType s = OUTPUT) added = []) as ->.
  { clear Hsnap. induction Hall as [| s l Hs _ IH]; [done |].
    rewrite filter_cons_False; [exact IH |]. rewrite Hs. intros (_ & _ & H).
    discriminate H. }
  by rewrite app_nil_r.
Qed.

End AgentOutputs.

(** ** EventService.countByType *)

Lemma foldl_insert_counts (rows : list (string * nat)) (acc : gmap string nat)
    (ty : string) :
  NoDup rows.*1 →
  foldl (fun acc item => <[item.1 := item.2]> acc) acc rows !! ty =
  match list_to_map (M := gmap string nat) rows !! ty with
  | Some n => Some n
  | None => acc !! ty
  end.
Proof.
  revert acc. induction rows as [| [k n] rows IH]; intros acc Hnd; [done |].
  simpl in *. apply NoDup_cons in Hnd as [Hk Hnd].
  rewrite (IH _ Hnd).
  destruct (decide (k = ty)) as [-> | Hne].
  - rewrite lookup_insert_eq.
    rewrite (not_elem_of_list_to_map_1 _ _ Hk). by rewrite lookup_insert_eq.
  - rewrite !lookup_insert_ne by done. done.
Qed.

(** X26. countByType maps each event type that occurs among the events of
    the execution to the number of those events, and holds no entry, rather
    than a zero, for a type that does not occur. *)
Theorem countByType_counts (w : World) (executionId : nat) :
  ∃ counts,
    EventService.countByType executionId w = (Returned counts, w) ∧
    ∀ ty,
      counts !! ty =
      match length (filter (fun v => Event.eventType v = ty)
                      (Prisma.events_of executionId w)) with
      | O => None
      | n => Some n
      end.
Proof.
  eexists. split; [reflexivity |]. intros ty.
  set (rows := Prisma.events_of executionId w).
  unfold Prisma.event_groupBy_eventType.
  rewrite foldl_insert_counts.
  2: { rewrite <- list_fmap_compose. simpl.
       replace (fmap _ (remove_dups (Event.eventType <$> rows)))
         with (remove_dups (Event.eventType <$> rows))
         by (by rewrite list_fmap_id).
       apply NoDup_remove_dups. }
  rewrite lookup_empty.
  destruct (decide (ty ∈ Event.eventType <$> rows)) as [Hin | Hout].
  - assert (Hpos : filter (fun v => Event.eventType v = ty) rows ≠ []).
    { apply list_elem_of_fmap in Hin as (v & -> & Hv).
      intros Hnil. assert (v ∈ filter (fun v0 => Event.eventType v0
                                                 = Event.eventType v) rows) as Hx
        by (by apply list_elem_of_filter).
      rewrite Hnil in Hx. by apply elem_of_nil in Hx. }
    rewrite (elem_of_list_to_map_1 _ ty
               (length (filter (fun v => Event.eventType v = ty) rows))).
    + destruct (filter _ rows); [done | reflexivity].
    + rewrite <- list_fmap_compose. simpl. rewrite list_fmap_id.
      apply NoDup_remove_dups.
    + apply list_elem_of_fmap. exists ty. split; [reflexivity |].
      by apply elem_of_remove_dups.
  - rewrite not_elem_of_list_to_map_1.
    + assert (filter (fun v => Event.eventType v = ty) rows = []) as ->; [| done].
      clearbody rows. induction rows as [| v rows IH]; [done |].
      rewrite fmap_cons in Hout. apply not_elem_of_cons in Hout as [Hne Hout].
      rewrite filter_cons_False by congruence. by apply IH.
    + rewrite <- list_fmap_compose. simpl. rewrite list_fmap_id.
      by rewrite elem_of_remove_dups.
Qed.

(** ** What a client is told when resume fails *)

Section Answers.
Context {Q : QueryEngine}.

(** X27. The answers to a resume request that fails.  A request that the
    schema rejects (a ZodError) is answered 400 "Validation failed".  For an
    unknown execution resume throws NotFoundError, answered 404, and for an
    execution that is not awaiting a human it throws ValidationError,
    answered 400, each with the error's own code and message and with
    nothing written.  When the execution is awaiting a human, no state
    update is given and the target agent has no queue, resume throws the
    queue error, answered 500 "Internal server error" without the error's
    message, and by then the execution has been switched to PROCESSING while
    no job was queued and no snapshot written.  Every other error thrown by
    a service that is no AppError, carries no status code of its own and is
    not the Prisma error P2002 or P2025 is answered 500 "Internal server
    error" as well. *)
Theorem resume_failure_answers (w : World) (executionId : nat)
    (options : ResumeOptions) :
  match executions w !! executionId with
  | None =>
      ExecutionService.resume executionId options w =
        (Thrown (NotFoundError "Execution" (Some (id_str executionId))), w) ∧
      ErrorHandler.errorHandler
        (ErrorHandler.Raised (NotFoundError "Execution" (Some (id_str executionId))))
      = {| ErrorHandler.reply_status := 404;
           ErrorHandler.reply_success := false;
           ErrorHandler.reply_code := "NOT_FOUND";
           ErrorHandler.reply_message :=
             "Execution with id '" +:+ id_str executionId +:+ "' not found";
           ErrorHandler.reply_details := None |}
  | Some e =>
      if decide (Execution.status e = AWAITING_HUMAN) then
        updatedState options = None →
        ExecutionService.target_agent options e ∉ queues w →
        ∃ w' row,
          ExecutionService.resume executionId options w =
            (Thrown (JsError ("Queue not found for agent: "
                                +:+ ExecutionService.target_agent options e)), w') ∧
          ErrorHandler.errorHandler
            (ErrorHandler.Raised
               (JsError ("Queue not found for agent: "
                           +:+ ExecutionService.target_agent options e)))
          = {| ErrorHandler.reply_status := 500;
               ErrorHandler.reply_success := false;
               ErrorHandler.reply_code := "INTERNAL_ERROR";
               ErrorHandler.reply_message := "Internal server error";
               ErrorHandler.reply_details := None |} ∧
          executions w' !! executionId = Some row ∧
          Execution.status row = PROCESSING ∧
          Execution.currentAgent row = ExecutionService.target_agent options e ∧
          jobs w' = jobs w ∧
          rfqSnapshots w' = rfqSnapshots w
      else
        ExecutionService.resume executionId options w =
          (Thrown (ValidationError
                     ("Execution is not awaiting human input. Current status: "
                        +:+ status_str (Execution.status e))), w) ∧
        ErrorHandler.errorHandler
          (ErrorHandler.Raised
             (ValidationError
                ("Execution is not awaiting human input. Current status: "
                   +:+ status_str (Execution.status e))))
        = {| ErrorHandler.reply_status := 400;
             ErrorHandler.reply_success := false;
             ErrorHandler.reply_code := "VALIDATION_ERROR";
             ErrorHandler.reply_message :=
               "Execution is not awaiting human input. Current status: "
                 +:+ status_str (Execution.status e);
             ErrorHandler.reply_details := None |}
  end ∧
  (∀ errors,
     ErrorHandler.reply_status (ErrorHandler.errorHandler (ErrorHandler.ZodError errors))
       = 400 ∧
     ErrorHandler.reply_code (ErrorHandler.errorHandler (ErrorHandler.ZodError errors))
       = "VALIDATION_ERROR" ∧
     ErrorHandler.reply_message
       (ErrorHandler.errorHandler (ErrorHandler.ZodError errors))
       = "Validation failed") ∧
  (∀ error,
     ErrorHandler.is_AppError error = false →
     error ≠ Prisma.P2002 → error ≠ Prisma.P2025 →
     ErrorHandler.errorHandler (ErrorHandler.Raised error)
     = {| ErrorHandler.reply_status := 500;
          ErrorHandler.reply_success := false;
          ErrorHandler.reply_code := "INTERNAL_ERROR";
          ErrorHandler.reply_message := "Internal server error";
          ErrorHandler.reply_details := None |}).
Proof.
  split; [| split].
  - unfold ExecutionService.resume. unfold_services.
    destruct (executions w !! executionId) as [e |] eqn:He; [| done].
    destruct (decide (Execution.status e = AWAITING_HUMAN)) as [Hs | Hs].
    + intros Hnone Hclosed.
      rewrite decide_False by (intros H; by apply H).
      rewrite Hnone. simpl. rewrite He. simpl.
      rewrite decide_False by exact Hclosed. simpl.
      eexists _, _. split; [reflexivity |]. split; [reflexivity |]. simpl.
      rewrite lookup_insert_eq. split; [reflexivity |]. done.
    + rewrite decide_True by exact Hs. done.
  - intros errors. done.
  - intros [] Happ H2002 H2025; try discriminate Happ; simpl; [| done].
    destruct (String.eqb code "P2002") eqn:E2.
    { apply String.eqb_eq in E2. subst code. by destruct H2002. }
    destruct (String.eqb code "P2025") eqn:E5; [| done].
    apply String.eqb_eq in E5. subst code. by destruct H2025.
Qed.

End Answers.

(** X27 at a parked execution resumed at review, an agent without a queue. *)
Lemma resume_failure_answers_witness :
  ∃ w' row,
    ExecutionService.resume (Q := engine_scan) 1 resume_at_review
      (world_of (execution1 AWAITING_HUMAN "missing-info") []) =
      (Thrown (JsError "Queue not found for agent: review"), w') ∧
    ErrorHandler.reply_status
      (ErrorHandler.errorHandler
         (ErrorHandler.Raised (JsError "Queue not found for agent: review"))) = 500 ∧
    executions w' !! 1%nat = Some row ∧
    Execution.status row = PROCESSING.
Proof.
  destruct (proj1 (resume_failure_answers (Q := engine_scan)
                     (world_of (execution1 AWAITING_HUMAN "missing-info") [])
                     1 resume_at_review) eq_refl)
    as (w' & row & Hrun & Hreply & Hrow & Hst & _).
  - apply (bool_decide_eq_false_1 _). vm_compute. reflexivity.
  - exists w', row. split; [exact Hrun |]. split; [reflexivity |].
    split; [exact Hrow | exact Hst].
Defined.

(** ** BaseAgent.execute and runAgentLoop *)

Lemma tool_events_paired_app (a b : list BaseAgent.AgentEvent) :
  tool_events_paired a = true → tool_events_paired b = true →
  tool_events_paired (a ++ b) = true.
Proof.
  revert b. induction a as [a IH] using (induction_ltof1 _ (@length _)).
  unfold ltof in IH. intros b Ha Hb.
  destruct a as [| x [| y a]]; simpl in *; [done | |].
  - by destruct (BaseAgent.ae_eventData x).
  - destruct (BaseAgent.ae_eventData x); try done.
    destruct (BaseAgent.ae_eventData y); try done;
      apply andb_true_iff in Ha as [-> Ha]; simpl; apply IH; simpl; (lia || done).
Qed.

Lemma push_event_run (type : string) (data : BaseAgent.EventData) (s : BaseAgent.Env) :
  BaseAgent.push_event type data s =
    (Returned tt,
     {| BaseAgent.env_world :=
          with_uuid_next (S (uuid_next (BaseAgent.env_world s))) (BaseAgent.env_world s);
        BaseAgent.env_events :=
          BaseAgent.env_events s ++
          [{| BaseAgent.ae_id := uuid_next (BaseAgent.env_world s);
              BaseAgent.ae_eventType := type;
              BaseAgent.ae_eventData := data;
              BaseAgent.ae_createdAt := clock (BaseAgent.env_world s) |}] |}).
Proof. reflexivity. Qed.

Lemma lift_run {A} (m : M A) (s : BaseAgent.Env) :
  BaseAgent.lift m s =
    ((m (BaseAgent.env_world s)).1,
     {| BaseAgent.env_world := (m (BaseAgent.env_world s)).2;
        BaseAgent.env_events := BaseAgent.env_events s |}).
Proof. unfold BaseAgent.lift. by destruct (m (BaseAgent.env_world s)). Qed.

Section ExecuteFacts.
Context {TOutput : Type} {agent : BaseAgent.Agent TOutput}.

(** A block never throws, and what it records is paired. *)
Lemma run_block_returns (tools : list (string * BaseAgent.Tool))
    (context : AgentContext) (block : BaseAgent.ContentBlock)
    (toolResults : list BaseAgent.ToolResult) (s : BaseAgent.Env) :
  ∃ results s' added,
    BaseAgent.run_block tools context block toolResults s = (Returned results, s') ∧
    BaseAgent.env_events s' = BaseAgent.env_events s ++ added ∧
    tool_events_paired added = true.
Proof.
  destruct block as [text | id name input |]; unfold BaseAgent.run_block.
  - exists toolResults, s, []. by rewrite app_nil_r.
  - destruct (BaseAgent.tools_get name tools) as [tool |].
    + unfold BaseAgent.bind_a, BaseAgent.try_catch. rewrite push_event_run.
      rewrite lift_run. cbn [fst snd BaseAgent.env_world BaseAgent.env_events].
      destruct (BaseAgent.handler tool input context _) as [[result | error] w'];
        cbn [fst snd]; rewrite push_event_run;
        cbn [fst snd BaseAgent.env_world BaseAgent.env_events];
        eexists _, _, [_; _]; (split; [reflexivity |]);
        cbn [BaseAgent.env_events];
        rewrite <- app_assoc; (split; [reflexivity |]); simpl;
        by rewrite String.eqb_refl.
    + exists toolResults, s, []. by rewrite app_nil_r.
  - exists toolResults, s, []. by rewrite app_nil_r.
Qed.

Lemma run_blocks_returns (tools : list (string * BaseAgent.Tool))
    (context : AgentContext) (blocks : list BaseAgent.ContentBlock)
    (toolResults : list BaseAgent.ToolResult) (s : BaseAgent.Env) :
  ∃ results s' added,
    BaseAgent.run_blocks tools context blocks toolResults s = (Returned results, s') ∧
    BaseAgent.env_events s' = BaseAgent.env_events s ++ added ∧
    tool_events_paired added = true.
Proof.
  revert toolResults s. induction blocks as [| block rest IH]; intros toolResults s.
  - exists toolResults, s, []. by rewrite app_nil_r.
  - simpl. unfold BaseAgent.bind_a.
    destruct (run_block_returns tools context block toolResults s)
      as (r1 & s1 & a1 & -> & He1 & Hp1).
    destruct (IH r1 s1) as (r2 & s2 & a2 & -> & He2 & Hp2).
    exists r2, s2, (a1 ++ a2). split; [done |].
    split; [by rewrite He2, He1, app_assoc |].
    by apply tool_events_paired_app.
Qed.

Lemma agent_loop_events (remaining : nat) (systemPrompt : string)
    (tools : list (string * BaseAgent.Tool)) (context : AgentContext)
    (messages : list BaseAgent.Message) (totalIn totalOut : float)
    (s : BaseAgent.Env) :
  ∃ added,
    BaseAgent.env_events
      (BaseAgent.agent_loop remaining systemPrompt tools context messages
         totalIn totalOut s).2
      = BaseAgent.env_events s ++ added ∧
    tool_events_paired added = true.
Proof.
  revert messages totalIn totalOut s.
  induction remaining as [| remaining IH]; intros messages totalIn totalOut s.
  - exists []. by rewrite app_nil_r.
  - simpl. unfold BaseAgent.bind_a at 1. rewrite lift_run.
    destruct (BaseAgent.messages_create _ _) as [[response | error] w']; simpl.
    + destruct (String.eqb (BaseAgent.stop_reason response) "tool_use").
      * unfold BaseAgent.bind_a.
        match goal with
        | |- context [BaseAgent.run_blocks ?t ?c ?b ?r ?s0] =>
            destruct (run_blocks_returns t c b r s0) as (r1 & s1 & a1 & -> & He1 & Hp1)
        end.
        match goal with
        | |- context [BaseAgent.agent_loop remaining ?p ?t ?c ?m ?i ?o ?s0] =>
            destruct (IH m i o s0) as (a2 & He2 & Hp2)
        end.
        exists (a1 ++ a2). split; [| by apply tool_events_paired_app].
        rewrite He2, He1. simpl. by rewrite app_assoc.
      * exists []. by rewrite app_nil_r.
    + exists []. by rewrite app_nil_r.
Qed.

(** X28. Whether runAgentLoop returns or throws (the model call failed, the
    turns ran out), the events it has recorded by then are paired: every
    TOOL_INVOKED event is directly followed by the TOOL_COMPLETED or the
    TOOL_FAILED event of the same tool, a failing tool handler included, and
    nothing recorded before is changed. *)
Theorem runAgentLoop_pairs_tool_events (systemPrompt userPrompt : string)
    (tools : list (string * BaseAgent.Tool)) (context : AgentContext)
    (s : BaseAgent.Env) :
  ∃ added,
    BaseAgent.env_events
      (BaseAgent.runAgentLoop systemPrompt userPrompt tools context s).2
      = BaseAgent.env_events s ++ added ∧
    tool_events_paired added = true.
Proof. apply agent_loop_events. Qed.

(** The loop only appends to the events. *)
Lemma runAgentLoop_events (systemPrompt userPrompt : string)
    (tools : list (string * BaseAgent.Tool)) (context : AgentContext)
    (s : BaseAgent.Env) :
  ∃ added,
    BaseAgent.env_events
      (BaseAgent.runAgentLoop systemPrompt userPrompt tools context s).2
      = BaseAgent.env_events s ++ added.
Proof.
  destruct (agent_loop_events BaseAgent.maxTurns systemPrompt tools context
              [{| BaseAgent.role := "user";
                  BaseAgent.message_content := BaseAgent.Plain userPrompt |}]
              0%float 0%float s) as (added & H & _).
  by exists added.
Qed.

(** A model that asks for tools on every turn exhausts the turns. *)
Lemma agent_loop_exhausts (remaining : nat) (systemPrompt : string)
    (tools : list (string * BaseAgent.Tool)) (context : AgentContext)
    (messages : list BaseAgent.Message) (totalIn totalOut : float)
    (s : BaseAgent.Env) :
  (∀ request w, ∃ response w',
     BaseAgent.messages_create request w = (Returned response, w')
     ∧ BaseAgent.stop_reason response = "tool_use") →
  (BaseAgent.agent_loop remaining systemPrompt tools context messages
     totalIn totalOut s).1
  = Thrown (JsError ("Agent exceeded maximum turns ("
                       +:+ pretty BaseAgent.maxTurns +:+ ")")).
Proof.
  intros Hmodel. revert messages totalIn totalOut s.
  induction remaining as [| remaining IH]; intros messages totalIn totalOut s;
    [done |].
  simpl. unfold BaseAgent.bind_a at 1. rewrite lift_run.
  match goal with
  | |- context [BaseAgent.messages_create ?r ?w0] =>
      destruct (Hmodel r w0) as (response & w' & -> & Hstop)
  end.
  cbn [fst snd]. rewrite Hstop. simpl. unfold BaseAgent.bind_a.
  match goal with
  | |- context [BaseAgent.run_blocks ?t ?c ?b ?r ?s0] =>
      destruct (run_blocks_returns t c b r s0) as (r1 & s1 & a1 & -> & _)
  end.
  apply IH.
Qed.

Lemma last_fmap_snoc {A B} (f : A → B) (l : list A) (x : A) :
  last (f <$> l ++ [x]) = Some (f x).
Proof. rewrite fmap_app. simpl. by rewrite last_snoc. Qed.

(** The catch block of [execute], run to its result. *)
Ltac failed_run :=
  unfold BaseAgent.bind_a; rewrite lift_run; unfold now, gets;
  cbn [fst snd BaseAgent.env_world BaseAgent.env_events];
  rewrite push_event_run;
  cbn [fst snd BaseAgent.env_world BaseAgent.env_events];
  eexists _, _; (split; [reflexivity |]);
  cbn [BaseAgent.result_events BaseAgent.result_success
       BaseAgent.result_outputState BaseAgent.result_agentOutput
       BaseAgent.result_metadata_of BaseAgent.result_nextAction
       BaseAgent.tokenUsage];
  (split; [try (match goal with H : BaseAgent.env_events _ = _ |- _ => rewrite H end);
           reflexivity |]);
  (split; [rewrite last_fmap_snoc; reflexivity |]);
  intros _; (split; [done |]); (split; [done |]); (split; [done |]);
  eexists _, _; (split; [reflexivity |]); by rewrite last_snoc.

(** X29. execute never throws.  Whatever the model client, the tools and the
    agent's own methods do, it returns a result whose first event is
    AGENT_STARTED and whose last event is AGENT_COMPLETED when the result is a
    success and AGENT_FAILED when it is not; a result that is no success has
    an empty output state, no agent output and no token usage, and its next
    action is FAIL with the message that its AGENT_FAILED event records. *)
Theorem execute_always_returns (context : AgentContext) (w : World) :
  ∃ r w',
    BaseAgent.execute context w = (Returned r, w') ∧
    head (BaseAgent.ae_eventType <$> BaseAgent.result_events r)
      = Some "AGENT_STARTED" ∧
    last (BaseAgent.ae_eventType <$> BaseAgent.result_events r)
      = Some (if BaseAgent.result_success r then "AGENT_COMPLETED"
              else "AGENT_FAILED") ∧
    (BaseAgent.result_success r = false →
     BaseAgent.result_outputState r = ∅ ∧
     BaseAgent.result_agentOutput r = None ∧
     BaseAgent.tokenUsage (BaseAgent.result_metadata_of r) = None ∧
     ∃ message duration,
       BaseAgent.result_nextAction r = FAIL message ∧
       BaseAgent.ae_eventData <$> last (BaseAgent.result_events r)
         = Some (BaseAgent.AgentFailed BaseAgent.agentName message duration)).
Proof.
  unfold BaseAgent.execute, BaseAgent.try_catch.
  unfold BaseAgent.bind_a at 1. rewrite push_event_run.
  cbn [fst snd BaseAgent.env_world BaseAgent.env_events app].
  set (started := BaseAgent.Build_AgentEvent _ "AGENT_STARTED" _ _).
  unfold BaseAgent.bind_a at 1. rewrite lift_run.
  cbn [fst snd BaseAgent.env_world BaseAgent.env_events].
  destruct (BaseAgent.initializeTools context _) as [[tools | error] w1];
    cbn [fst snd]; [| failed_run].
  unfold BaseAgent.bind_a at 1. rewrite lift_run.
  cbn [fst snd BaseAgent.env_world BaseAgent.env_events].
  destruct (BaseAgent.buildSystemPrompt context _) as [[systemPrompt | error] w2];
    cbn [fst snd]; [| failed_run].
  unfold BaseAgent.bind_a at 1. rewrite lift_run.
  cbn [fst snd BaseAgent.env_world BaseAgent.env_events].
  destruct (BaseAgent.buildUserPrompt context _) as [[userPrompt | error] w3];
    cbn [fst snd]; [| failed_run].
  unfold BaseAgent.bind_a at 1.
  match goal with
  | |- context [BaseAgent.runAgentLoop ?p ?u ?t ?c ?s0] =>
      destruct (runAgentLoop_events p u t c s0) as (added & Hev);
      destruct (BaseAgent.runAgentLoop p u t c s0) as [[result | error] s4]
  end; cbn [fst snd BaseAgent.env_events] in Hev; [| failed_run].
  unfold BaseAgent.bind_a at 1. rewrite lift_run. cbn [fst snd].
  destruct (BaseAgent.parseOutput _ context _) as [[parsedOutput | error] w5];
    cbn [fst snd]; [| failed_run].
  unfold BaseAgent.bind_a at 1. rewrite lift_run.
  cbn [fst snd BaseAgent.env_world BaseAgent.env_events].
  destruct (BaseAgent.determineNextAction parsedOutput context _)
    as [[nextAction | error] w6]; cbn [fst snd]; [| failed_run].
  unfold BaseAgent.bind_a. rewrite lift_run. unfold now, gets.
  cbn [fst snd BaseAgent.env_world BaseAgent.env_events].
  rewrite push_event_run.
  cbn [fst snd BaseAgent.env_world BaseAgent.env_events].
  eexists _, _. split; [reflexivity |].
  cbn [BaseAgent.result_events BaseAgent.result_success].
  split; [by rewrite Hev |].
  split; [rewrite last_fmap_snoc; reflexivity | discriminate].
Qed.

(** X30. When the agent's tools and prompts are set up without error and the
    model asks for tools on every turn, execute does not loop on: after
    maxTurns model calls it gives up, and the result is no success, with next
    action FAIL and the message "Agent exceeded maximum turns (maxTurns)";
    the worker then marks the execution FAILED. *)
Theorem execute_fails_when_turns_run_out (context : AgentContext) (w : World) :
  (∀ w0, ∃ tools w1, BaseAgent.initializeTools context w0 = (Returned tools, w1)) →
  (∀ w0, ∃ prompt w1, BaseAgent.buildSystemPrompt context w0 = (Returned prompt, w1)) →
  (∀ w0, ∃ prompt w1, BaseAgent.buildUserPrompt context w0 = (Returned prompt, w1)) →
  (∀ request w0, ∃ response w1,
     BaseAgent.messages_create request w0 = (Returned response, w1)
     ∧ BaseAgent.stop_reason response = "tool_use") →
  ∃ r w',
    BaseAgent.execute context w = (Returned r, w') ∧
    BaseAgent.result_success r = false ∧
    BaseAgent.result_nextAction r =
      FAIL ("Agent exceeded maximum turns (" +:+ pretty BaseAgent.maxTurns +:+ ")") ∧
    AgentWorker.status_after (BaseAgent.result_nextAction r) = FAILED.
Proof.
  intros Htools Hsystem Huser Hmodel.
  unfold BaseAgent.execute, BaseAgent.try_catch.
  unfold BaseAgent.bind_a at 1. rewrite push_event_run.
  cbn [fst snd BaseAgent.env_world BaseAgent.env_events app].
  unfold BaseAgent.bind_a at 1. rewrite lift_run.
  cbn [fst snd BaseAgent.env_world BaseAgent.env_events].
  match goal with
  | |- context [BaseAgent.initializeTools context ?w0] =>
      destruct (Htools w0) as (tools & w1 & ->)
  end.
  cbn [fst snd].
  unfold BaseAgent.bind_a at 1. rewrite lift_run.
  cbn [fst snd BaseAgent.env_world BaseAgent.env_events].
  destruct (Hsystem w1) as (systemPrompt & w2 & ->). cbn [fst snd].
  unfold BaseAgent.bind_a at 1. rewrite lift_run.
  cbn [fst snd BaseAgent.env_world BaseAgent.env_events].
  destruct (Huser w2) as (userPrompt & w3 & ->). cbn [fst snd].
  unfold BaseAgent.bind_a at 1.
  match goal with
  | |- context [BaseAgent.runAgentLoop ?p ?u ?t ?c ?s0] =>
      pose proof (agent_loop_exhausts BaseAgent.maxTurns p t c
                    [{| BaseAgent.role := "user";
                        BaseAgent.message_content := BaseAgent.Plain u |}]
                    0%float 0%float s0 Hmodel) as Hloop;
      fold (BaseAgent.runAgentLoop p u t c) in Hloop;
      destruct (BaseAgent.runAgentLoop p u t c s0) as [out s4]
  end.
  simpl in Hloop. subst out.
  unfold BaseAgent.bind_a. rewrite lift_run. unfold now, gets.
  cbn [fst snd BaseAgent.env_world BaseAgent.env_events].
  rewrite push_event_run.
  eexists _, _. split; [reflexivity |]. done.
Qed.

End ExecuteFacts.

(** X30 at an agent given two turns whose model asks for a tool each time. *)
Lemma execute_fails_when_turns_run_out_witness :
  ∃ r w',
    BaseAgent.execute (agent := looping_agent) (context_with ∅) world_start
      = (Returned r, w') ∧
    BaseAgent.result_nextAction r = FAIL "Agent exceeded maximum turns (2)" ∧
    BaseAgent.ae_eventType <$> BaseAgent.result_events r =
      ["AGENT_STARTED"; "TOOL_INVOKED"; "TOOL_FAILED"; "TOOL_INVOKED"; "TOOL_FAILED";
       "AGENT_FAILED"].
Proof.
  destruct (execute_fails_when_turns_run_out (agent := looping_agent)
              (context_with ∅) world_start)
    as (r & w' & Hrun & _ & Hnext & _).
  - intros w0. eexists _, _. reflexivity.
  - intros w0. eexists _, _. reflexivity.
  - intros w0. eexists _, _. reflexivity.
  - intros request w0. eexists _, _. split; reflexivity.
  - exists r, w'. split; [exact Hrun |]. split; [exact Hnext |].
    assert (Hr : Returned r = (BaseAgent.execute (agent := looping_agent)
                                 (context_with ∅) world_start).1)
      by (by rewrite Hrun).
    vm_compute in Hr. injection Hr as ->. reflexivity.
Defined.
